(** * The canary comparator (pkg/canary/comparator/comparator.go)

    A shallow embedding of the reconciliation engine of the canary: the
    [Comparator] struct, the package-level Prometheus collectors, the
    operations [entrySent], [entryReceived], [pruneEntries],
    [confirmMissing], [spotCheckEntries], [metricTest] and the dispatch of
    [run], followed by the properties of these operations.

    Go statements are written in a state-and-panic monad [Go].  A slice is a
    list; an indexed read or write outside the slice panics as in Go.  The
    wall clock, the query collaborator ([reader.LokiReader]) and
    [time.ParseDuration] live outside this file of the repository and are
    taken as parameters. *)

From Stdlib Require Import ZArith Lia Ascii String PrimFloat FloatOps SpecFloat.
From stdpp Require Import base tactics option list strings.

Local Open Scope string_scope.
Local Open Scope list_scope.
Local Open Scope Z_scope.

(** ** The part of Go's [time] package the comparator uses

    A [Time] is an instant, in nanoseconds since the Unix epoch; the
    monotonic reading and the location of Go's [time.Time] are left out, and
    so is the bound on the years a [time.Time] can represent.  A [Duration]
    is Go's [int64] count of nanoseconds. *)
Module time.

Abbreviation Time := Z (only parsing).
Abbreviation Duration := Z (only parsing).

Definition minDuration : Duration := - 2 ^ 63.
Definition maxDuration : Duration := 2 ^ 63 - 1.

(** Two's complement wrap-around of [int64] arithmetic. *)
Definition int64 (z : Z) : Z := (z + 2 ^ 63) mod 2 ^ 64 - 2 ^ 63.

Definition Millisecond : Duration := 1000000.
Definition Second : Duration := 1000000000.

(** [-d] on a [Duration]. *)
Definition neg (d : Duration) : Duration := int64 (- d).

(** [t.Add(d)]. *)
Definition Add (t : Time) (d : Duration) : Time := t + d.

(** [t.Sub(u)]: the difference, saturated to the range of [Duration]. *)
Definition Sub (t u : Time) : Duration :=
  if t - u <? minDuration then minDuration
  else if maxDuration <? t - u then maxDuration
  else t - u.

(** [t.Before(u)] and [t.Equal(u)]. *)
Definition Before (t u : Time) : bool := t <? u.
Definition Equal (t u : Time) : bool := t =? u.

(** [t.UnixNano()]. *)
Definition UnixNano (t : Time) : Z := int64 t.

(** [float64(x)] for an [int64]: rounding to nearest, ties to even. *)
Definition float64 (z : Z) : float := SF2Prim (binary_normalize prec emax z 0 false).

(** [d.Milliseconds()]: integer division truncates toward zero. *)
Definition Milliseconds (d : Duration) : Z := d ÷ 1000000.

(** [d.Seconds()]. *)
Definition Seconds (d : Duration) : float :=
  let sec := d ÷ Second in
  let nsec := Z.rem d Second in
  (float64 sec + float64 nsec / float64 1000000000)%float.

End time.

(** ** Diagnostic output

    [fmt.Fprintf(c.w, format, args...)] appends one record to the writer: the
    format string and the arguments, unformatted. *)
Inductive Arg : Type :=
| ATime (t : time.Time)
| ATimes (l : list time.Time)
| AInt (z : Z)
| ADuration (d : time.Duration)
| AFloat (f : float)
| AString (s : string).

Definition LogLine : Type := string * list Arg.

Definition ErrOutOfOrderEntry := "out of order entry %s was received before entries: %v\n".
Definition ErrEntryNotReceivedWs := "websocket failed to receive entry %v within %f seconds\n".
Definition ErrEntryNotReceived := "failed to receive entry %v within %f seconds\n".
Definition ErrSpotCheckEntryNotReceived :=
  "failed to find entry %v in Loki when spot check querying %v after it was written\n".
Definition ErrDuplicateEntry := "received a duplicate entry for ts %v\n".
Definition ErrUnexpectedEntry := "received an unexpected entry with ts %v\n".
Definition DebugWebsocketMissingEntry := "websocket missing entry: %v\n".
Definition DebugQueryResult := "confirmation query result: %v\n".
Definition ErrParseMetricTestRange :=
  "failed to parse duration string for metric-test-range, metric queries will not be possible: %v".
Definition ErrInvalidMetricTestRange :=
  "Invalid metric-test-range parameter, metric test query failed".
Definition ErrMetricQuery := "error running metric query test: %s".
Definition ErrQueryLoki := "error querying loki: %s\n".

(** Records have definitional eta: a state is equal to the record of its
    fields. *)
#[local] Set Primitive Projections.

(** ** The package-level collectors

    A counter is the number of its [Inc()] calls; the gauge is its last
    [Set] value; the histogram is the list of the values observed. *)
Record Metrics : Type := mkMetrics {
  totalEntries : nat;
  outOfOrderEntries : nat;
  wsMissingEntries : nat;
  missingEntries : nat;
  spotCheckMissing : nat;
  unexpectedEntries : nat;
  duplicateEntries : nat;
  metricTestDeviation : float;
  responseLatency : list float
}.

Definition inc_totalEntries (m : Metrics) : Metrics :=
  mkMetrics (S (totalEntries m)) (outOfOrderEntries m) (wsMissingEntries m) (missingEntries m)
    (spotCheckMissing m) (unexpectedEntries m) (duplicateEntries m) (metricTestDeviation m)
    (responseLatency m).
Definition inc_outOfOrderEntries (m : Metrics) : Metrics :=
  mkMetrics (totalEntries m) (S (outOfOrderEntries m)) (wsMissingEntries m) (missingEntries m)
    (spotCheckMissing m) (unexpectedEntries m) (duplicateEntries m) (metricTestDeviation m)
    (responseLatency m).
Definition inc_wsMissingEntries (m : Metrics) : Metrics :=
  mkMetrics (totalEntries m) (outOfOrderEntries m) (S (wsMissingEntries m)) (missingEntries m)
    (spotCheckMissing m) (unexpectedEntries m) (duplicateEntries m) (metricTestDeviation m)
    (responseLatency m).
Definition inc_missingEntries (m : Metrics) : Metrics :=
  mkMetrics (totalEntries m) (outOfOrderEntries m) (wsMissingEntries m) (S (missingEntries m))
    (spotCheckMissing m) (unexpectedEntries m) (duplicateEntries m) (metricTestDeviation m)
    (responseLatency m).
Definition inc_spotCheckMissing (m : Metrics) : Metrics :=
  mkMetrics (totalEntries m) (outOfOrderEntries m) (wsMissingEntries m) (missingEntries m)
    (S (spotCheckMissing m)) (unexpectedEntries m) (duplicateEntries m) (metricTestDeviation m)
    (responseLatency m).
Definition inc_unexpectedEntries (m : Metrics) : Metrics :=
  mkMetrics (totalEntries m) (outOfOrderEntries m) (wsMissingEntries m) (missingEntries m)
    (spotCheckMissing m) (S (unexpectedEntries m)) (duplicateEntries m) (metricTestDeviation m)
    (responseLatency m).
Definition inc_duplicateEntries (m : Metrics) : Metrics :=
  mkMetrics (totalEntries m) (outOfOrderEntries m) (wsMissingEntries m) (missingEntries m)
    (spotCheckMissing m) (unexpectedEntries m) (S (duplicateEntries m)) (metricTestDeviation m)
    (responseLatency m).
Definition set_metricTestDeviation (v : float) (m : Metrics) : Metrics :=
  mkMetrics (totalEntries m) (outOfOrderEntries m) (wsMissingEntries m) (missingEntries m)
    (spotCheckMissing m) (unexpectedEntries m) (duplicateEntries m) v (responseLatency m).
Definition observe_responseLatency (v : float) (m : Metrics) : Metrics :=
  mkMetrics (totalEntries m) (outOfOrderEntries m) (wsMissingEntries m) (missingEntries m)
    (spotCheckMissing m) (unexpectedEntries m) (duplicateEntries m) (metricTestDeviation m)
    (responseLatency m ++ [v]).

(** ** The [Comparator] struct

    The three mutexes are left out: every operation below runs to its end
    without interleaving.  The channels [sent] and [recv] are the events of
    [run]; [done] records that the channel of that name has been closed. *)
Record Comparator : Type := mkComparator {
  entries : list time.Time;
  spotCheck : list time.Time;
  ackdEntries : list time.Time;
  maxWait : time.Duration;
  pruneInterval : time.Duration;
  spotCheckInterval : time.Duration;
  spotCheckMax : time.Duration;
  spotCheckRunning : bool;
  metricTestInterval : time.Duration;
  metricTestRange : string;
  metricTestRagenDur : time.Duration;
  metricTestRunning : bool;
  writeInterval : time.Duration;
  confirmAsync : bool;
  done : bool
}.

Definition set_entries (v : list time.Time) (c : Comparator) : Comparator :=
  mkComparator v (spotCheck c) (ackdEntries c) (maxWait c) (pruneInterval c)
    (spotCheckInterval c) (spotCheckMax c) (spotCheckRunning c) (metricTestInterval c)
    (metricTestRange c) (metricTestRagenDur c) (metricTestRunning c) (writeInterval c)
    (confirmAsync c) (done c).
Definition set_spotCheck (v : list time.Time) (c : Comparator) : Comparator :=
  mkComparator (entries c) v (ackdEntries c) (maxWait c) (pruneInterval c)
    (spotCheckInterval c) (spotCheckMax c) (spotCheckRunning c) (metricTestInterval c)
    (metricTestRange c) (metricTestRagenDur c) (metricTestRunning c) (writeInterval c)
    (confirmAsync c) (done c).
Definition set_ackdEntries (v : list time.Time) (c : Comparator) : Comparator :=
  mkComparator (entries c) (spotCheck c) v (maxWait c) (pruneInterval c)
    (spotCheckInterval c) (spotCheckMax c) (spotCheckRunning c) (metricTestInterval c)
    (metricTestRange c) (metricTestRagenDur c) (metricTestRunning c) (writeInterval c)
    (confirmAsync c) (done c).
Definition set_spotCheckRunning (v : bool) (c : Comparator) : Comparator :=
  mkComparator (entries c) (spotCheck c) (ackdEntries c) (maxWait c) (pruneInterval c)
    (spotCheckInterval c) (spotCheckMax c) v (metricTestInterval c)
    (metricTestRange c) (metricTestRagenDur c) (metricTestRunning c) (writeInterval c)
    (confirmAsync c) (done c).
Definition set_metricTestRagenDur (v : time.Duration) (c : Comparator) : Comparator :=
  mkComparator (entries c) (spotCheck c) (ackdEntries c) (maxWait c) (pruneInterval c)
    (spotCheckInterval c) (spotCheckMax c) (spotCheckRunning c) (metricTestInterval c)
    (metricTestRange c) v (metricTestRunning c) (writeInterval c)
    (confirmAsync c) (done c).
Definition set_metricTestRunning (v : bool) (c : Comparator) : Comparator :=
  mkComparator (entries c) (spotCheck c) (ackdEntries c) (maxWait c) (pruneInterval c)
    (spotCheckInterval c) (spotCheckMax c) (spotCheckRunning c) (metricTestInterval c)
    (metricTestRange c) (metricTestRagenDur c) v (writeInterval c)
    (confirmAsync c) (done c).
Definition set_done (v : bool) (c : Comparator) : Comparator :=
  mkComparator (entries c) (spotCheck c) (ackdEntries c) (maxWait c) (pruneInterval c)
    (spotCheckInterval c) (spotCheckMax c) (spotCheckRunning c) (metricTestInterval c)
    (metricTestRange c) (metricTestRagenDur c) (metricTestRunning c) (writeInterval c)
    (confirmAsync c) v.

(** ** The query collaborator

    Go's [error] is [None] for [nil] and the message otherwise.  A call
    returns both of its results, as in Go, and the next state of the
    collaborator. *)
Definition error : Type := option string.

Class LokiReader (R : Type) : Type := {
  Query : R -> time.Time -> time.Time -> (list time.Time * error) * R;
  QueryCountOverTime : R -> string -> (float * error) * R
}.

Inductive Call : Type :=
| CallQuery (start end_ : time.Time)
| CallQueryCountOverTime (queryRange : string).

(** A goroutine started with [go] that has not run yet. *)
Inductive Goroutine : Type :=
| GoConfirmMissing (missing : list time.Time)
| GoSpotCheckEntries (currTime : time.Time)
| GoMetricTest.

(** ** The state of the program *)
Record State (R : Type) : Type := mkState {
  comp : Comparator;          (* the receiver [c] *)
  met : Metrics;              (* the package-level collectors *)
  out : list LogLine;         (* what has been written to [c.w] *)
  rdr : R;                    (* [c.rdr] *)
  calls : list Call;          (* the calls made on [c.rdr], oldest first *)
  clock : nat;                (* how many times the wall clock has been read *)
  goroutines : list Goroutine (* started, not yet run *)
}.
Arguments mkState {R}.
Arguments comp {R}.
Arguments met {R}.
Arguments out {R}.
Arguments rdr {R}.
Arguments calls {R}.
Arguments clock {R}.
Arguments goroutines {R}.

Inductive outcome (A : Type) : Type :=
| Ok (a : A)
| Panic (msg : string).
Arguments Ok {A}.
Arguments Panic {A}.

(** ** Collaborators and states for the examples *)

(** A backend that holds the timestamps of its state and answers a range
    query with those in the range, and a count query with their number. *)
#[global] Instance stored_reader : LokiReader (list time.Time) := {
  Query r start end_ := ((List.filter (fun t => (start <=? t) && (t <=? end_)) r, None), r);
  QueryCountOverTime r _ := ((time.float64 (Z.of_nat (length r)), None), r)
}.

(** A backend whose every call fails. *)
#[global] Instance failing_reader : LokiReader unit := {
  Query r _ _ := (([], Some "unavailable"), r);
  QueryCountOverTime r _ := ((0%float, Some "unavailable"), r)
}.

(** A clock that reads [now] at every call. *)
Definition frozen (now : time.Time) : nat -> time.Time := fun _ => now.


(** A parser of the durations that are a count of hours, [24h] and the
    like, of one to four digits; every other string is an error. *)
Fixpoint hours (s : string) (acc : Z) : option Z :=
  match s with
  | String c EmptyString => if Ascii.eqb c "h"%char then Some acc else None
  | String c s' =>
      let n := Z.of_nat (Ascii.nat_of_ascii c) - 48 in
      if (0 <=? n) && (n <=? 9) then hours s' (10 * acc + n) else None
  | EmptyString => None
  end.
Definition hours_ParseDuration (s : string) : time.Duration * error :=
  match hours s 0 with
  | Some n =>
      if (2 <=? String.length s)%nat && (String.length s <=? 5)%nat
      then (n * (3600 * time.Second), None)
      else (0, Some "time: invalid duration")
  | None => (0, Some "time: invalid duration")
  end.

Definition zero_metrics : Metrics := mkMetrics 0 0 0 0 0 0 0 0%float [].

(** A comparator with [maxWait] 5s, a sampling interval of 1s, a maximal
    spot-check age of 60s, a window of 24h and a write interval of 1ms, and a
    state around it. *)
Definition sample_comparator (pending sampled ackd : list time.Time) (async : bool) :
    Comparator :=
  mkComparator pending sampled ackd (5 * time.Second) time.Second time.Second
    (60 * time.Second) false time.Second "24h" (86400 * time.Second) false time.Millisecond
    async false.
Definition sample_state {R : Type} (r : R) (pending sampled ackd : list time.Time)
    (async : bool) : State R :=
  mkState (sample_comparator pending sampled ackd async) zero_metrics [] r [] 0 [].

Section Comparator.

Context {R : Type} {reader : LokiReader R}.

(** [wall n] is what the [n]-th call of [time.Now()] returns. *)
Variable wall : nat -> time.Time.

(** [time.ParseDuration], which returns the zero duration with every
    error. *)
Variable ParseDuration : string -> time.Duration * error.
Hypothesis ParseDuration_error :
  forall (s : string) (d : time.Duration) (e : string),
    ParseDuration s = (d, Some e) -> d = 0.

(** *** Go statements *)
Definition Go (A : Type) : Type := State R -> outcome (A * State R).

#[global] Instance Go_ret : MRet Go := fun A a st => Ok (a, st).
#[global] Instance Go_bind : MBind Go := fun A B f m st =>
  match m st with
  | Ok (a, st') => f a st'
  | Panic msg => Panic msg
  end.

Definition panic {A : Type} (msg : string) : Go A := fun _ => Panic msg.

(** Reading and writing the fields of the receiver. *)
Definition getc : Go Comparator := fun st => Ok (comp st, st).
Definition setc (f : Comparator -> Comparator) : Go unit := fun st =>
  Ok (tt, mkState (f (comp st)) (met st) (out st) (rdr st) (calls st) (clock st)
            (goroutines st)).

(** A method call on one of the collectors. *)
Definition metric (f : Metrics -> Metrics) : Go unit := fun st =>
  Ok (tt, mkState (comp st) (f (met st)) (out st) (rdr st) (calls st) (clock st)
            (goroutines st)).

Definition Fprintf (format : string) (args : list Arg) : Go unit := fun st =>
  Ok (tt, mkState (comp st) (met st) (out st ++ [(format, args)]) (rdr st) (calls st)
            (clock st) (goroutines st)).

Definition Now : Go time.Time := fun st =>
  Ok (wall (clock st),
      mkState (comp st) (met st) (out st) (rdr st) (calls st) (S (clock st))
        (goroutines st)).

Definition rdr_Query (start end_ : time.Time) : Go (list time.Time * error) := fun st =>
  let '(res, r') := Query (rdr st) start end_ in
  Ok (res, mkState (comp st) (met st) (out st) r' (calls st ++ [CallQuery start end_])
             (clock st) (goroutines st)).

Definition rdr_QueryCountOverTime (queryRange : string) : Go (float * error) := fun st =>
  let '(res, r') := QueryCountOverTime (rdr st) queryRange in
  Ok (res, mkState (comp st) (met st) (out st) r'
             (calls st ++ [CallQueryCountOverTime queryRange]) (clock st) (goroutines st)).

(** [go f(...)]. *)
Definition go (g : Goroutine) : Go unit := fun st =>
  Ok (tt, mkState (comp st) (met st) (out st) (rdr st) (calls st) (clock st)
            (goroutines st ++ [g])).

(** [a[i]] and [a[k] = x]. *)
Definition index {A : Type} (a : list A) (i : nat) : Go A :=
  match a !! i with
  | Some x => mret x
  | None => panic "index out of range"
  end.
Definition store {A : Type} (a : list A) (k : nat) (x : A) : Go (list A) :=
  if decide (k < length a)%nat then mret (<[k:=x]> a) else panic "index out of range".

(** [a[:k]]; the slices below are never re-sliced beyond their length. *)
Definition slice_to {A : Type} (a : list A) (k : nat) : Go (list A) :=
  if decide (k <= length a)%nat then mret (take k a) else panic "slice bounds out of range".

(** [for i, e := range a { ... }]: the length of the slice is read once,
    before the first iteration; iteration [i] reads [a[i]] from the slice
    as it is then ([read] gives the slice, which the body may have written
    to) and runs the body on the loop's local variables [acc]. *)
Fixpoint range_from {A L : Type} (read : L -> Go (list A)) (i n : nat)
    (body : nat -> A -> L -> Go L) (acc : L) : Go L :=
  match n with
  | O => mret acc
  | S n' =>
      a ← read acc;
      e ← index a i;
      acc' ← body i e acc;
      range_from read (S i) n' body acc'
  end.
Definition range {A L : Type} (read : L -> Go (list A)) (body : nat -> A -> L -> Go L)
    (acc : L) : Go L :=
  a ← read acc; range_from read 0 (length a) body acc.

(** A slice that the loop does not write to. *)
Definition fixed {A L : Type} (xs : list A) : L -> Go (list A) := fun _ => mret xs.

Definition when (b : bool) (m : Go unit) : Go unit := if b then m else mret tt.

(** *** The operations of the comparator *)

Definition c_entries {L : Type} : L -> Go (list time.Time) :=
  fun _ => c ← getc; mret (entries c).
Definition c_ackdEntries {L : Type} : L -> Go (list time.Time) :=
  fun _ => c ← getc; mret (ackdEntries c).
Definition c_spotCheck {L : Type} : L -> Go (list time.Time) :=
  fun _ => c ← getc; mret (spotCheck c).

Definition entrySent (t : time.Time) : Go unit :=
  setc (fun c => set_entries (entries c ++ [t]) c);;
  c ← getc;
  b ← (if decide (length (spotCheck c) = 0%nat) then mret true
       else
         last ← index (spotCheck c) (length (spotCheck c) - 1);
         mret (spotCheckInterval c <=? time.Sub t last));
  when b (setc (fun c => set_spotCheck (spotCheck c ++ [t]) c));;
  metric inc_totalEntries.

(** The scan of [c.ackdEntries] in [entryReceived], which stops at the
    first equal entry; the result is the local [duplicate]. *)
Fixpoint entryReceived_ackd (ts : time.Time) (ackd : list time.Time) : Go bool :=
  match ackd with
  | [] => mret false
  | e :: ackd' =>
      if time.Equal ts e then
        metric inc_duplicateEntries;;
        Fprintf ErrDuplicateEntry [AInt (time.UnixNano ts)];;
        mret true
      else entryReceived_ackd ts ackd'
  end.

(** The loops that compact a slice in place end by writing [nil] to the
    positions from [k] to the old length and cutting the slice to [k]:
    the positions written lie beyond the new length, so only the cut is
    kept here. *)
Definition entryReceived_each (ts : time.Time) (i : nat) (e : time.Time)
    (acc : nat * bool) : Go (nat * bool) :=
  let '(k, matched) := acc in
  if time.Equal ts e then
    when (negb (i =? 0)%nat) (
      metric inc_outOfOrderEntries;;
      c ← getc;
      before ← slice_to (entries c) i;
      Fprintf ErrOutOfOrderEntry [ATime e; ATimes before]);;
    now ← Now;
    metric (observe_responseLatency (time.Seconds (time.Sub now ts)));;
    c ← getc;
    x ← index (entries c) i;
    setc (set_ackdEntries (ackdEntries c ++ [x]));;
    mret (k, true)
  else
    when (negb (i =? k)%nat) (
      c ← getc;
      x ← index (entries c) i;
      a ← store (entries c) k x;
      setc (set_entries a));;
    mret (S k, matched).

Definition entryReceived (ts : time.Time) : Go unit :=
  '(k, matched) ← range c_entries (entryReceived_each ts) (0%nat, false);
  when (negb matched) (
    c ← getc;
    duplicate ← entryReceived_ackd ts (ackdEntries c);
    when (negb duplicate) (
      Fprintf ErrUnexpectedEntry [AInt (time.UnixNano ts)];;
      metric inc_unexpectedEntries));;
  c ← getc;
  a ← slice_to (entries c) k;
  setc (set_entries a).

Definition Size : Go nat := c ← getc; mret (length (entries c)).

(** The body of the loop of [confirmMissing] that drops from [missing] what
    the query returned; the inner loop over [recvd] has no [break]. *)
Definition confirmMissing_each (recvd : list time.Time) (i : nat) (m : time.Time)
    (acc : list time.Time * nat) : Go (list time.Time * nat) :=
  let '(missing, k) := acc in
  found ← range (fixed recvd) (fun _ r found =>
    mret (if time.Equal m r then true else found)) false;
  if negb found then
    missing ← (if negb (i =? k)%nat then
                 x ← index missing i;
                 store missing k x
               else mret missing);
    mret (missing, S k)
  else mret (missing, k).

Definition confirmMissing (missing : list time.Time) : Go unit :=
  start ← index missing 0;
  let start := time.Add start (-10 * time.Second) in
  end_ ← index missing (length missing - 1);
  let end_ := time.Add end_ (10 * time.Second) in
  '(recvd, err) ← rdr_Query start end_;
  match err with
  | Some e => Fprintf ErrQueryLoki [AString e]
  | None =>
      range (fixed missing) (fun _ r _ =>
        Fprintf DebugWebsocketMissingEntry [AInt (time.UnixNano r)]) tt;;
      range (fixed recvd) (fun _ r _ =>
        Fprintf DebugQueryResult [AInt (time.UnixNano r)]) tt;;
      '(missing, k) ← range (fun acc => mret (fst acc)) (confirmMissing_each recvd)
                        (missing, 0%nat);
      missing ← slice_to missing k;
      c ← getc;
      range (fixed missing) (fun _ e _ =>
        metric inc_missingEntries;;
        Fprintf ErrEntryNotReceived
          [AInt (time.UnixNano e); AFloat (time.Seconds (maxWait c))]) tt
  end.

(** The bodies of the two loops of [pruneEntries]. *)
Definition pruneEntries_each (i : nat) (e : time.Time) (acc : list time.Time * nat) :
    Go (list time.Time * nat) :=
  let '(missing, k) := acc in
  now ← Now;
  c ← getc;
  if time.Before e (time.Add now (time.neg (maxWait c))) then
    metric inc_wsMissingEntries;;
    Fprintf ErrEntryNotReceivedWs
      [AInt (time.UnixNano e); AFloat (time.Seconds (maxWait c))];;
    mret (missing ++ [e], k)
  else
    when (negb (i =? k)%nat) (
      c ← getc;
      x ← index (entries c) i;
      a ← store (entries c) k x;
      setc (set_entries a));;
    mret (missing, S k).

Definition pruneEntries_ackd_each (i : nat) (e : time.Time) (k : nat) : Go nat :=
  now ← Now;
  c ← getc;
  if time.Before e (time.Add now (time.neg (maxWait c))) then mret k
  else
    when (negb (i =? k)%nat) (
      c ← getc;
      x ← index (ackdEntries c) i;
      a ← store (ackdEntries c) k x;
      setc (set_ackdEntries a));;
    mret (S k).

Definition pruneEntries : Go unit :=
  '(missing, k) ← range c_entries pruneEntries_each ([], 0%nat);
  c ← getc;
  a ← slice_to (entries c) k;
  setc (set_entries a);;
  when (0 <? length missing)%nat (
    c ← getc;
    if confirmAsync c then go (GoConfirmMissing missing) else confirmMissing missing);;
  k ← range c_ackdEntries pruneEntries_ackd_each 0%nat;
  c ← getc;
  a ← slice_to (ackdEntries c) k;
  setc (set_ackdEntries a).

(** The verification loop of [spotCheckEntries] over the copy [cpy]; a
    failed query returns from the function. *)
Fixpoint spotCheckEntries_verify (currTime : time.Time) (cpy : list time.Time) : Go unit :=
  match cpy with
  | [] => mret tt
  | sce :: cpy' =>
      let start := sce in
      let start := time.Add start (-10 * time.Second) in
      let end_ := time.Add start (10 * time.Second) in
      '(recvd, err) ← rdr_Query start end_;
      match err with
      | Some e => Fprintf ErrQueryLoki [AString e]
      | None =>
          when (negb (existsb (time.Equal sce) recvd)) (
            Fprintf ErrSpotCheckEntryNotReceived
              [AInt (time.UnixNano sce); ADuration (time.Sub currTime sce)];;
            metric inc_spotCheckMissing);;
          spotCheckEntries_verify currTime cpy'
      end
  end.

(** The eviction at the head of [spotCheckEntries], under [spotMtx], and the
    body of its loop. *)
Definition spotCheckEntries_each (currTime : time.Time) (i : nat) (e : time.Time)
    (k : nat) : Go nat :=
  c ← getc;
  if time.Before e (time.Add currTime (time.neg (spotCheckMax c))) then mret k
  else
    when (negb (i =? k)%nat) (
      c ← getc;
      x ← index (spotCheck c) i;
      a ← store (spotCheck c) k x;
      setc (set_spotCheck a));;
    mret (S k).

Definition spotCheckEntries_evict (currTime : time.Time) : Go unit :=
  k ← range c_spotCheck (spotCheckEntries_each currTime) 0%nat;
  c ← getc;
  a ← slice_to (spotCheck c) k;
  setc (set_spotCheck a).

(** The deferred function runs when the body returns. *)
Definition spotCheckEntries (currTime : time.Time) : Go unit :=
  (spotCheckEntries_evict currTime;;
   c ← getc;
   let cpy := spotCheck c in
   spotCheckEntries_verify currTime cpy);;
  setc (set_spotCheckRunning false).

Definition metricTest : Go unit :=
  (c ← getc;
   if decide (metricTestRagenDur c = 0) then Fprintf ErrInvalidMetricTestRange []
   else
     '(actualCount, err) ← rdr_QueryCountOverTime (metricTestRange c);
     match err with
     | Some e => Fprintf ErrMetricQuery [AString e]
     | None => mret tt
     end;;
     let expectedCount :=
       (time.float64 (time.Milliseconds (metricTestRagenDur c))
        / time.float64 (time.Milliseconds (writeInterval c)))%float in
     metric (set_metricTestDeviation (expectedCount - actualCount)%float));;
  setc (set_metricTestRunning false).

(** *** The loop of [run] *)

(** What one [select] of [run] can receive. *)
Inductive Event : Type :=
| Recv (e : time.Time)
| Sent (e : time.Time)
| PruneTick
| MetricTestTick
| Quit.

(** One iteration of the loop; on [Quit] the loop returns and the deferred
    function closes [c.done]. *)
Definition run_select (ev : Event) : Go unit :=
  match ev with
  | Recv e => entryReceived e
  | Sent e => entrySent e
  | PruneTick =>
      pruneEntries;;
      c ← getc;
      when (negb (spotCheckRunning c)) (
        setc (set_spotCheckRunning true);;
        now ← Now;
        go (GoSpotCheckEntries now))
  | MetricTestTick =>
      c ← getc;
      when (negb (metricTestRunning c)) (
        setc (set_metricTestRunning true);;
        go GoMetricTest)
  | Quit => setc (set_done true)
  end.

Definition run_goroutine (g : Goroutine) : Go unit :=
  match g with
  | GoConfirmMissing missing => confirmMissing missing
  | GoSpotCheckEntries currTime => spotCheckEntries currTime
  | GoMetricTest => metricTest
  end.

(** A step of the program: the loop of [run] serves an event, or the
    [n]-th started goroutine runs, to its end. *)
Inductive Label : Type :=
| Loop (ev : Event)
| Run (n : nat).

Definition take_goroutine (n : nat) : Go (option Goroutine) := fun st =>
  Ok (goroutines st !! n,
      mkState (comp st) (met st) (out st) (rdr st) (calls st) (clock st)
        (delete n (goroutines st))).

Definition step (l : Label) : Go unit :=
  match l with
  | Loop ev => c ← getc; if done c then mret tt else run_select ev
  | Run n =>
      g ← take_goroutine n;
      match g with
      | Some g => run_goroutine g
      | None => mret tt
      end
  end.

(** [NewComparator]: the state in which [run] starts.  [writer] is what
    the writer holds already, [globals] the collectors of the process and
    [clock0] the number of clock readings so far; [buckets] only shapes
    the histogram. *)
Definition NewComparator (writer : list LogLine) (maxWait pruneInterval : time.Duration)
    (spotCheckInterval spotCheckMax metricTestInterval : time.Duration)
    (metricTestRange : string) (writeInterval : time.Duration) (buckets : Z)
    (reader0 : R) (confirmAsync : bool) (globals : Metrics) (clock0 : nat) : State R :=
  let c := mkComparator [] [] [] maxWait pruneInterval spotCheckInterval spotCheckMax false
             metricTestInterval metricTestRange 0 false writeInterval confirmAsync false in
  let '(d, err) := ParseDuration metricTestRange in
  let '(writer, c) :=
    match err with
    | Some e => (writer ++ [(ErrParseMetricTestRange, [AString e])], set_metricTestRagenDur 0 c)
    | None => (writer, c)
    end in
  let c := set_metricTestRagenDur d c in
  mkState c globals writer reader0 [] clock0 [].

(** ** What the operations compute

    For each operation, the state in which it ends, written without loops
    over indices. *)

Definition hit (ts : time.Time) (e : time.Time) : bool := time.Equal ts e.
Definition nohit (ts : time.Time) (e : time.Time) : bool := negb (time.Equal ts e).

Definition with_entries (a : list time.Time) (st : State R) : State R :=
  mkState (set_entries a (comp st)) (met st) (out st) (rdr st) (calls st) (clock st)
    (goroutines st).
Definition with_ackdEntries (a : list time.Time) (st : State R) : State R :=
  mkState (set_ackdEntries a (comp st)) (met st) (out st) (rdr st) (calls st) (clock st)
    (goroutines st).
Definition with_spotCheck (a : list time.Time) (st : State R) : State R :=
  mkState (set_spotCheck a (comp st)) (met st) (out st) (rdr st) (calls st) (clock st)
    (goroutines st).

(** The state after [lines] have been written. *)
Definition logged (lines : list LogLine) (st : State R) : State R :=
  mkState (comp st) (met st) (out st ++ lines) (rdr st) (calls st) (clock st) (goroutines st).

(** *** [entrySent] *)

(** Whether [entrySent] adds [t] to the spot-check buffer of [c]. *)
Definition sampled (t : time.Time) (c : Comparator) : bool :=
  match last (spotCheck c) with
  | None => true
  | Some l => spotCheckInterval c <=? time.Sub t l
  end.

Definition entrySent_state (t : time.Time) (st : State R) : State R :=
  let c := set_entries (entries (comp st) ++ [t]) (comp st) in
  mkState (if sampled t (comp st) then set_spotCheck (spotCheck c ++ [t]) c else c)
    (inc_totalEntries (met st)) (out st) (rdr st) (calls st) (clock st) (goroutines st).

(** *** [entryReceived] *)

(** The state after the branch of [entryReceived_each] for an equal entry. *)
Definition received_hit (ts : time.Time) (i : nat) (e : time.Time) (st : State R) : State R :=
  mkState
    (set_ackdEntries (ackdEntries (comp st) ++ [e]) (comp st))
    (observe_responseLatency (time.Seconds (time.Sub (wall (clock st)) ts))
       (if (i =? 0)%nat then met st else inc_outOfOrderEntries (met st)))
    (out st ++ (if (i =? 0)%nat then []
                else [(ErrOutOfOrderEntry, [ATime e; ATimes (take i (entries (comp st)))])]))
    (rdr st) (calls st) (S (clock st)) (goroutines st).

(** The lines the loop of [entryReceived] writes from index [i] on, when the
    slice holds [kept] followed by the entries of [l0] from [length kept]. *)
Fixpoint received_lines (ts : time.Time) (l0 : list time.Time) (i : nat)
    (kept rest : list time.Time) : list LogLine :=
  match rest with
  | [] => []
  | e :: rest' =>
      if time.Equal ts e then
        (if (i =? 0)%nat then []
         else [(ErrOutOfOrderEntry,
                [ATime e; ATimes (take i (kept ++ drop (length kept) l0))])])
        ++ received_lines ts l0 (S i) kept rest'
      else received_lines ts l0 (S i) (kept ++ [e]) rest'
  end.

(** The state after the loop of [entryReceived] has gone from index [i]
    through [rest]. *)
Definition received_loop_state (ts : time.Time) (l0 : list time.Time) (i : nat)
    (kept rest : list time.Time) (st : State R) : State R :=
  let hits := List.filter (hit ts) rest in
  let kept' := kept ++ List.filter (nohit ts) rest in
  let m := met st in
  mkState
    (set_ackdEntries (ackdEntries (comp st) ++ hits)
       (set_entries (kept' ++ drop (length kept') l0) (comp st)))
    (mkMetrics (totalEntries m)
       (outOfOrderEntries m + length (List.filter (hit ts) (drop (1 - i) rest)))
       (wsMissingEntries m) (missingEntries m) (spotCheckMissing m) (unexpectedEntries m)
       (duplicateEntries m) (metricTestDeviation m)
       (responseLatency m
        ++ map (fun j => time.Seconds (time.Sub (wall j) ts)) (seq (clock st) (length hits))))
    (out st ++ received_lines ts l0 i kept rest)
    (rdr st) (calls st) (clock st + length hits) (goroutines st).

Definition received_duplicate (ts : time.Time) (st : State R) : State R :=
  mkState (comp st) (inc_duplicateEntries (met st))
    (out st ++ [(ErrDuplicateEntry, [AInt (time.UnixNano ts)])])
    (rdr st) (calls st) (clock st) (goroutines st).

Definition received_unexpected (ts : time.Time) (st : State R) : State R :=
  mkState (comp st) (inc_unexpectedEntries (met st))
    (out st ++ [(ErrUnexpectedEntry, [AInt (time.UnixNano ts)])])
    (rdr st) (calls st) (clock st) (goroutines st).

Definition entryReceived_state (ts : time.Time) (st : State R) : State R :=
  let l0 := entries (comp st) in
  let st1 := received_loop_state ts l0 0 [] l0 st in
  let st2 :=
    if existsb (hit ts) l0 then st1
    else if existsb (time.Equal ts) (ackdEntries (comp st)) then received_duplicate ts st1
         else received_unexpected ts st1 in
  with_entries (List.filter (nohit ts) l0) st2.

(** The classification of an observed timestamp, from the two buffers. *)
Inductive Class : Type := MatchedOk | OutOfOrder | Duplicate | Unexpected.

Definition classify (ts : time.Time) (c : Comparator) : Class :=
  if existsb (time.Equal ts) (take 1 (entries c)) then MatchedOk
  else if existsb (time.Equal ts) (entries c) then OutOfOrder
       else if existsb (time.Equal ts) (ackdEntries c) then Duplicate
            else Unexpected.

(** *** [confirmMissing] *)

Definition add_missingEntries (n : nat) (m : Metrics) : Metrics :=
  mkMetrics (totalEntries m) (outOfOrderEntries m) (wsMissingEntries m) (missingEntries m + n)
    (spotCheckMissing m) (unexpectedEntries m) (duplicateEntries m) (metricTestDeviation m)
    (responseLatency m).

(** The entries of the batch that the query result does not hold. *)
Definition still_missing (recvd missing : list time.Time) : list time.Time :=
  List.filter (fun m => negb (existsb (time.Equal m) recvd)) missing.

Definition confirmMissing_start (missing : list time.Time) : time.Time :=
  time.Add (default 0 (head missing)) (-10 * time.Second).
Definition confirmMissing_end (missing : list time.Time) : time.Time :=
  time.Add (default 0 (last missing)) (10 * time.Second).

Definition confirmMissing_state (missing : list time.Time) (st : State R) : State R :=
  let start := confirmMissing_start missing in
  let end_ := confirmMissing_end missing in
  let '((recvd, err), r') := Query (rdr st) start end_ in
  match err with
  | Some e =>
      mkState (comp st) (met st) (out st ++ [(ErrQueryLoki, [AString e])]) r'
        (calls st ++ [CallQuery start end_]) (clock st) (goroutines st)
  | None =>
      let still := still_missing recvd missing in
      mkState (comp st) (add_missingEntries (length still) (met st))
        (out st
         ++ map (fun r => (DebugWebsocketMissingEntry, [AInt (time.UnixNano r)])) missing
         ++ map (fun r => (DebugQueryResult, [AInt (time.UnixNano r)])) recvd
         ++ map (fun e => (ErrEntryNotReceived,
                           [AInt (time.UnixNano e); AFloat (time.Seconds (maxWait (comp st)))]))
              still)
        r' (calls st ++ [CallQuery start end_]) (clock st) (goroutines st)
  end.

(** *** [pruneEntries] *)

(** The test of both loops of [pruneEntries], at the clock reading [now]. *)
Definition stale (now : time.Time) (maxWait : time.Duration) (e : time.Time) : bool :=
  time.Before e (time.Add now (time.neg maxWait)).

(** What a loop of [pruneEntries] keeps and what it removes, when the test of
    its first entry makes the [n]-th reading of the clock. *)
Fixpoint prune_fresh (maxWait : time.Duration) (n : nat) (l : list time.Time) :
    list time.Time :=
  match l with
  | [] => []
  | e :: l' =>
      if stale (wall n) maxWait e then prune_fresh maxWait (S n) l'
      else e :: prune_fresh maxWait (S n) l'
  end.
Fixpoint prune_stale (maxWait : time.Duration) (n : nat) (l : list time.Time) :
    list time.Time :=
  match l with
  | [] => []
  | e :: l' =>
      if stale (wall n) maxWait e then e :: prune_stale maxWait (S n) l'
      else prune_stale maxWait (S n) l'
  end.

Definition add_wsMissingEntries (n : nat) (m : Metrics) : Metrics :=
  mkMetrics (totalEntries m) (outOfOrderEntries m) (wsMissingEntries m + n) (missingEntries m)
    (spotCheckMissing m) (unexpectedEntries m) (duplicateEntries m) (metricTestDeviation m)
    (responseLatency m).

(** The state after a reading of the clock, and after the branch of
    [pruneEntries_each] for a stale entry. *)
Definition ticked (st : State R) : State R :=
  mkState (comp st) (met st) (out st) (rdr st) (calls st) (S (clock st)) (goroutines st).
Definition prune_gone (e : time.Time) (st : State R) : State R :=
  mkState (comp st) (inc_wsMissingEntries (met st))
    (out st ++ [(ErrEntryNotReceivedWs,
                 [AInt (time.UnixNano e); AFloat (time.Seconds (maxWait (comp st)))])])
    (rdr st) (calls st) (S (clock st)) (goroutines st).

(** The state after the first loop has gone through [rest], with [kept]
    retained before. *)
Definition prune_loop_state (l0 kept rest : list time.Time) (st : State R) : State R :=
  let mw := maxWait (comp st) in
  let kept' := kept ++ prune_fresh mw (clock st) rest in
  let gone := prune_stale mw (clock st) rest in
  mkState (set_entries (kept' ++ drop (length kept') l0) (comp st))
    (add_wsMissingEntries (length gone) (met st))
    (out st ++ map (fun e => (ErrEntryNotReceivedWs,
                              [AInt (time.UnixNano e); AFloat (time.Seconds mw)])) gone)
    (rdr st) (calls st) (clock st + length rest) (goroutines st).

(** The state after the second loop, over [c.ackdEntries]. *)
Definition prune_ackd_state (l0 kept rest : list time.Time) (st : State R) : State R :=
  let kept' := kept ++ prune_fresh (maxWait (comp st)) (clock st) rest in
  mkState (set_ackdEntries (kept' ++ drop (length kept') l0) (comp st))
    (met st) (out st) (rdr st) (calls st) (clock st + length rest) (goroutines st).

Definition spawn (g : Goroutine) (st : State R) : State R :=
  mkState (comp st) (met st) (out st) (rdr st) (calls st) (clock st) (goroutines st ++ [g]).

(** The state in which the first loop and the cut of [c.entries] end. *)
Definition pruneEntries_evicted (st : State R) : State R :=
  let l0 := entries (comp st) in
  with_entries (prune_fresh (maxWait (comp st)) (clock st) l0) (prune_loop_state l0 [] l0 st).

(** The state after the batch [missing] has been handed to [confirmMissing]. *)
Definition pruneEntries_confirmed (missing : list time.Time) (st : State R) : State R :=
  match missing with
  | [] => st
  | _ :: _ =>
      if confirmAsync (comp st) then spawn (GoConfirmMissing missing) st
      else confirmMissing_state missing st
  end.

Definition pruneEntries_state (st : State R) : State R :=
  let missing := prune_stale (maxWait (comp st)) (clock st) (entries (comp st)) in
  let st2 := pruneEntries_confirmed missing (pruneEntries_evicted st) in
  let l1 := ackdEntries (comp st2) in
  with_ackdEntries (prune_fresh (maxWait (comp st2)) (clock st2) l1)
    (prune_ackd_state l1 [] l1 st2).

(** *** [spotCheckEntries] *)

(** The test of the eviction. *)
Definition expired (currTime : time.Time) (spotCheckMax : time.Duration) (e : time.Time) :
    bool :=
  time.Before e (time.Add currTime (time.neg spotCheckMax)).
Definition unexpired (currTime : time.Time) (spotCheckMax : time.Duration) (e : time.Time) :
    bool :=
  negb (expired currTime spotCheckMax e).

Definition spotCheckEntries_evicted (currTime : time.Time) (st : State R) : State R :=
  with_spotCheck
    (List.filter (unexpired currTime (spotCheckMax (comp st))) (spotCheck (comp st))) st.

(** The state after the query of one spot-check entry and the test of its
    result. *)
Definition verify_queried (sce : time.Time) (r' : R) (st : State R) : State R :=
  let start := time.Add sce (-10 * time.Second) in
  let end_ := time.Add start (10 * time.Second) in
  mkState (comp st) (met st) (out st) r' (calls st ++ [CallQuery start end_]) (clock st)
    (goroutines st).
Definition verify_missing (currTime sce : time.Time) (st : State R) : State R :=
  mkState (comp st) (inc_spotCheckMissing (met st))
    (out st ++ [(ErrSpotCheckEntryNotReceived,
                 [AInt (time.UnixNano sce); ADuration (time.Sub currTime sce)])])
    (rdr st) (calls st) (clock st) (goroutines st).
Definition log_query_error (e : string) (st : State R) : State R :=
  mkState (comp st) (met st) (out st ++ [(ErrQueryLoki, [AString e])]) (rdr st) (calls st)
    (clock st) (goroutines st).

Fixpoint verify_state (currTime : time.Time) (cpy : list time.Time) (st : State R) : State R :=
  match cpy with
  | [] => st
  | sce :: cpy' =>
      let start := time.Add sce (-10 * time.Second) in
      let end_ := time.Add start (10 * time.Second) in
      let '((recvd, err), r') := Query (rdr st) start end_ in
      let st1 := verify_queried sce r' st in
      match err with
      | Some e => log_query_error e st1
      | None =>
          verify_state currTime cpy'
            (if existsb (time.Equal sce) recvd then st1 else verify_missing currTime sce st1)
      end
  end.

Definition spotCheckEntries_state (currTime : time.Time) (st : State R) : State R :=
  let st1 := spotCheckEntries_evicted currTime st in
  let st2 := verify_state currTime (spotCheck (comp st1)) st1 in
  mkState (set_spotCheckRunning false (comp st2)) (met st2) (out st2) (rdr st2) (calls st2)
    (clock st2) (goroutines st2).

(** Consecutive entries are at least [d] apart, by [time.Sub]. *)
Fixpoint spaced (d : time.Duration) (l : list time.Time) : Prop :=
  match l with
  | a :: l' =>
      match l' with
      | b :: _ => d <= time.Sub b a /\ spaced d l'
      | [] => True
      end
  | [] => True
  end.

(** *** [metricTest] *)

Definition metricTest_state (st : State R) : State R :=
  let c := comp st in
  let stopped := set_metricTestRunning false c in
  if decide (metricTestRagenDur c = 0) then
    mkState stopped (met st) (out st ++ [(ErrInvalidMetricTestRange, [])]) (rdr st) (calls st)
      (clock st) (goroutines st)
  else
    let '((actualCount, err), r') := QueryCountOverTime (rdr st) (metricTestRange c) in
    let expectedCount :=
      (time.float64 (time.Milliseconds (metricTestRagenDur c))
       / time.float64 (time.Milliseconds (writeInterval c)))%float in
    mkState stopped
      (set_metricTestDeviation (expectedCount - actualCount)%float (met st))
      (out st ++ match err with
                 | Some e => [(ErrMetricQuery, [AString e])]
                 | None => []
                 end)
      r' (calls st ++ [CallQueryCountOverTime (metricTestRange c)]) (clock st) (goroutines st).

(** *** The loop of [run] *)

Definition run_select_state (ev : Event) (st : State R) : State R :=
  match ev with
  | Recv e => entryReceived_state e st
  | Sent e => entrySent_state e st
  | PruneTick =>
      let st1 := pruneEntries_state st in
      if spotCheckRunning (comp st1) then st1
      else
        mkState (set_spotCheckRunning true (comp st1)) (met st1) (out st1) (rdr st1)
          (calls st1) (S (clock st1))
          (goroutines st1 ++ [GoSpotCheckEntries (wall (clock st1))])
  | MetricTestTick =>
      if metricTestRunning (comp st) then st
      else
        mkState (set_metricTestRunning true (comp st)) (met st) (out st) (rdr st) (calls st)
          (clock st) (goroutines st ++ [GoMetricTest])
  | Quit =>
      mkState (set_done true (comp st)) (met st) (out st) (rdr st) (calls st) (clock st)
        (goroutines st)
  end.

Definition run_goroutine_state (g : Goroutine) (st : State R) : State R :=
  match g with
  | GoConfirmMissing missing => confirmMissing_state missing st
  | GoSpotCheckEntries currTime => spotCheckEntries_state currTime st
  | GoMetricTest => metricTest_state st
  end.

Definition step_state (l : Label) (st : State R) : State R :=
  match l with
  | Loop ev => if done (comp st) then st else run_select_state ev st
  | Run n =>
      match goroutines st !! n with
      | Some g =>
          run_goroutine_state g
            (mkState (comp st) (met st) (out st) (rdr st) (calls st) (clock st)
               (delete n (goroutines st)))
      | None => st
      end
  end.

(** Every started [confirmMissing] has a batch that is not empty. *)
Definition batches_nonempty (st : State R) : Prop :=
  Forall (fun g => match g with
                   | GoConfirmMissing missing => missing <> []
                   | _ => True
                   end) (goroutines st).

(** The states the program reaches from [st0]. *)
Inductive reachable (st0 : State R) : State R -> Prop :=
| reachable_start : reachable st0 st0
| reachable_step (st st' : State R) (l : Label) :
    reachable st0 st -> step l st = Ok (tt, st') -> reachable st0 st'.


(** *** The loop of [run], over the events its [select] receives *)

(** [run]: the loop serves the events in order and returns at [Quit], when
    the deferred function closes [c.done]; at the end of the list the loop
    waits. *)
Fixpoint run (evs : list Event) : Go unit :=
  match evs with
  | [] => mret tt
  | Quit :: _ => run_select Quit
  | ev :: evs' => run_select ev;; run evs'
  end.

(** *** Measures of a state *)

Definition is_metricTest (g : Goroutine) : bool :=
  match g with GoMetricTest => true | _ => false end.
Definition is_spotCheck (g : Goroutine) : bool :=
  match g with GoSpotCheckEntries _ => true | _ => false end.

(** At most one [metricTest] and at most one [spotCheckEntries] are started
    and not finished, and none is while its flag is down. *)
Definition no_overlap (st : State R) : Prop :=
  (length (List.filter is_metricTest (goroutines st))
   <= if metricTestRunning (comp st) then 1 else 0)%nat
  /\ (length (List.filter is_spotCheck (goroutines st))
      <= if spotCheckRunning (comp st) then 1 else 0)%nat.

(** The entries that are pending, that have been matched (each match is one
    observation of the latency) or that have been reported as not received
    over the websocket. *)
Definition accounted (st : State R) : nat :=
  (length (entries (comp st)) + length (responseLatency (met st))
   + wsMissingEntries (met st))%nat.

Definition add_spotCheckMissing (n : nat) (m : Metrics) : Metrics :=
  mkMetrics (totalEntries m) (outOfOrderEntries m) (wsMissingEntries m) (missingEntries m)
    (spotCheckMissing m + n) (unexpectedEntries m) (duplicateEntries m) (metricTestDeviation m)
    (responseLatency m).

(** The fields of the configuration. *)
Definition same_config (c c' : Comparator) : Prop :=
  maxWait c' = maxWait c
  /\ pruneInterval c' = pruneInterval c
  /\ spotCheckInterval c' = spotCheckInterval c
  /\ spotCheckMax c' = spotCheckMax c
  /\ metricTestInterval c' = metricTestInterval c
  /\ metricTestRange c' = metricTestRange c
  /\ metricTestRagenDur c' = metricTestRagenDur c
  /\ writeInterval c' = writeInterval c
  /\ confirmAsync c' = confirmAsync c.

(** ** The operations return

    Each operation returns, in the state given above. *)

(** *** Statements of the monad *)
Lemma bind_eq {A B : Type} (m : Go A) (f : A -> Go B) (st : State R) :
  (m ≫= f) st = match m st with Ok (a, st') => f a st' | Panic msg => Panic msg end.
Proof. reflexivity. Qed.

Ltac run :=
  repeat first
    [ rewrite bind_eq
    | progress cbn [getc setc metric Fprintf Now go when negb comp met out rdr calls clock
                    goroutines mret Go_ret fixed] ].

Lemma index_ok {A : Type} (a : list A) (i : nat) (x : A) (st : State R) :
  a !! i = Some x -> index a i st = Ok (x, st).
Proof. intros H. unfold index. by rewrite H. Qed.

Lemma store_ok {A : Type} (a : list A) (k : nat) (x : A) (st : State R) :
  (k < length a)%nat -> store a k x st = Ok (<[k:=x]> a, st).
Proof. intros H. unfold store. by rewrite decide_True. Qed.

Lemma slice_to_ok {A : Type} (a : list A) (k : nat) (st : State R) :
  (k <= length a)%nat -> slice_to a k st = Ok (take k a, st).
Proof. intros H. unfold slice_to. by rewrite decide_True. Qed.


Lemma range_from_step {A L : Type} (read : L -> Go (list A)) (i n : nat)
    (body : nat -> A -> L -> Go L) (acc : L) (st : State R) (a : list A) (e : A) :
  read acc st = Ok (a, st) ->
  a !! i = Some e ->
  range_from read i (S n) body acc st
  = match body i e acc st with
    | Ok (acc', st') => range_from read (S i) n body acc' st'
    | Panic msg => Panic msg
    end.
Proof.
  intros Hr Hi. cbn [range_from]. rewrite bind_eq, Hr. rewrite bind_eq.
  by rewrite (index_ok _ _ _ _ Hi).
Qed.

Lemma c_entries_eq {L : Type} (acc : L) (st : State R) :
  c_entries acc st = Ok (entries (comp st), st).
Proof. reflexivity. Qed.

Lemma c_ackdEntries_eq {L : Type} (acc : L) (st : State R) :
  c_ackdEntries acc st = Ok (ackdEntries (comp st), st).
Proof. reflexivity. Qed.

Lemma c_spotCheck_eq {L : Type} (acc : L) (st : State R) :
  c_spotCheck acc st = Ok (spotCheck (comp st), st).
Proof. reflexivity. Qed.

(** *** Compaction in place

    While a loop compacts a slice that held [l0], the slice holds the entries
    [kept] so far, followed by the entries of [l0] from [length kept] on. *)

Lemma kept_lookup (l0 kept : list Z) (i : nat) (e : Z) :
  l0 !! i = Some e -> (length kept <= i)%nat ->
  (kept ++ drop (length kept) l0) !! i = Some e.
Proof.
  intros Hi Hk. rewrite lookup_app_r by lia. rewrite lookup_drop.
  replace (length kept + (i - length kept))%nat with i by lia. done.
Qed.

Lemma kept_store (l0 kept : list Z) (i : nat) (e : Z) :
  l0 !! i = Some e -> (length kept <= i)%nat ->
  <[length kept := e]> (kept ++ drop (length kept) l0)
  = (kept ++ [e]) ++ drop (S (length kept)) l0.
Proof.
  intros Hi Hk.
  assert (Hlt : (length kept < length l0)%nat) by (apply lookup_lt_Some in Hi; lia).
  destruct (lookup_lt_is_Some_2 l0 (length kept) Hlt) as [x Hx].
  rewrite (drop_S _ _ _ Hx).
  rewrite insert_app_r_alt by lia. rewrite Nat.sub_diag. simpl.
  by rewrite <- app_assoc.
Qed.

(** *** [entryReceived] *)

Lemma each_hit (ts : time.Time) (i : nat) (e : time.Time) (k : nat) (matched : bool)
    (st : State R) :
  time.Equal ts e = true ->
  entries (comp st) !! i = Some e ->
  entryReceived_each ts i e (k, matched) st = Ok ((k, true), received_hit ts i e st).
Proof.
  intros Heq Hi. unfold entryReceived_each. rewrite Heq.
  assert (Hlen : (i <= length (entries (comp st)))%nat).
  { apply lookup_lt_Some in Hi. lia. }
  unfold received_hit.
  destruct i as [|i]; cbn [Nat.eqb]; run.
  - rewrite (index_ok _ _ _ _ Hi). run. by rewrite app_nil_r.
  - rewrite (slice_to_ok _ _ _ Hlen). run. rewrite (index_ok _ _ _ _ Hi). run. reflexivity.
Qed.

Lemma each_keep (ts : time.Time) (i : nat) (e : time.Time) (k : nat) (matched : bool)
    (st : State R) :
  time.Equal ts e = false ->
  entries (comp st) !! i = Some e ->
  (k <= i)%nat ->
  entryReceived_each ts i e (k, matched) st
  = Ok ((S k, matched), with_entries (<[k:=e]> (entries (comp st))) st).
Proof.
  intros Heq Hi Hk. unfold entryReceived_each. rewrite Heq.
  assert (Hlen : (k < length (entries (comp st)))%nat).
  { apply lookup_lt_Some in Hi. lia. }
  destruct (i =? k)%nat eqn:Hik; run.
  - apply Nat.eqb_eq in Hik. subst k. rewrite list_insert_id by done. reflexivity.
  - rewrite (index_ok _ _ _ _ Hi). run. rewrite (store_ok _ _ _ _ Hlen). run. reflexivity.
Qed.

Lemma received_state_hit (ts : time.Time) (l0 : list time.Time) (i : nat)
    (kept rest : list time.Time) (e : time.Time) (st : State R) :
  time.Equal ts e = true ->
  entries (comp st) = kept ++ drop (length kept) l0 ->
  received_loop_state ts l0 (S i) kept rest (received_hit ts i e st)
  = received_loop_state ts l0 i kept (e :: rest) st.
Proof.
  intros Heq He.
  assert (Hh : hit ts e = true) by exact Heq.
  assert (Hn : nohit ts e = false) by (unfold nohit; by rewrite Heq).
  unfold received_loop_state, received_hit.
  cbn [List.filter received_lines comp met out rdr calls clock goroutines].
  rewrite Heq, Hh, Hn, He.
  unfold set_ackdEntries, set_entries, observe_responseLatency, inc_outOfOrderEntries.
  destruct i as [|i]; cbn -[drop take seq List.filter received_lines time.Seconds time.Sub].
  all: f_equal; try lia.
  all: rewrite <- ?app_assoc, ?app_nil_r; try reflexivity.
  all: f_equal; rewrite ?Nat.sub_0_l, ?drop_0; cbn [Nat.sub drop List.filter];
    rewrite ?Hh, ?drop_0; cbn [length]; lia.
Qed.

Lemma received_state_keep (ts : time.Time) (l0 : list time.Time) (i : nat)
    (kept rest a : list time.Time) (e : time.Time) (st : State R) :
  time.Equal ts e = false ->
  received_loop_state ts l0 (S i) (kept ++ [e]) rest (with_entries a st)
  = received_loop_state ts l0 i kept (e :: rest) st.
Proof.
  intros Heq.
  assert (Hh : hit ts e = false) by exact Heq.
  assert (Hn : nohit ts e = true) by (unfold nohit; by rewrite Heq).
  unfold received_loop_state, with_entries.
  cbn [List.filter received_lines comp met out rdr calls clock goroutines].
  rewrite Heq, Hh, Hn.
  unfold set_ackdEntries, set_entries.
  cbn -[drop take seq List.filter received_lines time.Seconds time.Sub].
  rewrite <- !app_assoc. cbn [app].
  f_equal. f_equal. f_equal. f_equal.
  destruct i; rewrite ?Nat.sub_0_l, ?drop_0; cbn [Nat.sub drop List.filter];
    rewrite ?Hh, ?drop_0; reflexivity.
Qed.

Lemma entryReceived_loop (ts : time.Time) (l0 : list time.Time) :
  forall (rest : list time.Time) (i : nat) (kept : list time.Time) (matched : bool) (st : State R),
    drop i l0 = rest ->
    (length kept <= i)%nat ->
    entries (comp st) = kept ++ drop (length kept) l0 ->
    range_from c_entries i (length rest) (entryReceived_each ts) (length kept, matched) st
    = Ok ((length (kept ++ List.filter (nohit ts) rest), matched || existsb (hit ts) rest),
          received_loop_state ts l0 i kept rest st).
Proof.
  induction rest as [|e rest IH]; intros i kept matched st Hdrop Hk He.
  - simpl. unfold received_loop_state. simpl. rewrite !app_nil_r, orb_false_r.
    rewrite <- He. rewrite !Nat.add_0_r. rewrite drop_nil. simpl. rewrite !Nat.add_0_r.
    reflexivity.
  - assert (Hi : l0 !! i = Some e).
    { rewrite <- (Nat.add_0_r i). rewrite <- lookup_drop. by rewrite Hdrop. }
    assert (Hdrop' : drop (S i) l0 = rest).
    { rewrite (drop_S _ _ _ Hi) in Hdrop. by inversion Hdrop. }
    assert (Hi' : entries (comp st) !! i = Some e).
    { rewrite He. by apply kept_lookup. }
    cbn [length]. rewrite (range_from_step _ _ _ _ _ _ _ _ (c_entries_eq _ _) Hi').
    destruct (time.Equal ts e) eqn:Heq.
    + rewrite (each_hit _ _ _ _ _ _ Heq Hi').
      rewrite (IH (S i) kept true (received_hit ts i e st) Hdrop') by (done || lia).
      rewrite (received_state_hit _ _ _ _ _ _ _ Heq He).
      cbn [List.filter existsb]. unfold hit at 2, nohit at 2. rewrite Heq.
      cbn [negb]. by rewrite orb_true_r.
    + rewrite (each_keep _ _ _ _ _ _ Heq Hi' Hk).
      replace (S (length kept)) with (length (kept ++ [e])) by (rewrite length_app; simpl; lia).
      rewrite (IH (S i) (kept ++ [e]) matched _ Hdrop').
      * rewrite (received_state_keep _ _ _ _ _ _ _ _ Heq).
        cbn [List.filter existsb]. unfold hit at 2, nohit at 2. rewrite Heq.
        cbn [negb orb]. by rewrite <- app_assoc.
      * rewrite length_app. simpl. lia.
      * unfold with_entries. cbn [comp entries set_entries]. rewrite He.
        rewrite length_app. cbn [length]. rewrite Nat.add_1_r.
        by apply (kept_store _ _ i).
Qed.

Lemma entryReceived_ackd_eq (ts : time.Time) (ackd : list time.Time) (st : State R) :
  entryReceived_ackd ts ackd st
  = Ok (existsb (time.Equal ts) ackd,
        if existsb (time.Equal ts) ackd then received_duplicate ts st else st).
Proof.
  induction ackd as [|e ackd IH]; [reflexivity|].
  cbn [entryReceived_ackd existsb]. destruct (time.Equal ts e); [|exact IH].
  run. reflexivity.
Qed.

Lemma take_kept (l0 kept : list time.Time) :
  take (length kept) (kept ++ drop (length kept) l0) = kept.
Proof. by rewrite take_app_length. Qed.

Lemma length_kept (l0 kept : list time.Time) :
  (length kept <= length l0)%nat ->
  length (kept ++ drop (length kept) l0) = length l0.
Proof. intros H. rewrite length_app, length_drop. lia. Qed.

Lemma length_filter_le {A : Type} (f : A -> bool) (l : list A) :
  (length (List.filter f l) <= length l)%nat.
Proof. induction l as [|x l IH]; simpl; [lia|]. destruct (f x); simpl; lia. Qed.

Lemma received_no_hits (ts : time.Time) (l : list time.Time) :
  existsb (hit ts) l = false -> List.filter (hit ts) l = [].
Proof.
  induction l as [|x l IH]; [done|]. cbn [existsb List.filter].
  destruct (hit ts x); [done|]. exact IH.
Qed.

(** [entryReceived] returns, in the state [entryReceived_state]. *)
Lemma entryReceived_eq (ts : time.Time) (st : State R) :
  entryReceived ts st = Ok (tt, entryReceived_state ts st).
Proof.
  unfold entryReceived, range. rewrite bind_eq, bind_eq, c_entries_eq.
  pose proof (entryReceived_loop ts (entries (comp st)) (entries (comp st)) 0 [] false st)
    as Hloop.
  cbn [length app drop] in Hloop. rewrite Hloop by (done || lia). clear Hloop.
  cbn [orb]. unfold entryReceived_state.
  set (l0 := entries (comp st)). set (st1 := received_loop_state ts l0 0 [] l0 st).
  assert (He1 : entries (comp st1)
                = List.filter (nohit ts) l0 ++ drop (length (List.filter (nohit ts) l0)) l0)
    by reflexivity.
  assert (Hle : (length (List.filter (nohit ts) l0) <= length l0)%nat)
    by apply length_filter_le.
  destruct (existsb (hit ts) l0) eqn:Hm; run.
  - rewrite slice_to_ok by (rewrite He1, length_kept; lia). run.
    rewrite He1, take_kept. reflexivity.
  - assert (Ha1 : ackdEntries (comp st1) = ackdEntries (comp st)).
    { unfold st1, received_loop_state. cbn [comp ackdEntries set_ackdEntries].
      rewrite (received_no_hits _ _ Hm). by rewrite app_nil_r. }
    rewrite entryReceived_ackd_eq, Ha1.
    destruct (existsb (time.Equal ts) (ackdEntries (comp st))); run.
    + rewrite slice_to_ok by (cbn [received_duplicate comp]; rewrite He1, length_kept; lia).
      run. cbn [received_duplicate comp]. rewrite He1, take_kept. reflexivity.
    + rewrite slice_to_ok by (rewrite He1, length_kept; lia).
      run. rewrite He1, take_kept. reflexivity.
Qed.

(** [entrySent] returns, in the state [entrySent_state]. *)
(** *** [entrySent] *)

Lemma snoc_cases {A : Type} (l : list A) : l = [] \/ exists l' x, l = l' ++ [x].
Proof. destruct l as [|x l' _] using rev_ind; eauto. Qed.

Lemma entrySent_eq (t : time.Time) (st : State R) :
  entrySent t st = Ok (tt, entrySent_state t st).
Proof.
  unfold entrySent, entrySent_state, sampled. run.
  set (c1 := set_entries (entries (comp st) ++ [t]) (comp st)).
  assert (Hsc : spotCheck c1 = spotCheck (comp st)) by reflexivity.
  assert (Hsi : spotCheckInterval c1 = spotCheckInterval (comp st)) by reflexivity.
  rewrite Hsc, Hsi.
  destruct (snoc_cases (spotCheck (comp st))) as [Hs|(l & x & Hs)]; rewrite Hs.
  - rewrite decide_True by done. run. rewrite Hsc, Hs. reflexivity.
  - rewrite decide_False by (rewrite length_app; simpl; lia). run.
    rewrite (index_ok _ _ x).
    + run. rewrite last_snoc.
      destruct (spotCheckInterval (comp st) <=? time.Sub t x); run; rewrite ?Hsc, ?Hs;
        reflexivity.
    + rewrite length_app. cbn [length]. rewrite Nat.add_sub.
      rewrite lookup_app_r by lia. by rewrite Nat.sub_diag.
Qed.

(** *** Loops over a slice that is not written to *)

Lemma range_from_fixed {A L : Type} (body : A -> L -> Go L) (step : A -> L -> State R -> L * State R)
    (xs : list A) :
  (forall e acc st, body e acc st = Ok (step e acc st)) ->
  forall (rest : list A) (i : nat) (acc : L) (st : State R),
    drop i xs = rest ->
    range_from (fixed xs) i (length rest) (fun _ => body) acc st
    = Ok (foldl (fun p e => step e (fst p) (snd p)) (acc, st) rest).
Proof.
  intros Hbody. induction rest as [|e rest IH]; intros i acc st Hdrop; [reflexivity|].
  assert (Hi : xs !! i = Some e).
  { rewrite <- (Nat.add_0_r i), <- lookup_drop. by rewrite Hdrop. }
  assert (Hdrop' : drop (S i) xs = rest).
  { rewrite (drop_S _ _ _ Hi) in Hdrop. by inversion Hdrop. }
  cbn [length]. rewrite (range_from_step _ _ _ _ _ _ xs e) by done.
  rewrite Hbody. destruct (step e acc st) as [acc' st'] eqn:Hstep.
  rewrite (IH _ _ _ Hdrop'). cbn [foldl fst snd]. by rewrite Hstep.
Qed.

Lemma range_fixed {A L : Type} (body : A -> L -> Go L) (step : A -> L -> State R -> L * State R)
    (xs : list A) (acc : L) (st : State R) :
  (forall e acc st, body e acc st = Ok (step e acc st)) ->
  range (fixed xs) (fun _ => body) acc st
  = Ok (foldl (fun p e => step e (fst p) (snd p)) (acc, st) xs).
Proof.
  intros Hbody. unfold range. rewrite bind_eq. cbn [fixed mret Go_ret].
  by apply range_from_fixed.
Qed.

Lemma range_Fprintf {A : Type} (format : string) (args : A -> list Arg) (xs : list A)
    (st : State R) :
  range (fixed xs) (fun _ r _ => Fprintf format (args r)) tt st
  = Ok (tt, logged (map (fun r => (format, args r)) xs) st).
Proof.
  rewrite (range_fixed _ (fun r _ st => (tt, logged [(format, args r)] st))) by reflexivity.
  f_equal. revert st. induction xs as [|x xs IH]; intros st.
  - cbn [foldl map]. unfold logged. by rewrite app_nil_r.
  - cbn [foldl map fst snd]. rewrite IH. unfold logged. cbn [comp met out rdr calls clock goroutines].
    by rewrite <- app_assoc.
Qed.

Lemma range_found (m : time.Time) (recvd : list time.Time) (st : State R) :
  range (fixed recvd) (fun _ r found => mret (if time.Equal m r then true else found)) false st
  = Ok (existsb (time.Equal m) recvd, st).
Proof.
  rewrite (range_fixed _ (fun r found st => (if time.Equal m r then true else found, st)))
    by reflexivity.
  f_equal.
  assert (H : forall b, foldl (fun (p : bool * State R) e =>
                          (if time.Equal m e then true else fst p, snd p)) (b, st) recvd
                        = (b || existsb (time.Equal m) recvd, st)).
  { induction recvd as [|r recvd IH]; intros b; cbn [foldl existsb fst snd].
    - by rewrite orb_false_r.
    - rewrite IH. destruct (time.Equal m r), b; reflexivity. }
  apply H.
Qed.

(** *** [confirmMissing] *)

Lemma confirmMissing_each_eq (recvd l0 kept : list time.Time) (i : nat) (m : time.Time)
    (st : State R) :
  l0 !! i = Some m ->
  (length kept <= i)%nat ->
  confirmMissing_each recvd i m (kept ++ drop (length kept) l0, length kept) st
  = Ok (let kept' := kept ++ still_missing recvd [m] in
        (kept' ++ drop (length kept') l0, length kept'), st).
Proof.
  intros Hi Hk. unfold confirmMissing_each. rewrite bind_eq, range_found.
  unfold still_missing. cbn [List.filter].
  destruct (existsb (time.Equal m) recvd); cbn [negb].
  - run. by rewrite app_nil_r.
  - assert (Hlen : (length kept < length (kept ++ drop (length kept) l0))%nat).
    { apply lookup_lt_Some in Hi. rewrite length_kept; lia. }
    rewrite length_app. cbn [length]. rewrite Nat.add_1_r.
    destruct (i =? length kept)%nat eqn:Hik; run.
    + apply Nat.eqb_eq in Hik. subst i.
      rewrite <- (kept_store l0 kept (length kept) m) by (done || lia).
      rewrite list_insert_id by (by apply kept_lookup). reflexivity.
    + rewrite (index_ok _ _ m) by (by apply kept_lookup). run.
      rewrite store_ok by done. run.
      by rewrite (kept_store l0 kept i m).
Qed.

Lemma confirmMissing_loop (recvd l0 : list time.Time) :
  forall (rest : list time.Time) (i : nat) (kept : list time.Time) (st : State R),
    drop i l0 = rest ->
    (length kept <= i)%nat ->
    range_from (fun acc : list time.Time * nat => mret (fst acc)) i (length rest)
      (confirmMissing_each recvd) (kept ++ drop (length kept) l0, length kept) st
    = Ok (let kept' := kept ++ still_missing recvd rest in
          (kept' ++ drop (length kept') l0, length kept'), st).
Proof.
  induction rest as [|m rest IH]; intros i kept st Hdrop Hk.
  - cbn [length range_from still_missing List.filter]. by rewrite app_nil_r.
  - assert (Hi : l0 !! i = Some m).
    { rewrite <- (Nat.add_0_r i), <- lookup_drop. by rewrite Hdrop. }
    assert (Hdrop' : drop (S i) l0 = rest).
    { rewrite (drop_S _ _ _ Hi) in Hdrop. by inversion Hdrop. }
    cbn [length].
    rewrite (range_from_step _ _ _ _ _ _ (kept ++ drop (length kept) l0) m)
      by (done || by apply kept_lookup).
    rewrite (confirmMissing_each_eq _ _ _ _ _ _ Hi Hk). cbv zeta.
    rewrite (IH (S i) _ st Hdrop').
    + cbv zeta.
      replace (still_missing recvd (m :: rest))
        with (still_missing recvd [m] ++ still_missing recvd rest)
        by (unfold still_missing; cbn [List.filter]; destruct (negb _); reflexivity).
      rewrite !app_assoc. reflexivity.
    + rewrite length_app. pose proof (length_filter_le
        (fun m => negb (existsb (time.Equal m) recvd)) [m]) as Hf.
      unfold still_missing. cbn [length] in *. lia.
Qed.

Lemma range_missingEntries (mw : time.Duration) (xs : list time.Time) (st : State R) :
  range (fixed xs) (fun _ e _ =>
    metric inc_missingEntries;;
    Fprintf ErrEntryNotReceived [AInt (time.UnixNano e); AFloat (time.Seconds mw)]) tt st
  = Ok (tt, mkState (comp st) (add_missingEntries (length xs) (met st))
              (out st ++ map (fun e => (ErrEntryNotReceived,
                                        [AInt (time.UnixNano e); AFloat (time.Seconds mw)])) xs)
              (rdr st) (calls st) (clock st) (goroutines st)).
Proof.
  rewrite (range_fixed _ (fun e _ st =>
    (tt, mkState (comp st) (inc_missingEntries (met st))
           (out st ++ [(ErrEntryNotReceived,
                        [AInt (time.UnixNano e); AFloat (time.Seconds mw)])])
           (rdr st) (calls st) (clock st) (goroutines st)))) by reflexivity.
  f_equal. revert st. induction xs as [|x xs IH]; intros st.
  - cbn [foldl map length]. unfold add_missingEntries. rewrite app_nil_r, Nat.add_0_r.
    reflexivity.
  - cbn [foldl map fst snd length]. rewrite IH.
    cbn [comp met out rdr calls clock goroutines]. unfold add_missingEntries, inc_missingEntries.
    cbn -[time.Seconds]. rewrite <- app_assoc. cbn [app].
    do 2 f_equal. f_equal. lia.
Qed.

(** On an empty batch [confirmMissing] panics at [missing[0]]. *)
Lemma confirmMissing_nil (st : State R) :
  confirmMissing [] st = Panic "index out of range".
Proof. reflexivity. Qed.

(** On a batch that is not empty [confirmMissing] returns, in the state
    [confirmMissing_state]. *)
Lemma confirmMissing_eq (missing : list time.Time) (st : State R) :
  missing <> [] ->
  confirmMissing missing st = Ok (tt, confirmMissing_state missing st).
Proof.
  intros Hne. unfold confirmMissing, confirmMissing_state, confirmMissing_start,
    confirmMissing_end.
  destruct missing as [|x l]; [done|].
  rewrite bind_eq. rewrite (index_ok _ _ x) by reflexivity.
  destruct (last (x :: l)) as [y|] eqn:Hlast.
  all: cbn [from_option id].
  2: { rewrite last_lookup in Hlast. apply lookup_ge_None in Hlast. cbn [length pred] in Hlast. lia. }
  rewrite bind_eq. rewrite (index_ok _ _ y).
  2: { rewrite last_lookup in Hlast. cbn [length pred] in Hlast.
       cbn [length]. by rewrite Nat.sub_succ, Nat.sub_0_r. }
  rewrite bind_eq. unfold rdr_Query. cbn [head from_option id].
  destruct (Query (rdr st) (time.Add x (-10 * time.Second)) (time.Add y (10 * time.Second)))
    as [[recvd err] r'] eqn:HQ.
  destruct err as [e|].
  - reflexivity.
  - rewrite bind_eq, range_Fprintf. rewrite bind_eq, range_Fprintf.
    rewrite bind_eq. unfold range at 1. rewrite bind_eq. cbn [fst mret Go_ret].
    pose proof (confirmMissing_loop recvd (x :: l) (x :: l) 0 [] 
                  (logged (map (fun r => (DebugQueryResult, [AInt (time.UnixNano r)])) recvd)
                     (logged (map (fun r => (DebugWebsocketMissingEntry, [AInt (time.UnixNano r)]))
                                (x :: l))
                        (mkState (comp st) (met st) (out st) r'
                           (calls st ++ [CallQuery (time.Add x (-10 * time.Second))
                                           (time.Add y (10 * time.Second))])
                           (clock st) (goroutines st)))) eq_refl (Nat.le_refl _)) as Hloop.
    cbn [app length drop] in Hloop. cbn [length]. rewrite Hloop. clear Hloop. cbv zeta.
    rewrite bind_eq, slice_to_ok.
    2: { rewrite length_app. lia. }
    rewrite take_kept. rewrite bind_eq. cbn [getc logged comp].
    rewrite range_missingEntries. unfold logged. cbn [comp met out rdr calls clock goroutines].
    rewrite <- !app_assoc. reflexivity.
Qed.

(** *** [pruneEntries] *)

Lemma pruneEntries_each_stale (i : nat) (e : time.Time) (missing : list time.Time) (k : nat)
    (st : State R) :
  stale (wall (clock st)) (maxWait (comp st)) e = true ->
  pruneEntries_each i e (missing, k) st = Ok ((missing ++ [e], k), prune_gone e st).
Proof.
  intros Hs. unfold pruneEntries_each. run. unfold stale in Hs. rewrite Hs. run.
  reflexivity.
Qed.

Lemma pruneEntries_each_fresh (i : nat) (e : time.Time) (missing : list time.Time) (k : nat)
    (st : State R) :
  stale (wall (clock st)) (maxWait (comp st)) e = false ->
  entries (comp st) !! i = Some e ->
  (k <= i)%nat ->
  pruneEntries_each i e (missing, k) st
  = Ok ((missing, S k), with_entries (<[k:=e]> (entries (comp st))) (ticked st)).
Proof.
  intros Hs Hi Hk. unfold pruneEntries_each. run. unfold stale in Hs. rewrite Hs.
  assert (Hlen : (k < length (entries (comp st)))%nat).
  { apply lookup_lt_Some in Hi. lia. }
  destruct (i =? k)%nat eqn:Hik; run.
  - apply Nat.eqb_eq in Hik. subst k. rewrite list_insert_id by done. reflexivity.
  - rewrite (index_ok _ _ _ _ Hi). run. rewrite store_ok by done. run. reflexivity.
Qed.

Lemma pruneEntries_loop (l0 : list time.Time) :
  forall (rest : list time.Time) (i : nat) (kept missing : list time.Time) (st : State R),
    drop i l0 = rest ->
    (length kept <= i)%nat ->
    entries (comp st) = kept ++ drop (length kept) l0 ->
    range_from c_entries i (length rest) pruneEntries_each (missing, length kept) st
    = Ok ((missing ++ prune_stale (maxWait (comp st)) (clock st) rest,
           length (kept ++ prune_fresh (maxWait (comp st)) (clock st) rest)),
          prune_loop_state l0 kept rest st).
Proof.
  induction rest as [|e rest IH]; intros i kept missing st Hdrop Hk He.
  - cbn [length range_from prune_stale prune_fresh]. unfold prune_loop_state.
    cbn [prune_stale prune_fresh map length]. rewrite !app_nil_r, <- He.
    unfold add_wsMissingEntries. rewrite !Nat.add_0_r. reflexivity.
  - assert (Hi : l0 !! i = Some e).
    { rewrite <- (Nat.add_0_r i), <- lookup_drop. by rewrite Hdrop. }
    assert (Hdrop' : drop (S i) l0 = rest).
    { rewrite (drop_S _ _ _ Hi) in Hdrop. by inversion Hdrop. }
    assert (Hi' : entries (comp st) !! i = Some e).
    { rewrite He. by apply kept_lookup. }
    cbn [length]. rewrite (range_from_step _ _ _ _ _ _ _ _ (c_entries_eq _ _) Hi').
    cbn [prune_stale prune_fresh].
    destruct (stale (wall (clock st)) (maxWait (comp st)) e) eqn:Hs.
    + rewrite (pruneEntries_each_stale _ _ _ _ _ Hs).
      rewrite (IH (S i) kept _ (prune_gone e st) Hdrop') by (done || lia).
      cbn [prune_gone comp clock]. rewrite <- app_assoc. cbn [app].
      do 2 f_equal. unfold prune_loop_state, prune_gone.
      cbn [comp met out rdr calls clock goroutines prune_stale prune_fresh]. rewrite Hs.
      unfold add_wsMissingEntries, inc_wsMissingEntries.
      cbn -[time.Seconds drop].
      f_equal; rewrite <- ?app_assoc; try reflexivity; try lia. f_equal. lia.
    + rewrite (pruneEntries_each_fresh _ _ _ _ _ Hs Hi' Hk).
      replace (S (length kept)) with (length (kept ++ [e])) by (rewrite length_app; simpl; lia).
      rewrite (IH (S i) (kept ++ [e]) missing _ Hdrop').
      * cbn [with_entries ticked comp clock set_entries maxWait]. rewrite <- app_assoc.
        cbn [app]. do 2 f_equal. unfold prune_loop_state, with_entries, ticked.
        cbn [comp met out rdr calls clock goroutines prune_stale prune_fresh set_entries
             maxWait]. rewrite Hs.
        unfold set_entries. cbn -[time.Seconds drop].
        f_equal; rewrite <- ?app_assoc; try reflexivity; lia.
      * rewrite length_app. simpl. lia.
      * unfold with_entries. cbn [comp entries set_entries]. rewrite He.
        rewrite length_app. cbn [length]. rewrite Nat.add_1_r.
        by apply (kept_store _ _ i).
Qed.

Lemma pruneEntries_ackd_each_stale (i : nat) (e : time.Time) (k : nat) (st : State R) :
  stale (wall (clock st)) (maxWait (comp st)) e = true ->
  pruneEntries_ackd_each i e k st = Ok (k, ticked st).
Proof.
  intros Hs. unfold pruneEntries_ackd_each. run. unfold stale in Hs. rewrite Hs. reflexivity.
Qed.

Lemma pruneEntries_ackd_each_fresh (i : nat) (e : time.Time) (k : nat) (st : State R) :
  stale (wall (clock st)) (maxWait (comp st)) e = false ->
  ackdEntries (comp st) !! i = Some e ->
  (k <= i)%nat ->
  pruneEntries_ackd_each i e k st
  = Ok (S k, with_ackdEntries (<[k:=e]> (ackdEntries (comp st))) (ticked st)).
Proof.
  intros Hs Hi Hk. unfold pruneEntries_ackd_each. run. unfold stale in Hs. rewrite Hs.
  assert (Hlen : (k < length (ackdEntries (comp st)))%nat).
  { apply lookup_lt_Some in Hi. lia. }
  destruct (i =? k)%nat eqn:Hik; run.
  - apply Nat.eqb_eq in Hik. subst k. rewrite list_insert_id by done. reflexivity.
  - rewrite (index_ok _ _ _ _ Hi). run. rewrite store_ok by done. run. reflexivity.
Qed.

Lemma pruneEntries_ackd_loop (l0 : list time.Time) :
  forall (rest : list time.Time) (i : nat) (kept : list time.Time) (st : State R),
    drop i l0 = rest ->
    (length kept <= i)%nat ->
    ackdEntries (comp st) = kept ++ drop (length kept) l0 ->
    range_from c_ackdEntries i (length rest) pruneEntries_ackd_each (length kept) st
    = Ok (length (kept ++ prune_fresh (maxWait (comp st)) (clock st) rest),
          prune_ackd_state l0 kept rest st).
Proof.
  induction rest as [|e rest IH]; intros i kept st Hdrop Hk He.
  - cbn [length range_from prune_fresh]. unfold prune_ackd_state.
    cbn [prune_fresh length]. rewrite !app_nil_r, <- He, !Nat.add_0_r. reflexivity.
  - assert (Hi : l0 !! i = Some e).
    { rewrite <- (Nat.add_0_r i), <- lookup_drop. by rewrite Hdrop. }
    assert (Hdrop' : drop (S i) l0 = rest).
    { rewrite (drop_S _ _ _ Hi) in Hdrop. by inversion Hdrop. }
    assert (Hi' : ackdEntries (comp st) !! i = Some e).
    { rewrite He. by apply kept_lookup. }
    cbn [length]. rewrite (range_from_step _ _ _ _ _ _ _ _ (c_ackdEntries_eq _ _) Hi').
    cbn [prune_fresh].
    destruct (stale (wall (clock st)) (maxWait (comp st)) e) eqn:Hs.
    + rewrite (pruneEntries_ackd_each_stale _ _ _ _ Hs).
      rewrite (IH (S i) kept (ticked st) Hdrop') by (done || lia).
      cbn [ticked comp clock]. do 2 f_equal. unfold prune_ackd_state, ticked.
      cbn [comp met out rdr calls clock goroutines prune_fresh]. rewrite Hs.
      f_equal. cbn [length]. lia.
    + rewrite (pruneEntries_ackd_each_fresh _ _ _ _ Hs Hi' Hk).
      replace (S (length kept)) with (length (kept ++ [e])) by (rewrite length_app; simpl; lia).
      rewrite (IH (S i) (kept ++ [e]) _ Hdrop').
      * cbn [with_ackdEntries ticked comp clock set_ackdEntries maxWait].
        rewrite <- app_assoc. cbn [app]. do 2 f_equal.
        unfold prune_ackd_state, with_ackdEntries, ticked.
        cbn [comp met out rdr calls clock goroutines prune_fresh set_ackdEntries maxWait].
        rewrite Hs. unfold set_ackdEntries. cbn -[drop].
        f_equal; rewrite <- ?app_assoc; try reflexivity; cbn [length]; lia.
      * rewrite length_app. simpl. lia.
      * unfold with_ackdEntries. cbn [comp ackdEntries set_ackdEntries]. rewrite He.
        rewrite length_app. cbn [length]. rewrite Nat.add_1_r.
        by apply (kept_store _ _ i).
Qed.

Lemma length_prune_fresh_le (mw : time.Duration) (l : list time.Time) :
  forall n, (length (prune_fresh mw n l) <= length l)%nat.
Proof.
  induction l as [|e l IH]; intros n; cbn [prune_fresh length]; [lia|].
  destruct (stale (wall n) mw e); cbn [length]; specialize (IH (S n)); lia.
Qed.

(** [pruneEntries] returns, in the state [pruneEntries_state]. *)
Lemma pruneEntries_eq (st : State R) :
  pruneEntries st = Ok (tt, pruneEntries_state st).
Proof.
  unfold pruneEntries, range. rewrite bind_eq, bind_eq, c_entries_eq.
  pose proof (pruneEntries_loop (entries (comp st)) (entries (comp st)) 0 [] [] st) as Hloop.
  cbn [length app drop] in Hloop. rewrite Hloop by (done || lia). clear Hloop.
  unfold pruneEntries_state.
  set (l0 := entries (comp st)). set (mw := maxWait (comp st)).
  set (missing := prune_stale mw (clock st) l0).
  assert (Hev : with_entries (prune_fresh mw (clock st) l0) (prune_loop_state l0 [] l0 st)
                = pruneEntries_evicted st) by reflexivity.
  run. rewrite slice_to_ok.
  2: { unfold prune_loop_state. cbn [comp entries set_entries app]. rewrite length_app.
       fold mw. lia. }
  run.
  assert (Hcut : take (length (prune_fresh mw (clock st) l0))
                      (entries (comp (prune_loop_state l0 [] l0 st)))
                 = prune_fresh mw (clock st) l0).
  { unfold prune_loop_state. cbn [comp entries set_entries app]. apply take_kept. }
  rewrite Hcut. clear Hcut.
  change (mkState (set_entries (prune_fresh mw (clock st) l0)
                     (comp (prune_loop_state l0 [] l0 st)))
            (met (prune_loop_state l0 [] l0 st)) (out (prune_loop_state l0 [] l0 st))
            (rdr (prune_loop_state l0 [] l0 st)) (calls (prune_loop_state l0 [] l0 st))
            (clock (prune_loop_state l0 [] l0 st)) (goroutines (prune_loop_state l0 [] l0 st)))
    with (pruneEntries_evicted st).
  set (st1 := pruneEntries_evicted st).
  assert (Hhand : when (0 <? length missing)%nat
                    (c ← getc;
                     if confirmAsync c then go (GoConfirmMissing missing)
                     else confirmMissing missing) st1
                  = Ok (tt, pruneEntries_confirmed missing st1)).
  { unfold pruneEntries_confirmed. destruct missing as [|x l]; [reflexivity|].
    cbn [length Nat.ltb Nat.leb when]. run.
    destruct (confirmAsync (comp st1)); [reflexivity|].
    by apply confirmMissing_eq. }
  rewrite Hhand. clear Hhand.
  set (st2 := pruneEntries_confirmed missing st1).
  rewrite bind_eq, bind_eq, c_ackdEntries_eq.
  pose proof (pruneEntries_ackd_loop (ackdEntries (comp st2)) (ackdEntries (comp st2)) 0 [] st2)
    as Hloop.
  cbn [length app drop] in Hloop. rewrite Hloop by (done || lia). clear Hloop.
  run. rewrite slice_to_ok.
  2: { unfold prune_ackd_state. cbn [comp ackdEntries set_ackdEntries app].
       rewrite length_app. lia. }
  run. unfold prune_ackd_state at 1. cbn [comp ackdEntries set_ackdEntries app].
  rewrite take_kept. reflexivity.
Qed.

(** *** [spotCheckEntries] *)

Lemma spotCheckEntries_each_expired (currTime : time.Time) (i : nat) (e : time.Time) (k : nat)
    (st : State R) :
  expired currTime (spotCheckMax (comp st)) e = true ->
  spotCheckEntries_each currTime i e k st = Ok (k, st).
Proof.
  intros Hs. unfold spotCheckEntries_each. run. unfold expired in Hs. rewrite Hs. reflexivity.
Qed.

Lemma spotCheckEntries_each_kept (currTime : time.Time) (i : nat) (e : time.Time) (k : nat)
    (st : State R) :
  expired currTime (spotCheckMax (comp st)) e = false ->
  spotCheck (comp st) !! i = Some e ->
  (k <= i)%nat ->
  spotCheckEntries_each currTime i e k st
  = Ok (S k, with_spotCheck (<[k:=e]> (spotCheck (comp st))) st).
Proof.
  intros Hs Hi Hk. unfold spotCheckEntries_each. run. unfold expired in Hs. rewrite Hs.
  assert (Hlen : (k < length (spotCheck (comp st)))%nat).
  { apply lookup_lt_Some in Hi. lia. }
  destruct (i =? k)%nat eqn:Hik; run.
  - apply Nat.eqb_eq in Hik. subst k. rewrite list_insert_id by done. reflexivity.
  - rewrite (index_ok _ _ _ _ Hi). run. rewrite store_ok by done. run. reflexivity.
Qed.

Lemma spotCheckEntries_loop (currTime : time.Time) (l0 : list time.Time) :
  forall (rest : list time.Time) (i : nat) (kept : list time.Time) (st : State R),
    drop i l0 = rest ->
    (length kept <= i)%nat ->
    spotCheck (comp st) = kept ++ drop (length kept) l0 ->
    range_from c_spotCheck i (length rest) (spotCheckEntries_each currTime) (length kept) st
    = Ok (let kept' := kept ++ List.filter (unexpired currTime (spotCheckMax (comp st))) rest in
          (length kept', with_spotCheck (kept' ++ drop (length kept') l0) st)).
Proof.
  induction rest as [|e rest IH]; intros i kept st Hdrop Hk He.
  - cbn [length range_from List.filter]. cbv zeta. rewrite !app_nil_r, <- He. reflexivity.
  - assert (Hi : l0 !! i = Some e).
    { rewrite <- (Nat.add_0_r i), <- lookup_drop. by rewrite Hdrop. }
    assert (Hdrop' : drop (S i) l0 = rest).
    { rewrite (drop_S _ _ _ Hi) in Hdrop. by inversion Hdrop. }
    assert (Hi' : spotCheck (comp st) !! i = Some e).
    { rewrite He. by apply kept_lookup. }
    cbn [length]. rewrite (range_from_step _ _ _ _ _ _ _ _ (c_spotCheck_eq _ _) Hi').
    cbn [List.filter].
    assert (Hu : unexpired currTime (spotCheckMax (comp st)) e
                 = negb (expired currTime (spotCheckMax (comp st)) e)) by reflexivity.
    rewrite Hu. clear Hu.
    destruct (expired currTime (spotCheckMax (comp st)) e) eqn:Hs; cbn [negb].
    + rewrite (spotCheckEntries_each_expired _ _ _ _ _ Hs).
      by rewrite (IH (S i) kept st Hdrop') by (done || lia).
    + rewrite (spotCheckEntries_each_kept _ _ _ _ _ Hs Hi' Hk).
      replace (S (length kept)) with (length (kept ++ [e])) by (rewrite length_app; simpl; lia).
      rewrite (IH (S i) (kept ++ [e]) _ Hdrop').
      * cbv zeta. cbn [with_spotCheck comp spotCheckMax set_spotCheck].
        rewrite <- app_assoc. reflexivity.
      * rewrite length_app. simpl. lia.
      * unfold with_spotCheck. cbn [comp spotCheck set_spotCheck]. rewrite He.
        rewrite length_app. cbn [length]. rewrite Nat.add_1_r.
        by apply (kept_store _ _ i).
Qed.

Lemma spotCheckEntries_evict_eq (currTime : time.Time) (st : State R) :
  spotCheckEntries_evict currTime st = Ok (tt, spotCheckEntries_evicted currTime st).
Proof.
  unfold spotCheckEntries_evict, range. rewrite bind_eq, bind_eq, c_spotCheck_eq.
  pose proof (spotCheckEntries_loop currTime (spotCheck (comp st)) (spotCheck (comp st)) 0 [] st)
    as Hloop.
  cbn [length app drop] in Hloop. rewrite Hloop by (done || lia). clear Hloop. cbv zeta.
  run. cbn [with_spotCheck comp spotCheck set_spotCheck].
  rewrite slice_to_ok by (rewrite length_app; lia).
  run. rewrite take_kept. reflexivity.
Qed.

Lemma spotCheckEntries_verify_eq (currTime : time.Time) (cpy : list time.Time) :
  forall st : State R,
    spotCheckEntries_verify currTime cpy st = Ok (tt, verify_state currTime cpy st).
Proof.
  induction cpy as [|sce cpy IH]; intros st; [reflexivity|].
  cbn [spotCheckEntries_verify verify_state]. rewrite bind_eq. unfold rdr_Query.
  destruct (Query (rdr st) (time.Add sce (-10 * time.Second))
              (time.Add (time.Add sce (-10 * time.Second)) (10 * time.Second)))
    as [[recvd err] r'].
  destruct err as [e|]; [reflexivity|].
  rewrite bind_eq. destruct (existsb (time.Equal sce) recvd); run; apply IH.
Qed.

(** [spotCheckEntries] returns, in the state [spotCheckEntries_state]. *)
Lemma spotCheckEntries_eq (currTime : time.Time) (st : State R) :
  spotCheckEntries currTime st = Ok (tt, spotCheckEntries_state currTime st).
Proof.
  unfold spotCheckEntries. rewrite bind_eq, bind_eq, spotCheckEntries_evict_eq. run.
  rewrite spotCheckEntries_verify_eq. reflexivity.
Qed.

(** *** [metricTest] *)

(** [metricTest] returns, in the state [metricTest_state]. *)
Lemma metricTest_eq (st : State R) : metricTest st = Ok (tt, metricTest_state st).
Proof.
  unfold metricTest, metricTest_state. run.
  destruct (decide (metricTestRagenDur (comp st) = 0)); [reflexivity|].
  rewrite bind_eq. unfold rdr_QueryCountOverTime.
  destruct (QueryCountOverTime (rdr st) (metricTestRange (comp st))) as [[actual err] r'].
  destruct err as [e|]; run; [reflexivity|]. by rewrite app_nil_r.
Qed.

(** ** What the operations leave unchanged *)

Lemma entryReceived_comp (ts : time.Time) (st : State R) :
  comp (entryReceived_state ts st)
  = set_entries (List.filter (nohit ts) (entries (comp st)))
      (set_ackdEntries (ackdEntries (comp st) ++ List.filter (hit ts) (entries (comp st)))
         (comp st)).
Proof.
  unfold entryReceived_state.
  destruct (existsb (hit ts) (entries (comp st)));
    [|destruct (existsb (time.Equal ts) (ackdEntries (comp st)))]; reflexivity.
Qed.

Lemma entryReceived_goroutines (ts : time.Time) (st : State R) :
  goroutines (entryReceived_state ts st) = goroutines st.
Proof.
  unfold entryReceived_state.
  destruct (existsb (hit ts) (entries (comp st)));
    [|destruct (existsb (time.Equal ts) (ackdEntries (comp st)))]; reflexivity.
Qed.

Lemma confirmMissing_frame (missing : list time.Time) (st : State R) :
  comp (confirmMissing_state missing st) = comp st
  /\ goroutines (confirmMissing_state missing st) = goroutines st
  /\ clock (confirmMissing_state missing st) = clock st.
Proof.
  unfold confirmMissing_state.
  destruct (Query (rdr st) (confirmMissing_start missing) (confirmMissing_end missing))
    as [[recvd [e|]] r']; done.
Qed.

Lemma verify_frame (currTime : time.Time) (cpy : list time.Time) :
  forall st : State R,
    comp (verify_state currTime cpy st) = comp st
    /\ goroutines (verify_state currTime cpy st) = goroutines st
    /\ clock (verify_state currTime cpy st) = clock st
    /\ metricTestDeviation (met (verify_state currTime cpy st)) = metricTestDeviation (met st).
Proof.
  induction cpy as [|sce cpy IH]; intros st; [done|].
  cbn [verify_state].
  destruct (Query (rdr st) (time.Add sce (-10 * time.Second))
              (time.Add (time.Add sce (-10 * time.Second)) (10 * time.Second)))
    as [[recvd [e|]] r']; [done|].
  destruct (existsb (time.Equal sce) recvd);
    match goal with |- context [verify_state currTime cpy ?s] => destruct (IH s) as (-> & -> & -> & ->) end;
    done.
Qed.

Lemma spotCheckEntries_comp (currTime : time.Time) (st : State R) :
  comp (spotCheckEntries_state currTime st)
  = set_spotCheckRunning false
      (set_spotCheck
         (List.filter (unexpired currTime (spotCheckMax (comp st))) (spotCheck (comp st)))
         (comp st)).
Proof.
  unfold spotCheckEntries_state. cbn [comp].
  by destruct (verify_frame currTime (spotCheck (comp (spotCheckEntries_evicted currTime st)))
                (spotCheckEntries_evicted currTime st)) as (-> & _).
Qed.

Lemma spotCheckEntries_goroutines (currTime : time.Time) (st : State R) :
  goroutines (spotCheckEntries_state currTime st) = goroutines st.
Proof.
  unfold spotCheckEntries_state. cbn [goroutines].
  by destruct (verify_frame currTime (spotCheck (comp (spotCheckEntries_evicted currTime st)))
                (spotCheckEntries_evicted currTime st)) as (_ & -> & _).
Qed.

Lemma metricTest_comp (st : State R) :
  comp (metricTest_state st) = set_metricTestRunning false (comp st).
Proof.
  unfold metricTest_state. destruct (decide (metricTestRagenDur (comp st) = 0)); [done|].
  by destruct (QueryCountOverTime (rdr st) (metricTestRange (comp st))) as [[actual err] r'].
Qed.

Lemma metricTest_goroutines (st : State R) :
  goroutines (metricTest_state st) = goroutines st.
Proof.
  unfold metricTest_state. destruct (decide (metricTestRagenDur (comp st) = 0)); [done|].
  by destruct (QueryCountOverTime (rdr st) (metricTestRange (comp st))) as [[actual err] r'].
Qed.

Lemma pruneEntries_confirmed_comp (missing : list time.Time) (st : State R) :
  comp (pruneEntries_confirmed missing st) = comp st.
Proof.
  unfold pruneEntries_confirmed. destruct missing as [|x l]; [done|].
  destruct (confirmAsync (comp st)); [done|]. apply confirmMissing_frame.
Qed.

Lemma pruneEntries_confirmed_goroutines (missing : list time.Time) (st : State R) :
  goroutines (pruneEntries_confirmed missing st)
  = goroutines st
    ++ (if confirmAsync (comp st)
        then match missing with [] => [] | _ :: _ => [GoConfirmMissing missing] end
        else []).
Proof.
  unfold pruneEntries_confirmed. destruct missing as [|x l].
  - destruct (confirmAsync (comp st)); by rewrite app_nil_r.
  - destruct (confirmAsync (comp st)); [done|]. rewrite app_nil_r. apply confirmMissing_frame.
Qed.

Lemma pruneEntries_confirmed_clock (missing : list time.Time) (st : State R) :
  clock (pruneEntries_confirmed missing st) = clock st.
Proof.
  unfold pruneEntries_confirmed. destruct missing as [|x l]; [done|].
  destruct (confirmAsync (comp st)); [done|]. apply confirmMissing_frame.
Qed.

Lemma pruneEntries_comp (st : State R) :
  comp (pruneEntries_state st)
  = set_ackdEntries
      (prune_fresh (maxWait (comp st)) (clock st + length (entries (comp st)))
         (ackdEntries (comp st)))
      (set_entries (prune_fresh (maxWait (comp st)) (clock st) (entries (comp st))) (comp st)).
Proof.
  unfold pruneEntries_state. cbn [with_ackdEntries prune_ackd_state comp].
  rewrite !pruneEntries_confirmed_comp, pruneEntries_confirmed_clock. reflexivity.
Qed.

Lemma pruneEntries_goroutines (st : State R) :
  goroutines (pruneEntries_state st)
  = goroutines st
    ++ (if confirmAsync (comp st)
        then match prune_stale (maxWait (comp st)) (clock st) (entries (comp st)) with
             | [] => []
             | _ :: _ =>
                 [GoConfirmMissing
                    (prune_stale (maxWait (comp st)) (clock st) (entries (comp st)))]
             end
        else []).
Proof.
  unfold pruneEntries_state. cbn [with_ackdEntries prune_ackd_state goroutines].
  rewrite pruneEntries_confirmed_goroutines. reflexivity.
Qed.

(** ** The loop of [run] and the goroutines *)

Lemma run_select_eq (ev : Event) (st : State R) :
  run_select ev st = Ok (tt, run_select_state ev st).
Proof.
  destruct ev as [e|e| | |]; cbn [run_select run_select_state].
  - apply entryReceived_eq.
  - apply entrySent_eq.
  - rewrite bind_eq, pruneEntries_eq. run.
    destruct (spotCheckRunning (comp (pruneEntries_state st))); run; reflexivity.
  - run. destruct (metricTestRunning (comp st)); run; reflexivity.
  - reflexivity.
Qed.

Lemma run_goroutine_eq (g : Goroutine) (st : State R) :
  match g with GoConfirmMissing missing => missing <> [] | _ => True end ->
  run_goroutine g st = Ok (tt, run_goroutine_state g st).
Proof.
  destruct g as [missing|currTime|]; intros Hg; cbn [run_goroutine run_goroutine_state].
  - by apply confirmMissing_eq.
  - apply spotCheckEntries_eq.
  - apply metricTest_eq.
Qed.

Lemma step_eq (l : Label) (st : State R) :
  batches_nonempty st ->
  step l st = Ok (tt, step_state l st).
Proof.
  intros Hb. destruct l as [ev|n]; cbn [step step_state].
  - run. destruct (done (comp st)); [reflexivity|]. apply run_select_eq.
  - rewrite bind_eq. cbn [take_goroutine].
    destruct (goroutines st !! n) as [g|] eqn:Hg.
    + apply run_goroutine_eq.
      apply (Forall_lookup_1 _ _ _ _ Hb Hg).
    + cbn [mret Go_ret]. apply lookup_ge_None in Hg.
      rewrite delete_take_drop, take_ge, drop_ge, app_nil_r by lia. reflexivity.
Qed.

Lemma run_goroutine_goroutines (g : Goroutine) (st : State R) :
  goroutines (run_goroutine_state g st) = goroutines st.
Proof.
  destruct g; cbn [run_goroutine_state].
  - apply confirmMissing_frame.
  - apply spotCheckEntries_goroutines.
  - apply metricTest_goroutines.
Qed.

Lemma step_batches_nonempty (l : Label) (st : State R) :
  batches_nonempty st -> batches_nonempty (step_state l st).
Proof.
  unfold batches_nonempty. intros Hb. destruct l as [ev|n]; cbn [step_state].
  - destruct (done (comp st)); [done|].
    destruct ev as [e|e| | |]; cbn [run_select_state].
    + by rewrite entryReceived_goroutines.
    + done.
    + assert (Hp : Forall (fun g => match g with
                                    | GoConfirmMissing missing => missing <> []
                                    | _ => True
                                    end) (goroutines (pruneEntries_state st))).
      { rewrite pruneEntries_goroutines. apply Forall_app. split; [done|].
        destruct (confirmAsync (comp st)); [|constructor].
        destruct (prune_stale _ _ _) eqn:Hs; constructor; [discriminate|constructor]. }
      destruct (spotCheckRunning (comp (pruneEntries_state st))); [done|].
      cbn [goroutines]. apply Forall_app. split; [done|]. by constructor.
    + destruct (metricTestRunning (comp st)); [done|].
      cbn [goroutines]. apply Forall_app. split; [done|]. by constructor.
    + done.
  - destruct (goroutines st !! n) as [g|] eqn:Hg; [|done].
    rewrite run_goroutine_goroutines. cbn [goroutines]. by apply Forall_delete.
Qed.

Lemma reachable_batches_nonempty (st0 st : State R) :
  batches_nonempty st0 -> reachable st0 st -> batches_nonempty st.
Proof.
  intros H0 Hr. induction Hr as [|st st' l Hr IH Hstep]; [done|].
  rewrite (step_eq _ _ IH) in Hstep. inversion Hstep. by apply step_batches_nonempty.
Qed.

Lemma step_metricTestRagenDur (l : Label) (st : State R) :
  metricTestRagenDur (comp (step_state l st)) = metricTestRagenDur (comp st).
Proof.
  destruct l as [ev|n]; cbn [step_state].
  - destruct (done (comp st)); [done|].
    destruct ev as [e|e| | |]; cbn [run_select_state].
    + by rewrite entryReceived_comp.
    + unfold entrySent_state. cbn [comp]. by destruct (sampled e (comp st)).
    + destruct (spotCheckRunning (comp (pruneEntries_state st))); cbn [comp];
        by rewrite pruneEntries_comp.
    + by destruct (metricTestRunning (comp st)).
    + done.
  - destruct (goroutines st !! n) as [g|]; [|done].
    destruct g as [missing|currTime|]; cbn [run_goroutine_state].
    + by destruct (confirmMissing_frame missing
                     (mkState (comp st) (met st) (out st) (rdr st) (calls st) (clock st)
                        (delete n (goroutines st)))) as (-> & _).
    + by rewrite spotCheckEntries_comp.
    + by rewrite metricTest_comp.
Qed.

(** ** Properties of [entrySent] and [entryReceived] *)

Lemma hit_true (ts e : time.Time) : hit ts e = true <-> e = ts.
Proof. unfold hit, time.Equal. rewrite Z.eqb_eq. split; congruence. Qed.

Lemma existsb_hit (ts : time.Time) (l : list time.Time) :
  existsb (hit ts) l = true <-> In ts l.
Proof.
  rewrite existsb_exists. split.
  - intros (x & Hin & Hx). apply hit_true in Hx. by subst.
  - intros Hin. exists ts. split; [done|]. by apply hit_true.
Qed.

Lemma existsb_hit_false (ts : time.Time) (l : list time.Time) :
  ~ In ts l -> existsb (hit ts) l = false.
Proof.
  intros Hn. destruct (existsb (hit ts) l) eqn:He; [|done].
  by apply existsb_hit in He.
Qed.

Lemma filter_nohit_id (ts : time.Time) (l : list time.Time) :
  ~ In ts l -> List.filter (nohit ts) l = l.
Proof.
  induction l as [|x l IH]; intros Hn; [done|]. cbn [List.filter].
  assert (Hx : nohit ts x = true).
  { unfold nohit, time.Equal. destruct (ts =? x) eqn:E; [|done].
    apply Z.eqb_eq in E. subst. exfalso. apply Hn. by left. }
  rewrite Hx, IH; [done|]. intros Hin. apply Hn. by right.
Qed.

Lemma filter_nohit_not_In (ts : time.Time) (l : list time.Time) :
  ~ In ts (List.filter (nohit ts) l).
Proof.
  rewrite filter_In. intros [_ Hn]. unfold nohit, time.Equal in Hn.
  by rewrite Z.eqb_refl in Hn.
Qed.

Lemma filter_hit_all (ts : time.Time) (l : list time.Time) :
  List.filter (hit ts) l = repeat ts (length (List.filter (hit ts) l)).
Proof.
  induction l as [|x l IH]; [done|]. cbn [List.filter].
  destruct (hit ts x) eqn:Hx; [|done]. apply hit_true in Hx. subst x.
  cbn [length repeat]. by rewrite <- IH.
Qed.

Lemma entrySent_entries (t : time.Time) (st : State R) :
  entries (comp (entrySent_state t st)) = entries (comp st) ++ [t].
Proof. unfold entrySent_state. cbn [comp]. by destruct (sampled t (comp st)). Qed.

Lemma entrySent_ackdEntries (t : time.Time) (st : State R) :
  ackdEntries (comp (entrySent_state t st)) = ackdEntries (comp st).
Proof. unfold entrySent_state. cbn [comp]. by destruct (sampled t (comp st)). Qed.

Lemma entryReceived_met (ts : time.Time) (st : State R) :
  let l0 := entries (comp st) in
  let matched := existsb (hit ts) l0 in
  let known := existsb (time.Equal ts) (ackdEntries (comp st)) in
  outOfOrderEntries (met (entryReceived_state ts st))
  = (outOfOrderEntries (met st) + length (List.filter (hit ts) (drop 1 l0)))%nat
  /\ duplicateEntries (met (entryReceived_state ts st))
     = (duplicateEntries (met st) + if negb matched && known then 1 else 0)%nat
  /\ unexpectedEntries (met (entryReceived_state ts st))
     = (unexpectedEntries (met st) + if negb matched && negb known then 1 else 0)%nat.
Proof.
  cbv zeta. unfold entryReceived_state.
  destruct (existsb (hit ts) (entries (comp st)));
    [|destruct (existsb (time.Equal ts) (ackdEntries (comp st)))];
    cbn [with_entries received_duplicate received_unexpected received_loop_state met
         outOfOrderEntries duplicateEntries unexpectedEntries inc_duplicateEntries
         inc_unexpectedEntries negb andb Nat.sub]; repeat split; lia.
Qed.

(** C5. A timestamp that is in neither the Pending Buffer nor the
    Acknowledged Buffer: [entryReceived] returns, the unexpected counter has
    gone up by one, the duplicate counter is as it was, and both buffers are
    as they were. *)
Theorem entryReceived_never_sent (ts : time.Time) (st : State R) :
  ~ In ts (entries (comp st)) ->
  ~ In ts (ackdEntries (comp st)) ->
  exists st' : State R,
    entryReceived ts st = Ok (tt, st')
    /\ unexpectedEntries (met st') = S (unexpectedEntries (met st))
    /\ duplicateEntries (met st') = duplicateEntries (met st)
    /\ entries (comp st') = entries (comp st)
    /\ ackdEntries (comp st') = ackdEntries (comp st).
Proof.
  intros Hp Ha. exists (entryReceived_state ts st). split; [apply entryReceived_eq|].
  destruct (entryReceived_met ts st) as (_ & Hd & Hu).
  rewrite Hd, Hu, entryReceived_comp.
  rewrite (existsb_hit_false _ _ Hp).
  change (existsb (time.Equal ts) (ackdEntries (comp st)))
    with (existsb (hit ts) (ackdEntries (comp st))).
  rewrite (existsb_hit_false _ _ Ha). cbn [negb andb set_entries set_ackdEntries entries ackdEntries].
  rewrite (filter_nohit_id _ _ Hp), (received_no_hits _ _ (existsb_hit_false _ _ Hp)), app_nil_r.
  repeat split; lia.
Qed.

(** C3, as amended. When the Pending Buffer holds at most one entry equal
    to the timestamp, [entryReceived] returns and moves exactly the counter
    of the class of the timestamp, by one: none for a match at the head of
    the buffer, out-of-order for a match elsewhere, duplicate for a
    timestamp found only in the Acknowledged Buffer, unexpected
    otherwise. *)
Theorem entryReceived_one_class (ts : time.Time) (st : State R) :
  (length (List.filter (hit ts) (entries (comp st))) <= 1)%nat ->
  exists st' : State R,
    entryReceived ts st = Ok (tt, st')
    /\ outOfOrderEntries (met st')
       = (outOfOrderEntries (met st)
          + match classify ts (comp st) with OutOfOrder => 1 | _ => 0 end)%nat
    /\ duplicateEntries (met st')
       = (duplicateEntries (met st)
          + match classify ts (comp st) with Duplicate => 1 | _ => 0 end)%nat
    /\ unexpectedEntries (met st')
       = (unexpectedEntries (met st)
          + match classify ts (comp st) with Unexpected => 1 | _ => 0 end)%nat.
Proof.
  intros Hone. exists (entryReceived_state ts st). split; [apply entryReceived_eq|].
  destruct (entryReceived_met ts st) as (Ho & Hd & Hu). rewrite Ho, Hd, Hu. clear Ho Hd Hu.
  unfold classify.
  change (existsb (time.Equal ts)) with (existsb (hit ts)).
  destruct (entries (comp st)) as [|x l]; cbn [take drop existsb List.filter length orb negb andb].
  - destruct (existsb (hit ts) (ackdEntries (comp st))); cbn; split_and!; first [reflexivity | lia].
  - rewrite drop_0, take_0. cbn [List.filter existsb orb] in *.
    destruct (hit ts x) eqn:Hx; cbn [orb negb andb].
    + cbn [length] in Hone.
      assert (Hl : length (List.filter (hit ts) l) = 0%nat) by lia.
      rewrite Hl. split_and!; first [reflexivity | lia].
    + destruct (existsb (hit ts) l) eqn:Hl; cbn [negb andb].
      * assert (Hpos : (0 < length (List.filter (hit ts) l))%nat).
        { apply existsb_exists in Hl as (y & Hin & Hy).
          assert (Hf : In y (List.filter (hit ts) l)) by (apply filter_In; done).
          destruct (List.filter (hit ts) l); [done|cbn [length]; lia]. }
        split_and!; first [reflexivity | lia].
      * rewrite (received_no_hits _ _ Hl). cbn [length].
        destruct (existsb (hit ts) (ackdEntries (comp st))); cbn; split_and!; first [reflexivity | lia].
Qed.

(** C4. After [entrySent] of three timestamps [t1 < t2 < t3] on an empty
    Pending Buffer and [entryReceived] of [t2], the out-of-order counter has
    gone up by one and the Pending Buffer is [t1; t3]. *)
Theorem sent_three_received_second (t1 t2 t3 : time.Time) (st : State R) :
  t1 < t2 -> t2 < t3 ->
  entries (comp st) = [] ->
  exists st' : State R,
    (entrySent t1;; entrySent t2;; entrySent t3;; entryReceived t2) st = Ok (tt, st')
    /\ outOfOrderEntries (met st') = S (outOfOrderEntries (met st))
    /\ entries (comp st') = [t1; t3].
Proof.
  intros H12 H23 Hemp.
  set (s1 := entrySent_state t1 st). set (s2 := entrySent_state t2 s1).
  set (s3 := entrySent_state t3 s2).
  exists (entryReceived_state t2 s3). split.
  { rewrite bind_eq, entrySent_eq. rewrite bind_eq, entrySent_eq.
    rewrite bind_eq, entrySent_eq. apply entryReceived_eq. }
  assert (He : entries (comp s3) = [t1; t2; t3]).
  { unfold s3, s2, s1. rewrite !entrySent_entries, Hemp. reflexivity. }
  assert (Hm : outOfOrderEntries (met s3) = outOfOrderEntries (met st)) by reflexivity.
  destruct (entryReceived_met t2 s3) as (Ho & _). rewrite Ho, entryReceived_comp, He, Hm.
  cbn [set_entries entries drop List.filter]. unfold hit, nohit, time.Equal.
  rewrite Z.eqb_refl.
  replace (t2 =? t1) with false by (symmetry; apply Z.eqb_neq; lia).
  replace (t2 =? t3) with false by (symmetry; apply Z.eqb_neq; lia).
  cbn [negb length]. split; [lia|reflexivity].
Qed.

(** C6. A timestamp that is once in the Pending Buffer: the first
    [entryReceived] removes it from the Pending Buffer and appends it to the
    Acknowledged Buffer; a second [entryReceived] moves the duplicate counter
    up by one and leaves the unexpected counter as it was. *)
Theorem received_twice_is_duplicate (t1 : time.Time) (st : State R) :
  length (List.filter (hit t1) (entries (comp st))) = 1%nat ->
  exists st1 st2 : State R,
    entryReceived t1 st = Ok (tt, st1)
    /\ entries (comp st1) = List.filter (nohit t1) (entries (comp st))
    /\ ~ In t1 (entries (comp st1))
    /\ ackdEntries (comp st1) = ackdEntries (comp st) ++ [t1]
    /\ entryReceived t1 st1 = Ok (tt, st2)
    /\ duplicateEntries (met st2) = S (duplicateEntries (met st))
    /\ unexpectedEntries (met st2) = unexpectedEntries (met st).
Proof.
  intros Hone.
  set (st1 := entryReceived_state t1 st).
  exists st1, (entryReceived_state t1 st1).
  assert (Hhits : List.filter (hit t1) (entries (comp st)) = [t1]).
  { rewrite filter_hit_all, Hone. reflexivity. }
  assert (He1 : entries (comp st1) = List.filter (nohit t1) (entries (comp st))).
  { unfold st1. by rewrite entryReceived_comp. }
  assert (Ha1 : ackdEntries (comp st1) = ackdEntries (comp st) ++ [t1]).
  { unfold st1. rewrite entryReceived_comp. cbn [set_entries set_ackdEntries ackdEntries].
    by rewrite Hhits. }
  assert (Hin : existsb (hit t1) (entries (comp st)) = true).
  { apply existsb_hit. apply (filter_In (hit t1)). rewrite Hhits. by left. }
  split; [apply entryReceived_eq|]. split; [exact He1|].
  split; [rewrite He1; apply filter_nohit_not_In|]. split; [exact Ha1|].
  split; [apply entryReceived_eq|].
  destruct (entryReceived_met t1 st) as (_ & Hd & Hu).
  destruct (entryReceived_met t1 st1) as (_ & Hd1 & Hu1).
  rewrite Hd1, Hu1. fold st1 in Hd, Hu. rewrite Hd, Hu, Hin.
  rewrite (existsb_hit_false t1 (entries (comp st1)))
    by (rewrite He1; apply filter_nohit_not_In).
  assert (Hk : existsb (time.Equal t1) (ackdEntries (comp st1)) = true).
  { change (existsb (time.Equal t1)) with (existsb (hit t1)). apply existsb_hit.
    rewrite Ha1. apply in_or_app. right. by left. }
  rewrite Hk. cbn [negb andb]. split; lia.
Qed.

(** ** Properties of the Spot-Check Buffer *)

(** Within the range of [Duration], above its least value, a bound on
    [time.Sub] is a bound on the difference, and [-d] is the opposite. *)
Lemma Sub_le_iff (d : time.Duration) (a b : time.Time) :
  time.minDuration < d <= time.maxDuration ->
  d <= time.Sub b a <-> d <= b - a.
Proof.
  unfold time.Sub, time.minDuration, time.maxDuration. intros Hd.
  repeat match goal with |- context [?x <? ?y] => destruct (Z.ltb_spec x y) end; lia.
Qed.

Lemma neg_opp (d : time.Duration) :
  time.minDuration < d <= time.maxDuration -> time.neg d = - d.
Proof.
  unfold time.neg, time.int64, time.minDuration, time.maxDuration. intros Hd.
  rewrite Z.mod_small; lia.
Qed.

Lemma stale_iff (now : time.Time) (maxWait : time.Duration) (e : time.Time) :
  time.minDuration < maxWait <= time.maxDuration ->
  stale now maxWait e = true <-> e < now - maxWait.
Proof.
  intros Hd. unfold stale, time.Before, time.Add. rewrite (neg_opp _ Hd), Z.ltb_lt. lia.
Qed.

Lemma Sub_mono (a b c : time.Time) : b <= c -> time.Sub b a <= time.Sub c a.
Proof.
  intros H. unfold time.Sub, time.minDuration, time.maxDuration.
  repeat match goal with |- context [?x <? ?y] => destruct (Z.ltb_spec x y) end; lia.
Qed.

Lemma spaced_snoc (d : time.Duration) (l : list time.Time) (x t : time.Time) :
  spaced d (l ++ [x]) -> d <= time.Sub t x -> spaced d ((l ++ [x]) ++ [t]).
Proof.
  induction l as [|a l IH]; intros Hs Ht.
  - cbn [app spaced]. done.
  - cbn [app] in *. destruct l as [|b l].
    + cbn [app spaced] in *. destruct Hs as [Hab _]. done.
    + cbn [app spaced] in *. destruct Hs as [Hab Hs]. split; [done|]. by apply IH.
Qed.

Lemma spaced_filter_head (d : time.Duration) (cutoff a : time.Time) (l : list time.Time) :
  spaced d (a :: l) ->
  match List.filter (fun e => negb (time.Before e cutoff)) l with
  | c :: _ => negb (time.Before a cutoff) = true -> d <= time.Sub c a
  | [] => True
  end.
Proof.
  destruct (List.filter (fun e => negb (time.Before e cutoff)) l) as [|c l'] eqn:Hf; [done|].
  intros Hs Ha.
  assert (Hc : In c l /\ negb (time.Before c cutoff) = true).
  { apply (filter_In (fun e => negb (time.Before e cutoff))). rewrite Hf. by left. }
  destruct Hc as [Hin Hc]. destruct l as [|b l]; [done|].
  cbn [spaced] in Hs. destruct Hs as [Hab _].
  unfold time.Before in *. apply negb_true_iff, Z.ltb_ge in Hc.
  cbn [List.filter] in Hf. unfold time.Before in Hf.
  destruct (b <? cutoff) eqn:Hb; cbn [negb] in Hf.
  - apply Z.ltb_lt in Hb. etrans; [exact Hab|]. apply Sub_mono. lia.
  - inversion Hf. by subst.
Qed.

Lemma spaced_filter (d : time.Duration) (cutoff : time.Time) (l : list time.Time) :
  spaced d l -> spaced d (List.filter (fun e => negb (time.Before e cutoff)) l).
Proof.
  induction l as [|a l IH]; intros Hs; [done|].
  assert (Hl : spaced d l) by (destruct l; [done|apply Hs]).
  pose proof (spaced_filter_head d cutoff a l Hs) as Hh.
  cbn [List.filter]. destruct (negb (time.Before a cutoff)); [|by apply IH].
  specialize (IH Hl).
  destruct (List.filter (fun e => negb (time.Before e cutoff)) l) as [|c l']; [done|].
  cbn [spaced]. split; [by apply Hh|done].
Qed.

Lemma entrySent_spotCheck (t : time.Time) (st : State R) :
  spotCheck (comp (entrySent_state t st))
  = if sampled t (comp st) then spotCheck (comp st) ++ [t] else spotCheck (comp st).
Proof. unfold entrySent_state. cbn [comp]. by destruct (sampled t (comp st)). Qed.

(** C8. When consecutive entries of the Spot-Check Buffer are at least the
    sampling interval apart, they still are after [entrySent], which appends
    the timestamp exactly when the buffer is empty or the timestamp is at
    least the interval past the last entry, and after [spotCheckEntries],
    which keeps exactly the entries that are not older than the maximal
    age. *)
Theorem spotCheck_spacing_preserved (st : State R) :
  spaced (spotCheckInterval (comp st)) (spotCheck (comp st)) ->
  (forall t : time.Time, exists st' : State R,
      entrySent t st = Ok (tt, st')
      /\ spotCheckInterval (comp st') = spotCheckInterval (comp st)
      /\ spotCheck (comp st')
         = match last (spotCheck (comp st)) with
           | None => spotCheck (comp st) ++ [t]
           | Some l =>
               if spotCheckInterval (comp st) <=? time.Sub t l
               then spotCheck (comp st) ++ [t]
               else spotCheck (comp st)
           end
      /\ spaced (spotCheckInterval (comp st')) (spotCheck (comp st')))
  /\ (forall currTime : time.Time, exists st' : State R,
        spotCheckEntries currTime st = Ok (tt, st')
        /\ spotCheckInterval (comp st') = spotCheckInterval (comp st)
        /\ spotCheck (comp st')
           = List.filter (unexpired currTime (spotCheckMax (comp st))) (spotCheck (comp st))
        /\ spaced (spotCheckInterval (comp st')) (spotCheck (comp st'))).
Proof.
  intros Hs. split.
  - intros t. exists (entrySent_state t st). split; [apply entrySent_eq|].
    assert (Hi : spotCheckInterval (comp (entrySent_state t st)) = spotCheckInterval (comp st)).
    { unfold entrySent_state. cbn [comp]. by destruct (sampled t (comp st)). }
    rewrite Hi, entrySent_spotCheck. unfold sampled. split; [done|].
    destruct (snoc_cases (spotCheck (comp st))) as [He|(l & x & He)].
    + rewrite He. cbn [last app spaced]. done.
    + rewrite He in *. rewrite last_snoc. split; [by destruct (_ <=? _)|].
      destruct (spotCheckInterval (comp st) <=? time.Sub t x) eqn:Hle; [|done].
      apply spaced_snoc; [done|]. by apply Z.leb_le.
  - intros currTime. exists (spotCheckEntries_state currTime st).
    split; [apply spotCheckEntries_eq|]. rewrite spotCheckEntries_comp.
    cbn [set_spotCheckRunning set_spotCheck spotCheckInterval spotCheck].
    split; [done|]. split; [done|]. by apply spaced_filter.
Qed.

(** ** Properties of [confirmMissing] and [pruneEntries] *)

Lemma prune_fresh_constant (mw : time.Duration) (now : time.Time) (l : list time.Time) :
  forall n : nat,
    (forall j : nat, (j < length l)%nat -> wall (n + j) = now) ->
    prune_fresh mw n l = List.filter (fun e => negb (stale now mw e)) l
    /\ prune_stale mw n l = List.filter (stale now mw) l.
Proof.
  induction l as [|e l IH]; intros n Hw; [done|].
  cbn [prune_fresh prune_stale List.filter].
  assert (H0 : wall n = now).
  { rewrite <- (Nat.add_0_r n). apply Hw. cbn [length]. lia. }
  destruct (IH (S n)) as [Hf Hg].
  { intros j Hj. rewrite Nat.add_succ_l, <- Nat.add_succ_r. apply Hw. cbn [length]. lia. }
  rewrite H0, Hf, Hg. by destruct (stale now mw e).
Qed.



(** ** Properties of the states the program reaches *)

Lemma reachable_metricTestRagenDur (st0 st : State R) :
  batches_nonempty st0 ->
  reachable st0 st ->
  metricTestRagenDur (comp st) = metricTestRagenDur (comp st0).
Proof.
  intros H0 Hr. induction Hr as [|st st' l Hr IH Hstep]; [done|].
  rewrite (step_eq _ _ (reachable_batches_nonempty _ _ H0 Hr)) in Hstep.
  inversion Hstep. by rewrite step_metricTestRagenDur.
Qed.

Lemma NewComparator_batches_nonempty (writer : list LogLine)
    (maxWait pruneInterval spotCheckInterval spotCheckMax metricTestInterval : time.Duration)
    (metricTestRange : string) (writeInterval : time.Duration) (buckets : Z) (reader0 : R)
    (confirmAsync : bool) (globals : Metrics) (clock0 : nat) :
  batches_nonempty
    (NewComparator writer maxWait pruneInterval spotCheckInterval spotCheckMax
       metricTestInterval metricTestRange writeInterval buckets reader0 confirmAsync globals
       clock0).
Proof.
  unfold NewComparator, batches_nonempty.
  destruct (ParseDuration metricTestRange) as [d [e|]]; constructor.
Qed.

(** C9. When the rate-test window does not parse, [NewComparator] writes its
    warning, and in every state the program reaches from there [metricTest]
    returns after writing the fixed line: it makes no call on the reader and
    leaves the collectors, the gauge among them, as they were.  So does the
    step of the program that runs a started [metricTest]. *)
Theorem metricTest_disabled_by_parse_error (writer : list LogLine)
    (maxWait pruneInterval spotCheckInterval spotCheckMax metricTestInterval : time.Duration)
    (metricTestRange : string) (writeInterval : time.Duration) (buckets : Z) (reader0 : R)
    (confirmAsync : bool) (globals : Metrics) (clock0 : nat) (e : string) (st : State R) :
  let st0 := NewComparator writer maxWait pruneInterval spotCheckInterval spotCheckMax
               metricTestInterval metricTestRange writeInterval buckets reader0 confirmAsync
               globals clock0 in
  snd (ParseDuration metricTestRange) = Some e ->
  reachable st0 st ->
  out st0 = writer ++ [(ErrParseMetricTestRange, [AString e])]
  /\ (exists st' : State R,
         metricTest st = Ok (tt, st')
         /\ out st' = out st ++ [(ErrInvalidMetricTestRange, [])]
         /\ calls st' = calls st
         /\ rdr st' = rdr st
         /\ met st' = met st)
  /\ (forall n : nat,
        goroutines st !! n = Some GoMetricTest ->
        exists st' : State R,
          step (Run n) st = Ok (tt, st')
          /\ out st' = out st ++ [(ErrInvalidMetricTestRange, [])]
          /\ calls st' = calls st
          /\ rdr st' = rdr st
          /\ met st' = met st).
Proof.
  intros st0 Herr Hr.
  assert (H0 : metricTestRagenDur (comp st0) = 0
               /\ out st0 = writer ++ [(ErrParseMetricTestRange, [AString e])]).
  { unfold st0, NewComparator.
    destruct (ParseDuration metricTestRange) as [d err] eqn:Hp. cbn [snd] in Herr. subst err.
    cbn [comp out set_metricTestRagenDur metricTestRagenDur]. split; [|done].
    by apply (ParseDuration_error _ _ _ Hp). }
  destruct H0 as [Hd Ho]. split; [exact Ho|].
  assert (Hb : batches_nonempty st).
  { apply (reachable_batches_nonempty st0); [apply NewComparator_batches_nonempty|done]. }
  assert (Hz : metricTestRagenDur (comp st) = 0).
  { rewrite (reachable_metricTestRagenDur st0 st); [done| |done].
    apply NewComparator_batches_nonempty. }
  split.
  - exists (metricTest_state st). split; [apply metricTest_eq|].
    unfold metricTest_state. rewrite decide_True by done. done.
  - intros n Hn. exists (step_state (Run n) st). split; [by apply step_eq|].
    cbn [step_state]. rewrite Hn. cbn [run_goroutine_state].
    unfold metricTest_state. cbn [comp]. rewrite decide_True by done. done.
Qed.

(** C10. [confirmMissing] reads the first and the last entry of its batch
    and panics on an empty one; on any other batch it returns.
    [pruneEntries], which calls it, always returns, and in every state the
    program reaches from [NewComparator] the batch of every started
    [confirmMissing] is not empty and every step of the program returns. *)
Theorem confirmMissing_never_indexes_empty (writer : list LogLine)
    (maxWait pruneInterval spotCheckInterval spotCheckMax metricTestInterval : time.Duration)
    (metricTestRange : string) (writeInterval : time.Duration) (buckets : Z) (reader0 : R)
    (confirmAsync : bool) (globals : Metrics) (clock0 : nat) (st : State R) :
  reachable
    (NewComparator writer maxWait pruneInterval spotCheckInterval spotCheckMax
       metricTestInterval metricTestRange writeInterval buckets reader0 confirmAsync globals
       clock0) st ->
  (forall s : State R, confirmMissing [] s = Panic "index out of range")
  /\ (forall (missing : list time.Time) (s : State R),
        missing <> [] -> exists s' : State R, confirmMissing missing s = Ok (tt, s'))
  /\ (forall s : State R, exists s' : State R, pruneEntries s = Ok (tt, s'))
  /\ batches_nonempty st
  /\ (forall l : Label, exists st' : State R, step l st = Ok (tt, st')).
Proof.
  intros Hr.
  assert (Hb : batches_nonempty st).
  { apply (reachable_batches_nonempty _ _ (NewComparator_batches_nonempty _ _ _ _ _ _ _ _ _ _ _ _ _) Hr). }
  split; [apply confirmMissing_nil|].
  split; [intros missing s Hne; eexists; by apply confirmMissing_eq|].
  split; [intros s; eexists; apply pruneEntries_eq|].
  split; [exact Hb|].
  intros l. eexists. by apply step_eq.
Qed.

(** ** What [spotCheckEntries] asks and what [metricTest] sets *)

Lemma verify_calls (currTime : time.Time) (cpy : list time.Time) :
  forall st : State R, exists n : nat,
    calls (verify_state currTime cpy st)
    = calls st ++ map (fun ts => CallQuery (time.Add ts (-10 * time.Second)) ts) (take n cpy).
Proof.
  induction cpy as [|sce cpy IH]; intros st.
  - exists 0%nat. cbn [verify_state take map]. by rewrite app_nil_r.
  - cbn [verify_state].
    assert (Hend : time.Add (time.Add sce (-10 * time.Second)) (10 * time.Second) = sce).
    { unfold time.Add, time.Second. lia. }
    destruct (Query (rdr st) (time.Add sce (-10 * time.Second))
                (time.Add (time.Add sce (-10 * time.Second)) (10 * time.Second)))
      as [[recvd [e|]] r'].
    + exists 1%nat. cbn [log_query_error verify_queried calls take map]. by rewrite Hend.
    + match goal with |- context [verify_state currTime cpy ?s] => destruct (IH s) as [n Hn] end.
      exists (S n). rewrite Hn. cbn [take map].
      destruct (existsb (time.Equal sce) recvd);
        cbn [verify_missing verify_queried calls]; rewrite Hend, <- app_assoc; reflexivity.
Qed.

(** One round of the verification loop whose query succeeds: the
    spot-check-missing counter moves, by one, exactly when the result does not
    hold the entry. *)
Lemma spotCheckEntries_verify_counts (currTime sce : time.Time) (cpy recvd : list time.Time)
    (r' : R) (st : State R) :
  Query (rdr st) (time.Add sce (-10 * time.Second)) sce = ((recvd, None), r') ->
  exists st1 : State R,
    spotCheckEntries_verify currTime (sce :: cpy) st = spotCheckEntries_verify currTime cpy st1
    /\ spotCheckMissing (met st1)
       = (spotCheckMissing (met st) + if existsb (time.Equal sce) recvd then 0 else 1)%nat
    /\ rdr st1 = r'.
Proof.
  intros HQ.
  assert (Hend : time.Add (time.Add sce (-10 * time.Second)) (10 * time.Second) = sce).
  { unfold time.Add, time.Second. lia. }
  cbn [spotCheckEntries_verify]. rewrite bind_eq. unfold rdr_Query. rewrite Hend, HQ.
  destruct (existsb (time.Equal sce) recvd); run; eexists; (split; [reflexivity|]);
    cbn [met rdr inc_spotCheckMissing spotCheckMissing]; split; (reflexivity || lia).
Qed.

(** C1, what the code does. [spotCheckEntries] returns; its queries are, in
    the order of the buffer, one for each entry [ts] of a prefix of the
    entries that are not older than the maximal age, and each of them is
    over the range from [ts.Add(-10s)] to [ts]: the end of the range is the
    entry itself, not [ts.Add(10s)]. *)
Theorem spotCheckEntries_query_window (currTime : time.Time) (st : State R) :
  exists (st' : State R) (n : nat),
    spotCheckEntries currTime st = Ok (tt, st')
    /\ calls st'
       = calls st
         ++ map (fun ts => CallQuery (time.Add ts (-10 * time.Second)) ts)
              (take n (List.filter (unexpired currTime (spotCheckMax (comp st)))
                         (spotCheck (comp st)))).
Proof.
  destruct (verify_calls currTime (spotCheck (comp (spotCheckEntries_evicted currTime st)))
              (spotCheckEntries_evicted currTime st)) as [n Hn].
  exists (spotCheckEntries_state currTime st), n. split; [apply spotCheckEntries_eq|].
  unfold spotCheckEntries_state. cbn [calls]. exact Hn.
Qed.

(** C2, what the code does. When the window has parsed to a duration that is
    not zero and the count query returns an error, [metricTest] writes the
    error and then sets the gauge, to the expected count minus the count the
    failed call returned. *)
Theorem metricTest_sets_gauge_on_error (st : State R) (actualCount : float) (e : string)
    (r' : R) :
  metricTestRagenDur (comp st) <> 0 ->
  QueryCountOverTime (rdr st) (metricTestRange (comp st)) = ((actualCount, Some e), r') ->
  exists st' : State R,
    metricTest st = Ok (tt, st')
    /\ out st' = out st ++ [(ErrMetricQuery, [AString e])]
    /\ metricTestDeviation (met st')
       = (time.float64 (time.Milliseconds (metricTestRagenDur (comp st)))
          / time.float64 (time.Milliseconds (writeInterval (comp st)))
          - actualCount)%float.
Proof.
  intros Hd HQ. exists (metricTest_state st). split; [apply metricTest_eq|].
  unfold metricTest_state. rewrite decide_False by done. rewrite HQ. done.
Qed.

(** ** Further properties of the operations *)

(** A step that returns ends in [step_state]. *)
Lemma step_Ok_inv (l : Label) (st st' : State R) :
  step l st = Ok (tt, st') -> st' = step_state l st.
Proof.
  intros Hstep. destruct l as [ev|n]; cbn [step step_state] in *.
  - revert Hstep. run. destruct (done (comp st)).
    + cbn [mret Go_ret]. intros H. by inversion H.
    + rewrite run_select_eq. intros H. by inversion H.
  - revert Hstep. rewrite bind_eq. cbn [take_goroutine].
    destruct (goroutines st !! n) as [g|] eqn:Hg.
    + destruct g as [[|x missing]|currTime|].
      * cbn [run_goroutine]. rewrite confirmMissing_nil. discriminate.
      * rewrite run_goroutine_eq by discriminate. intros H. by inversion H.
      * rewrite run_goroutine_eq by done. intros H. by inversion H.
      * rewrite run_goroutine_eq by done. intros H. by inversion H.
    + cbn [mret Go_ret]. apply lookup_ge_None in Hg.
      rewrite delete_take_drop, take_ge, drop_ge, app_nil_r by lia.
      intros H. by inversion H.
Qed.

(** *** What each operation leaves of the collectors *)

Lemma confirmMissing_met (missing : list time.Time) (st : State R) :
  exists n : nat, met (confirmMissing_state missing st) = add_missingEntries n (met st).
Proof.
  unfold confirmMissing_state.
  destruct (Query (rdr st) (confirmMissing_start missing) (confirmMissing_end missing))
    as [[recvd [e|]] r'].
  - exists 0%nat. cbn [met]. unfold add_missingEntries. by rewrite Nat.add_0_r.
  - eexists. reflexivity.
Qed.

Lemma verify_met (currTime : time.Time) (cpy : list time.Time) :
  forall st : State R, exists n : nat,
    (n <= length cpy)%nat
    /\ met (verify_state currTime cpy st) = add_spotCheckMissing n (met st).
Proof.
  induction cpy as [|sce cpy IH]; intros st.
  - exists 0%nat. split; [done|]. cbn [verify_state]. unfold add_spotCheckMissing.
    by rewrite Nat.add_0_r.
  - cbn [verify_state].
    destruct (Query (rdr st) (time.Add sce (-10 * time.Second))
                (time.Add (time.Add sce (-10 * time.Second)) (10 * time.Second)))
      as [[recvd [e|]] r'].
    + exists 0%nat. split; [lia|]. cbn [log_query_error verify_queried met].
      unfold add_spotCheckMissing. by rewrite Nat.add_0_r.
    + destruct (existsb (time.Equal sce) recvd).
      * destruct (IH (verify_queried sce r' st)) as (n & Hn & Hm).
        exists n. split; [cbn [length]; lia|]. rewrite Hm. reflexivity.
      * destruct (IH (verify_missing currTime sce (verify_queried sce r' st))) as (n & Hn & Hm).
        exists (S n). split; [cbn [length]; lia|]. rewrite Hm.
        cbn [verify_missing verify_queried met]. unfold add_spotCheckMissing, inc_spotCheckMissing.
        cbn [totalEntries outOfOrderEntries wsMissingEntries missingEntries spotCheckMissing
             unexpectedEntries duplicateEntries metricTestDeviation responseLatency].
        f_equal. lia.
Qed.

Lemma spotCheckEntries_met (currTime : time.Time) (st : State R) :
  exists n : nat,
    (n <= length (List.filter (unexpired currTime (spotCheckMax (comp st)))
                    (spotCheck (comp st))))%nat
    /\ met (spotCheckEntries_state currTime st) = add_spotCheckMissing n (met st).
Proof.
  unfold spotCheckEntries_state. cbn [met].
  apply (verify_met currTime _ (spotCheckEntries_evicted currTime st)).
Qed.

Lemma metricTest_met (st : State R) :
  exists v : float, met (metricTest_state st) = set_metricTestDeviation v (met st).
Proof.
  unfold metricTest_state. destruct (decide (metricTestRagenDur (comp st) = 0)).
  - exists (metricTestDeviation (met st)). reflexivity.
  - destruct (QueryCountOverTime (rdr st) (metricTestRange (comp st))) as [[actual err] r'].
    eexists. reflexivity.
Qed.

Lemma length_prune_split (mw : time.Duration) (l : list time.Time) :
  forall n : nat,
    (length (prune_fresh mw n l) + length (prune_stale mw n l))%nat = length l.
Proof.
  induction l as [|e l IH]; intros n; cbn [prune_fresh prune_stale length]; [done|].
  specialize (IH (S n)). destruct (stale (wall n) mw e); cbn [length]; lia.
Qed.

Lemma pruneEntries_met (st : State R) :
  exists n : nat,
    met (pruneEntries_state st)
    = add_missingEntries n
        (add_wsMissingEntries
           (length (prune_stale (maxWait (comp st)) (clock st) (entries (comp st)))) (met st)).
Proof.
  unfold pruneEntries_state. cbn [with_ackdEntries prune_ackd_state met].
  unfold pruneEntries_confirmed.
  destruct (prune_stale (maxWait (comp st)) (clock st) (entries (comp st))) as [|x l] eqn:Hs.
  - exists 0%nat. unfold pruneEntries_evicted. cbn [with_entries prune_loop_state met].
    rewrite Hs. unfold add_missingEntries. cbn [missingEntries add_wsMissingEntries].
    by rewrite Nat.add_0_r.
  - assert (Hm : met (pruneEntries_evicted st)
                 = add_wsMissingEntries (length (x :: l)) (met st)).
    { unfold pruneEntries_evicted. cbn [with_entries prune_loop_state met]. by rewrite Hs. }
    destruct (confirmAsync (comp (pruneEntries_evicted st))).
    + exists 0%nat. cbn [spawn met]. rewrite Hm. unfold add_missingEntries.
      cbn [missingEntries add_wsMissingEntries]. by rewrite Nat.add_0_r.
    + destruct (confirmMissing_met (x :: l) (pruneEntries_evicted st)) as [n Hn].
      exists n. by rewrite Hn, Hm.
Qed.

Lemma length_hit_split (ts : time.Time) (l : list time.Time) :
  (length (List.filter (hit ts) l) + length (List.filter (nohit ts) l))%nat = length l.
Proof.
  induction l as [|e l IH]; [done|]. cbn [List.filter]. unfold hit at 1, nohit at 1.
  destruct (time.Equal ts e); cbn [negb length]; lia.
Qed.

Lemma entryReceived_latency (ts : time.Time) (st : State R) :
  totalEntries (met (entryReceived_state ts st)) = totalEntries (met st)
  /\ wsMissingEntries (met (entryReceived_state ts st)) = wsMissingEntries (met st)
  /\ responseLatency (met (entryReceived_state ts st))
     = responseLatency (met st)
       ++ map (fun j => time.Seconds (time.Sub (wall j) ts))
            (seq (clock st) (length (List.filter (hit ts) (entries (comp st))))).
Proof.
  unfold entryReceived_state.
  destruct (existsb (hit ts) (entries (comp st)));
    [|destruct (existsb (time.Equal ts) (ackdEntries (comp st)))]; done.
Qed.

(** *** [entryReceived] and [Size] *)

Lemma received_lines_no_hits (ts : time.Time) (l0 : list time.Time) (rest : list time.Time) :
  forall (i : nat) (kept : list time.Time),
    ~ In ts rest -> received_lines ts l0 i kept rest = [].
Proof.
  induction rest as [|e rest IH]; intros i kept Hn; [done|]. cbn [received_lines].
  assert (He : time.Equal ts e = false).
  { unfold time.Equal. apply Z.eqb_neq. intros ->. apply Hn. by left. }
  rewrite He. apply IH. intros Hin. apply Hn. by right.
Qed.

Lemma received_lines_skip (ts : time.Time) (l0 : list time.Time) (pre rest : list time.Time) :
  forall (i : nat) (kept : list time.Time),
    ~ In ts pre ->
    received_lines ts l0 i kept (pre ++ rest)
    = received_lines ts l0 (i + length pre) (kept ++ pre) rest.
Proof.
  induction pre as [|e pre IH]; intros i kept Hn.
  - cbn [app length]. by rewrite Nat.add_0_r, app_nil_r.
  - cbn [app received_lines length].
    assert (He : time.Equal ts e = false).
    { unfold time.Equal. apply Z.eqb_neq. intros ->. apply Hn. by left. }
    rewrite He, IH by (intros Hin; apply Hn; by right).
    rewrite <- app_assoc. cbn [app]. f_equal. lia.
Qed.

Lemma entryReceived_out (ts : time.Time) (st : State R) :
  out (entryReceived_state ts st)
  = out st
    ++ received_lines ts (entries (comp st)) 0 [] (entries (comp st))
    ++ (if existsb (hit ts) (entries (comp st)) then []
        else if existsb (time.Equal ts) (ackdEntries (comp st))
             then [(ErrDuplicateEntry, [AInt (time.UnixNano ts)])]
             else [(ErrUnexpectedEntry, [AInt (time.UnixNano ts)])]).
Proof.
  unfold entryReceived_state.
  destruct (existsb (hit ts) (entries (comp st)));
    [|destruct (existsb (time.Equal ts) (ackdEntries (comp st)))];
    cbn [with_entries received_duplicate received_unexpected received_loop_state out];
    by rewrite <- ?app_assoc, ?app_nil_r.
Qed.

Lemma filter_hit_not_In (ts : time.Time) (l : list time.Time) :
  ~ In ts l -> List.filter (hit ts) l = [].
Proof. intros Hn. apply received_no_hits. by apply existsb_hit_false. Qed.

(** X1. [entryReceived] returns whatever the state. It removes from the
    Pending Buffer every entry equal to the timestamp and keeps the others in
    their order, appends every removed entry to the Acknowledged Buffer,
    counts one out-of-order entry for each match that is not at index 0 and
    observes the latency once for each match, reading the clock each
    time. *)
Theorem entryReceived_removes_every_match (ts : time.Time) (st : State R) :
  exists st' : State R,
    entryReceived ts st = Ok (tt, st')
    /\ entries (comp st') = List.filter (fun e => negb (time.Equal ts e)) (entries (comp st))
    /\ ackdEntries (comp st')
       = ackdEntries (comp st) ++ List.filter (time.Equal ts) (entries (comp st))
    /\ outOfOrderEntries (met st')
       = (outOfOrderEntries (met st)
          + length (List.filter (time.Equal ts) (drop 1 (entries (comp st)))))%nat
    /\ length (responseLatency (met st'))
       = (length (responseLatency (met st))
          + length (List.filter (time.Equal ts) (entries (comp st))))%nat
    /\ clock st' = (clock st + length (List.filter (time.Equal ts) (entries (comp st))))%nat
    /\ same_config (comp st) (comp st').
Proof.
  exists (entryReceived_state ts st). split; [apply entryReceived_eq|].
  destruct (entryReceived_met ts st) as (Ho & _).
  destruct (entryReceived_latency ts st) as (_ & _ & Hl).
  rewrite Ho, Hl, entryReceived_comp, length_app, length_map, length_seq.
  split_and!; try done.
  unfold entryReceived_state.
  destruct (existsb (hit ts) (entries (comp st)));
    [|destruct (existsb (time.Equal ts) (ackdEntries (comp st)))]; done.
Qed.

(** X2. A timestamp that is not in the Pending Buffer and is in the
    Acknowledged Buffer: [entryReceived] counts one duplicate, writes the
    duplicate line and nothing else, and leaves the two buffers and the
    out-of-order and unexpected counters as they were. *)
Theorem entryReceived_acknowledged_again (ts : time.Time) (st : State R) :
  ~ In ts (entries (comp st)) ->
  In ts (ackdEntries (comp st)) ->
  exists st' : State R,
    entryReceived ts st = Ok (tt, st')
    /\ duplicateEntries (met st') = S (duplicateEntries (met st))
    /\ unexpectedEntries (met st') = unexpectedEntries (met st)
    /\ outOfOrderEntries (met st') = outOfOrderEntries (met st)
    /\ out st' = out st ++ [(ErrDuplicateEntry, [AInt (time.UnixNano ts)])]
    /\ entries (comp st') = entries (comp st)
    /\ ackdEntries (comp st') = ackdEntries (comp st).
Proof.
  intros Hp Ha. exists (entryReceived_state ts st). split; [apply entryReceived_eq|].
  destruct (entryReceived_met ts st) as (Ho & Hd & Hu).
  assert (Hk : existsb (time.Equal ts) (ackdEntries (comp st)) = true).
  { change (existsb (time.Equal ts)) with (existsb (hit ts)). by apply existsb_hit. }
  rewrite Ho, Hd, Hu, entryReceived_out, entryReceived_comp.
  rewrite (existsb_hit_false _ _ Hp), Hk.
  rewrite (received_lines_no_hits _ _ _ _ _ Hp).
  cbn [negb andb set_entries set_ackdEntries entries ackdEntries app].
  rewrite (filter_nohit_id _ _ Hp), (filter_hit_not_In _ _ Hp), app_nil_r.
  assert (Hdrop : List.filter (hit ts) (drop 1 (entries (comp st))) = []).
  { apply filter_hit_not_In. intros Hin. apply Hp.
    apply list_elem_of_In. apply list_elem_of_In in Hin.
    by apply (subseteq_drop 1 (entries (comp st))). }
  rewrite Hdrop. cbn [length]. split_and!; first [reflexivity | lia].
Qed.

(** X3. A timestamp that is once in the Pending Buffer, after the entries
    [pre], which are not none: [entryReceived] counts one out-of-order entry
    and writes one line, which names the timestamp and lists exactly [pre],
    the entries sent before it that are still pending; the timestamp leaves
    the Pending Buffer for the Acknowledged Buffer. *)
Theorem entryReceived_out_of_order_line (ts : time.Time) (pre post : list time.Time)
    (st : State R) :
  entries (comp st) = pre ++ ts :: post ->
  pre <> [] ->
  ~ In ts pre ->
  ~ In ts post ->
  exists st' : State R,
    entryReceived ts st = Ok (tt, st')
    /\ outOfOrderEntries (met st') = S (outOfOrderEntries (met st))
    /\ out st' = out st ++ [(ErrOutOfOrderEntry, [ATime ts; ATimes pre])]
    /\ entries (comp st') = pre ++ post
    /\ ackdEntries (comp st') = ackdEntries (comp st) ++ [ts].
Proof.
  intros He Hne Hpre Hpost. exists (entryReceived_state ts st).
  split; [apply entryReceived_eq|].
  destruct (entryReceived_met ts st) as (Ho & _).
  assert (Hts : hit ts ts = true) by (by apply hit_true).
  assert (Hnts : nohit ts ts = false) by (unfold nohit; fold (hit ts ts); by rewrite Hts).
  assert (Hin : existsb (hit ts) (pre ++ ts :: post) = true).
  { apply existsb_hit. apply in_or_app. right. by left. }
  rewrite Ho, entryReceived_out, entryReceived_comp, He, Hin.
  cbn [set_entries set_ackdEntries entries ackdEntries].
  rewrite !List.filter_app. cbn [List.filter]. rewrite Hts, Hnts.
  rewrite (filter_nohit_id _ _ Hpre), (filter_nohit_id _ _ Hpost).
  rewrite (filter_hit_not_In _ _ Hpre), (filter_hit_not_In _ _ Hpost).
  rewrite (received_lines_skip _ _ _ _ _ _ Hpre). cbn [received_lines app length Nat.add].
  assert (Hee : time.Equal ts ts = true) by exact Hts. rewrite Hee.
  rewrite (received_lines_no_hits _ _ _ _ _ Hpost), app_nil_r.
  destruct pre as [|p pre]; [done|].
  cbn [length Nat.eqb app drop]. rewrite drop_0.
  rewrite List.filter_app. cbn [List.filter]. rewrite Hts.
  assert (Hpre' : ~ In ts pre) by (intros Hin'; apply Hpre; by right).
  rewrite (filter_hit_not_In _ _ Hpre'), (filter_hit_not_In _ _ Hpost).
  cbn [app length]. split; [lia|]. split; [|done].
  do 4 f_equal.
  change (S (length pre)) with (length (p :: pre)).
  do 2 f_equal. apply (take_app_length (p :: pre)).
Qed.

(** X4. [Size] returns the length of the Pending Buffer and leaves the
    state as it is; read after [entrySent] it is one more, and read after
    [entryReceived] it is less by the number of entries equal to the
    timestamp. *)
Theorem Size_follows_pending (t ts : time.Time) (st : State R) :
  Size st = Ok (length (entries (comp st)), st)
  /\ (exists st1 : State R,
         (entrySent t;; Size) st = Ok (S (length (entries (comp st))), st1))
  /\ (exists st2 : State R,
         (entryReceived ts;; Size) st
         = Ok ((length (entries (comp st))
                - length (List.filter (time.Equal ts) (entries (comp st))))%nat, st2)).
Proof.
  split; [reflexivity|]. split.
  - exists (entrySent_state t st). rewrite bind_eq, entrySent_eq. unfold Size. run.
    rewrite entrySent_entries, length_app. cbn [length]. by rewrite Nat.add_1_r.
  - exists (entryReceived_state ts st). rewrite bind_eq, entryReceived_eq. unfold Size. run.
    rewrite entryReceived_comp. cbn [set_entries entries].
    pose proof (length_hit_split ts (entries (comp st))) as Hs.
    change (List.filter (time.Equal ts)) with (List.filter (hit ts)).
    unfold mret, Go_ret. do 2 f_equal. lia.
Qed.

(** *** Entries received in the order they were sent *)

Lemma run_cons (ev : Event) (evs : list Event) (st : State R) :
  ev <> Quit -> run (ev :: evs) st = run evs (run_select_state ev st).
Proof.
  intros Hq. destruct ev; try done; cbn [run]; by rewrite bind_eq, run_select_eq.
Qed.

Lemma run_Sent (l : list time.Time) (evs : list Event) :
  forall st : State R, exists st1 : State R,
    run (map Sent l ++ evs) st = run evs st1
    /\ entries (comp st1) = entries (comp st) ++ l
    /\ ackdEntries (comp st1) = ackdEntries (comp st)
    /\ totalEntries (met st1) = (totalEntries (met st) + length l)%nat
    /\ outOfOrderEntries (met st1) = outOfOrderEntries (met st)
    /\ duplicateEntries (met st1) = duplicateEntries (met st)
    /\ unexpectedEntries (met st1) = unexpectedEntries (met st)
    /\ responseLatency (met st1) = responseLatency (met st).
Proof.
  induction l as [|t l IH]; intros st.
  - exists st. cbn [map app length]. rewrite app_nil_r, Nat.add_0_r. done.
  - destruct (IH (entrySent_state t st)) as (st1 & Hr & He & Ha & Ht & Ho & Hd & Hu & Hl).
    exists st1. cbn [map app]. rewrite run_cons by done. cbn [run_select_state].
    rewrite Hr, He, Ha, Ht, Ho, Hd, Hu, Hl, entrySent_entries, entrySent_ackdEntries.
    rewrite <- app_assoc. cbn [app length entrySent_state met inc_totalEntries totalEntries].
    split_and!; first [reflexivity | lia].
Qed.

Lemma run_Recv_in_order (l : list time.Time) (evs : list Event) :
  forall st : State R,
    NoDup l ->
    entries (comp st) = l ->
    exists st1 : State R,
      run (map Recv l ++ evs) st = run evs st1
      /\ entries (comp st1) = []
      /\ ackdEntries (comp st1) = ackdEntries (comp st) ++ l
      /\ totalEntries (met st1) = totalEntries (met st)
      /\ outOfOrderEntries (met st1) = outOfOrderEntries (met st)
      /\ duplicateEntries (met st1) = duplicateEntries (met st)
      /\ unexpectedEntries (met st1) = unexpectedEntries (met st)
      /\ length (responseLatency (met st1))
         = (length (responseLatency (met st)) + length l)%nat.
Proof.
  induction l as [|t l IH]; intros st Hnd He.
  - exists st. cbn [map app length]. rewrite app_nil_r, Nat.add_0_r. done.
  - apply NoDup_cons in Hnd as [Hnin Hnd]. rewrite list_elem_of_In in Hnin.
    assert (Hts : hit t t = true) by (by apply hit_true).
    assert (Hnts : nohit t t = false) by (unfold nohit; fold (hit t t); by rewrite Hts).
    assert (He1 : entries (comp (entryReceived_state t st)) = l).
    { rewrite entryReceived_comp, He. cbn [set_entries entries List.filter].
      rewrite Hnts. by apply filter_nohit_id. }
    assert (Ha1 : ackdEntries (comp (entryReceived_state t st)) = ackdEntries (comp st) ++ [t]).
    { rewrite entryReceived_comp, He. cbn [set_entries set_ackdEntries ackdEntries List.filter].
      rewrite Hts. by rewrite (filter_hit_not_In _ _ Hnin). }
    destruct (entryReceived_met t st) as (Ho1 & Hd1 & Hu1).
    destruct (entryReceived_latency t st) as (Ht1 & _ & Hl1).
    rewrite He in Ho1, Hd1, Hu1, Hl1. cbn [drop existsb List.filter] in Ho1, Hd1, Hu1, Hl1.
    rewrite drop_0 in Ho1. rewrite Hts in Hd1, Hu1, Hl1.
    rewrite (filter_hit_not_In _ _ Hnin) in Ho1, Hl1.
    cbn [orb negb andb length seq map] in Ho1, Hd1, Hu1, Hl1.
    destruct (IH (entryReceived_state t st) Hnd He1)
      as (st1 & Hr & He' & Ha & Ht & Ho & Hd & Hu & Hl).
    exists st1. cbn [map app]. rewrite run_cons by done. cbn [run_select_state].
    rewrite Hr, He', Ha, Ht, Ho, Hd, Hu, Hl, Ha1, Ht1, Ho1, Hd1, Hu1, Hl1.
    rewrite <- app_assoc, length_app. cbn [app length].
    split_and!; first [reflexivity | lia].
Qed.

(** X5. Entries received in the order they were sent: when the loop of
    [run] serves [entrySent] for each timestamp of a list without repetition,
    on an empty Pending Buffer, and then [entryReceived] for each of them in
    the same order, it returns with the Pending Buffer empty and the
    timestamps in the Acknowledged Buffer; every entry has been counted as
    written and observed once, and the out-of-order, duplicate and unexpected
    counters are as they were. *)
Theorem in_order_delivery (l : list time.Time) (st : State R) :
  NoDup l ->
  entries (comp st) = [] ->
  exists st' : State R,
    run (map Sent l ++ map Recv l) st = Ok (tt, st')
    /\ entries (comp st') = []
    /\ ackdEntries (comp st') = ackdEntries (comp st) ++ l
    /\ totalEntries (met st') = (totalEntries (met st) + length l)%nat
    /\ length (responseLatency (met st'))
       = (length (responseLatency (met st)) + length l)%nat
    /\ outOfOrderEntries (met st') = outOfOrderEntries (met st)
    /\ duplicateEntries (met st') = duplicateEntries (met st)
    /\ unexpectedEntries (met st') = unexpectedEntries (met st).
Proof.
  intros Hnd Hemp.
  destruct (run_Sent l (map Recv l) st) as (st1 & Hr1 & He1 & Ha1 & Ht1 & Ho1 & Hd1 & Hu1 & Hl1).
  rewrite Hemp in He1. cbn [app] in He1.
  destruct (run_Recv_in_order l [] st1 Hnd He1)
    as (st2 & Hr2 & He2 & Ha2 & Ht2 & Ho2 & Hd2 & Hu2 & Hl2).
  rewrite app_nil_r in Hr2.
  exists st2. rewrite Hr1, Hr2, He2, Ha2, Ht2, Ho2, Hd2, Hu2, Hl2, Ha1, Ht1, Ho1, Hd1, Hu1, Hl1.
  split_and!; reflexivity.
Qed.

(** *** [pruneEntries] *)

Lemma prune_split_Permutation (mw : time.Duration) (l : list time.Time) :
  forall n : nat, prune_fresh mw n l ++ prune_stale mw n l ≡ₚ l.
Proof.
  induction l as [|e l IH]; intros n; cbn [prune_fresh prune_stale]; [done|].
  destruct (stale (wall n) mw e).
  - rewrite <- Permutation_middle. by constructor.
  - cbn [app]. by constructor.
Qed.

Lemma prune_split_sublist (mw : time.Duration) (l : list time.Time) :
  forall n : nat, prune_fresh mw n l `sublist_of` l /\ prune_stale mw n l `sublist_of` l.
Proof.
  induction l as [|e l IH]; intros n; cbn [prune_fresh prune_stale]; [done|].
  destruct (IH (S n)) as [Hf Hs].
  destruct (stale (wall n) mw e); split; by constructor.
Qed.

Lemma pruneEntries_gone_nil (st : State R) :
  prune_stale (maxWait (comp st)) (clock st) (entries (comp st)) = [] ->
  met (pruneEntries_state st) = met st
  /\ out (pruneEntries_state st) = out st
  /\ calls (pruneEntries_state st) = calls st
  /\ rdr (pruneEntries_state st) = rdr st
  /\ goroutines (pruneEntries_state st) = goroutines st.
Proof.
  intros Hs. unfold pruneEntries_state. rewrite Hs.
  cbn [pruneEntries_confirmed with_ackdEntries prune_ackd_state met out calls rdr goroutines].
  unfold pruneEntries_evicted.
  cbn [with_entries prune_loop_state met out calls rdr goroutines]. rewrite Hs.
  cbn [length map]. unfold add_wsMissingEntries. rewrite Nat.add_0_r, app_nil_r. done.
Qed.

(** X6. A prune tick, whatever the clock reads: [pruneEntries] returns, and
    it splits the Pending Buffer in two, the entries it keeps and the entries
    [gone] it removes, each in the order it had; it counts one
    websocket-missing entry for each removed one.  With [confirmAsync] it
    starts one [confirmMissing] on [gone] when [gone] is not empty and
    nothing otherwise, and without [confirmAsync] it starts nothing; when
    nothing is removed it makes no query. *)
Theorem pruneEntries_splits_pending (st : State R) :
  exists (st' : State R) (gone : list time.Time),
    pruneEntries st = Ok (tt, st')
    /\ entries (comp st') `sublist_of` entries (comp st)
    /\ gone `sublist_of` entries (comp st)
    /\ entries (comp st') ++ gone ≡ₚ entries (comp st)
    /\ wsMissingEntries (met st') = (wsMissingEntries (met st) + length gone)%nat
    /\ goroutines st'
       = goroutines st
         ++ (if confirmAsync (comp st)
             then match gone with [] => [] | _ :: _ => [GoConfirmMissing gone] end
             else [])
    /\ (gone = [] -> calls st' = calls st /\ missingEntries (met st') = missingEntries (met st)).
Proof.
  exists (pruneEntries_state st),
    (prune_stale (maxWait (comp st)) (clock st) (entries (comp st))).
  split; [apply pruneEntries_eq|].
  destruct (prune_split_sublist (maxWait (comp st)) (entries (comp st)) (clock st)) as [Hf Hs].
  rewrite pruneEntries_comp. cbn [set_ackdEntries set_entries entries].
  split; [exact Hf|]. split; [exact Hs|]. split; [apply prune_split_Permutation|].
  split.
  { destruct (pruneEntries_met st) as [n ->]. reflexivity. }
  split; [apply pruneEntries_goroutines|].
  intros Hnil. destruct (pruneEntries_gone_nil st Hnil) as (Hm & _ & Hc & _). by rewrite Hm, Hc.
Qed.

Lemma stale_leb (now : time.Time) (mw : time.Duration) (e : time.Time) :
  time.minDuration < mw <= time.maxDuration ->
  negb (stale now mw e) = (now - mw <=? e).
Proof.
  intros Hd. unfold stale, time.Before, time.Add. rewrite (neg_opp _ Hd).
  rewrite Z.leb_antisym. reflexivity.
Qed.

Lemma filter_fresh_leb (now : time.Time) (mw : time.Duration) (l : list time.Time) :
  time.minDuration < mw <= time.maxDuration ->
  List.filter (fun e => negb (stale now mw e)) l = List.filter (fun e => now - mw <=? e) l.
Proof. intros Hd. apply List.filter_ext. intros e. by apply stale_leb. Qed.

(** X7. A prune tick during which the clock reads [now], with [maxWait]
    above the least [Duration]: [pruneEntries] keeps in the Pending Buffer
    and in the Acknowledged Buffer exactly the entries [e] with
    [now - maxWait <= e], in their order; an entry that is exactly
    [maxWait] old is kept. *)
Theorem pruneEntries_keeps_recent (st : State R) (now : time.Time) :
  time.minDuration < maxWait (comp st) <= time.maxDuration ->
  (forall j : nat,
      (j < length (entries (comp st)) + length (ackdEntries (comp st)))%nat ->
      wall (clock st + j) = now) ->
  exists st' : State R,
    pruneEntries st = Ok (tt, st')
    /\ entries (comp st')
       = List.filter (fun e => now - maxWait (comp st) <=? e) (entries (comp st))
    /\ ackdEntries (comp st')
       = List.filter (fun e => now - maxWait (comp st) <=? e) (ackdEntries (comp st)).
Proof.
  intros Hd Hclock. exists (pruneEntries_state st). split; [apply pruneEntries_eq|].
  rewrite pruneEntries_comp. cbn [set_ackdEntries set_entries entries ackdEntries].
  destruct (prune_fresh_constant (maxWait (comp st)) now (entries (comp st)) (clock st))
    as [Hf _].
  { intros j Hj. apply Hclock. lia. }
  destruct (prune_fresh_constant (maxWait (comp st)) now (ackdEntries (comp st))
              (clock st + length (entries (comp st)))) as [Ha _].
  { intros j Hj. rewrite <- Nat.add_assoc. apply Hclock. lia. }
  rewrite Hf, Ha, !(filter_fresh_leb _ _ _ Hd). done.
Qed.

Lemma prune_nothing_stale (mw : time.Duration) (l : list time.Time) :
  forall n : nat,
    (forall (j : nat) (e : time.Time), l !! j = Some e -> stale (wall (n + j)) mw e = false) ->
    prune_stale mw n l = [] /\ prune_fresh mw n l = l.
Proof.
  induction l as [|e l IH]; intros n Hs; [done|]. cbn [prune_stale prune_fresh].
  assert (H0 : stale (wall n) mw e = false).
  { rewrite <- (Nat.add_0_r n). by apply Hs. }
  rewrite H0. destruct (IH (S n)) as [-> ->]; [|done].
  intros j x Hj. rewrite Nat.add_succ_l, <- Nat.add_succ_r. by apply Hs.
Qed.

(** X8. A prune tick on which no entry of the Pending Buffer is stale at the
    reading of the clock made for it, an empty Pending Buffer among them:
    [pruneEntries] returns and leaves the Pending Buffer, the collectors and
    the output as they were, makes no query and starts no goroutine. *)
Theorem pruneEntries_nothing_stale (st : State R) :
  (forall (j : nat) (e : time.Time),
      entries (comp st) !! j = Some e ->
      stale (wall (clock st + j)) (maxWait (comp st)) e = false) ->
  exists st' : State R,
    pruneEntries st = Ok (tt, st')
    /\ entries (comp st') = entries (comp st)
    /\ met st' = met st
    /\ out st' = out st
    /\ calls st' = calls st
    /\ goroutines st' = goroutines st.
Proof.
  intros Hs. exists (pruneEntries_state st). split; [apply pruneEntries_eq|].
  destruct (prune_nothing_stale _ _ _ Hs) as [Hgone Hfresh].
  destruct (pruneEntries_gone_nil st Hgone) as (Hm & Ho & Hc & _ & Hg).
  rewrite pruneEntries_comp, Hm, Ho, Hc, Hg. cbn [set_ackdEntries set_entries entries].
  by rewrite Hfresh.
Qed.

(** *** [confirmMissing] *)

Lemma confirmMissing_range (first lst : time.Time) (missing : list time.Time) :
  head missing = Some first ->
  last missing = Some lst ->
  missing <> []
  /\ confirmMissing_start missing = time.Add first (-10 * time.Second)
  /\ confirmMissing_end missing = time.Add lst (10 * time.Second).
Proof.
  intros Hh Hl. unfold confirmMissing_start, confirmMissing_end. rewrite Hh, Hl.
  split; [|done]. intros ->. discriminate Hh.
Qed.

(** X9. [confirmMissing] on a batch with first entry [first] and last entry
    [lst], when its query fails: it returns after the one query, over the
    range from [first.Add(-10s)] to [lst.Add(10s)], and the line of the
    error; the collectors and the comparator are as they were, so no entry of
    the batch is counted as missing. *)
Theorem confirmMissing_query_error (first lst : time.Time) (missing recvd : list time.Time)
    (e : string) (r' : R) (st : State R) :
  head missing = Some first ->
  last missing = Some lst ->
  Query (rdr st) (time.Add first (-10 * time.Second)) (time.Add lst (10 * time.Second))
  = ((recvd, Some e), r') ->
  exists st' : State R,
    confirmMissing missing st = Ok (tt, st')
    /\ calls st'
       = calls st ++ [CallQuery (time.Add first (-10 * time.Second))
                        (time.Add lst (10 * time.Second))]
    /\ out st' = out st ++ [(ErrQueryLoki, [AString e])]
    /\ met st' = met st
    /\ comp st' = comp st
    /\ rdr st' = r'.
Proof.
  intros Hh Hl HQ. destruct (confirmMissing_range _ _ _ Hh Hl) as (Hne & Hs & He).
  exists (confirmMissing_state missing st). split; [by apply confirmMissing_eq|].
  unfold confirmMissing_state. rewrite Hs, He, HQ. done.
Qed.

(** X10. [confirmMissing] on a batch with first entry [first] and last entry
    [lst], when its query succeeds: it makes that one query, over the range
    from [first.Add(-10s)] to [lst.Add(10s)]; it writes one debug line for
    each entry of the batch, then one for each timestamp of the result, then
    one line for each entry of the batch that the result does not hold, in
    the order of the batch; only the confirmed-missing counter moves, and the
    comparator and the clock are as they were. *)
Theorem confirmMissing_output (first lst : time.Time) (missing recvd : list time.Time)
    (r' : R) (st : State R) :
  head missing = Some first ->
  last missing = Some lst ->
  Query (rdr st) (time.Add first (-10 * time.Second)) (time.Add lst (10 * time.Second))
  = ((recvd, None), r') ->
  exists st' : State R,
    confirmMissing missing st = Ok (tt, st')
    /\ calls st'
       = calls st ++ [CallQuery (time.Add first (-10 * time.Second))
                        (time.Add lst (10 * time.Second))]
    /\ out st'
       = out st
         ++ map (fun r => (DebugWebsocketMissingEntry, [AInt (time.UnixNano r)])) missing
         ++ map (fun r => (DebugQueryResult, [AInt (time.UnixNano r)])) recvd
         ++ map (fun m => (ErrEntryNotReceived,
                           [AInt (time.UnixNano m); AFloat (time.Seconds (maxWait (comp st)))]))
              (still_missing recvd missing)
    /\ met st' = add_missingEntries (length (still_missing recvd missing)) (met st)
    /\ comp st' = comp st
    /\ clock st' = clock st
    /\ goroutines st' = goroutines st.
Proof.
  intros Hh Hl HQ. destruct (confirmMissing_range _ _ _ Hh Hl) as (Hne & Hs & He).
  exists (confirmMissing_state missing st). split; [by apply confirmMissing_eq|].
  unfold confirmMissing_state. rewrite Hs, He, HQ. done.
Qed.

(** *** [spotCheckEntries] *)

Lemma query_end (sce : time.Time) :
  time.Add (time.Add sce (-10 * time.Second)) (10 * time.Second) = sce.
Proof. unfold time.Add, time.Second. lia. Qed.

Lemma verify_first_error (currTime sce : time.Time) (rest recvd : list time.Time)
    (e : string) (r' : R) (st : State R) :
  Query (rdr st) (time.Add sce (-10 * time.Second)) sce = ((recvd, Some e), r') ->
  verify_state currTime (sce :: rest) st = log_query_error e (verify_queried sce r' st).
Proof. intros HQ. cbn [verify_state]. rewrite query_end, HQ. done. Qed.

(** X11. [spotCheckEntries] when the query for the first entry that is not
    too old fails: it returns after that one query and the line of the
    error, without a query for the entries after it; the collectors are as
    they were, the entries that are too old have left the Spot-Check Buffer,
    and the deferred function has put [spotCheckRunning] down. *)
Theorem spotCheckEntries_query_error (currTime sce : time.Time) (rest recvd : list time.Time)
    (e : string) (r' : R) (st : State R) :
  List.filter (unexpired currTime (spotCheckMax (comp st))) (spotCheck (comp st)) = sce :: rest ->
  Query (rdr st) (time.Add sce (-10 * time.Second)) sce = ((recvd, Some e), r') ->
  exists st' : State R,
    spotCheckEntries currTime st = Ok (tt, st')
    /\ calls st' = calls st ++ [CallQuery (time.Add sce (-10 * time.Second)) sce]
    /\ out st' = out st ++ [(ErrQueryLoki, [AString e])]
    /\ met st' = met st
    /\ spotCheck (comp st') = sce :: rest
    /\ spotCheckRunning (comp st') = false.
Proof.
  intros Hf HQ. exists (spotCheckEntries_state currTime st).
  split; [apply spotCheckEntries_eq|].
  rewrite spotCheckEntries_comp.
  cbn [set_spotCheckRunning set_spotCheck spotCheck spotCheckRunning].
  unfold spotCheckEntries_state.
  change (spotCheck (comp (spotCheckEntries_evicted currTime st)))
    with (List.filter (unexpired currTime (spotCheckMax (comp st))) (spotCheck (comp st))).
  rewrite Hf, (verify_first_error currTime sce rest recvd e r') by done.
  unfold log_query_error, verify_queried, spotCheckEntries_evicted, with_spotCheck.
  cbn [comp met out rdr calls clock goroutines]. rewrite query_end. done.
Qed.

Lemma verify_all_answered (currTime : time.Time) (cpy : list time.Time) :
  (forall (r : R) (start end_ : time.Time), snd (fst (Query r start end_)) = None) ->
  forall st : State R,
    calls (verify_state currTime cpy st)
    = calls st ++ map (fun ts => CallQuery (time.Add ts (-10 * time.Second)) ts) cpy.
Proof.
  intros Hok. induction cpy as [|sce cpy IH]; intros st.
  - cbn [verify_state map]. by rewrite app_nil_r.
  - cbn [verify_state].
    pose proof (Hok (rdr st) (time.Add sce (-10 * time.Second))
                  (time.Add (time.Add sce (-10 * time.Second)) (10 * time.Second))) as Hq.
    destruct (Query (rdr st) (time.Add sce (-10 * time.Second))
                (time.Add (time.Add sce (-10 * time.Second)) (10 * time.Second)))
      as [[recvd err] r'].
    cbn [fst snd] in Hq. subst err.
    destruct (existsb (time.Equal sce) recvd); rewrite IH;
      cbn [verify_missing verify_queried calls map]; rewrite query_end, <- app_assoc; done.
Qed.

(** X12. With a reader whose range query never fails, [spotCheckEntries]
    returns after one query for each entry of the Spot-Check Buffer that is
    not too old, in the order of the buffer; the spot-check-missing counter
    goes up by at most the number of these entries and no other collector
    moves; the Pending Buffer and the Acknowledged Buffer are as they were
    and [spotCheckRunning] is down. *)
Theorem spotCheckEntries_all_answered (currTime : time.Time) (st : State R) :
  (forall (r : R) (start end_ : time.Time), snd (fst (Query r start end_)) = None) ->
  let survivors :=
    List.filter (unexpired currTime (spotCheckMax (comp st))) (spotCheck (comp st)) in
  exists (st' : State R) (n : nat),
    spotCheckEntries currTime st = Ok (tt, st')
    /\ calls st'
       = calls st ++ map (fun ts => CallQuery (time.Add ts (-10 * time.Second)) ts) survivors
    /\ (n <= length survivors)%nat
    /\ met st' = add_spotCheckMissing n (met st)
    /\ entries (comp st') = entries (comp st)
    /\ ackdEntries (comp st') = ackdEntries (comp st)
    /\ spotCheckRunning (comp st') = false.
Proof.
  intros Hok survivors. destruct (spotCheckEntries_met currTime st) as (n & Hn & Hm).
  exists (spotCheckEntries_state currTime st), n.
  split; [apply spotCheckEntries_eq|]. rewrite spotCheckEntries_comp, Hm.
  split; [|done]. unfold spotCheckEntries_state. cbn [calls].
  apply (verify_all_answered currTime _ Hok (spotCheckEntries_evicted currTime st)).
Qed.

(** X13. [spotCheckEntries] with [spotCheckMax] above the least [Duration],
    whatever the reader answers: it returns, and the Spot-Check Buffer keeps
    exactly its entries [e] with [currTime - spotCheckMax <= e], in their
    order; an entry of exactly the maximal age is kept.  The Pending Buffer,
    the Acknowledged Buffer and the configuration are as they were. *)
Theorem spotCheckEntries_keeps_recent (currTime : time.Time) (st : State R) :
  time.minDuration < spotCheckMax (comp st) <= time.maxDuration ->
  exists st' : State R,
    spotCheckEntries currTime st = Ok (tt, st')
    /\ spotCheck (comp st')
       = List.filter (fun e => currTime - spotCheckMax (comp st) <=? e) (spotCheck (comp st))
    /\ entries (comp st') = entries (comp st)
    /\ ackdEntries (comp st') = ackdEntries (comp st)
    /\ same_config (comp st) (comp st').
Proof.
  intros Hd. exists (spotCheckEntries_state currTime st).
  split; [apply spotCheckEntries_eq|]. rewrite spotCheckEntries_comp.
  cbn [set_spotCheckRunning set_spotCheck spotCheck entries ackdEntries].
  split; [|done].
  change (unexpired currTime (spotCheckMax (comp st)))
    with (fun e => negb (stale currTime (spotCheckMax (comp st)) e)).
  by apply filter_fresh_leb.
Qed.

(** *** The states the program reaches *)

Lemma reachable_invariant (P : State R -> Prop) (st0 st : State R) :
  P st0 ->
  (forall (l : Label) (s : State R), P s -> P (step_state l s)) ->
  reachable st0 st -> P st.
Proof.
  intros H0 Hstep Hr. induction Hr as [|s s' l Hr IH Hs]; [done|].
  rewrite (step_Ok_inv l s s' Hs). by apply Hstep.
Qed.

Lemma same_config_trans (c1 c2 c3 : Comparator) :
  same_config c1 c2 -> same_config c2 c3 -> same_config c1 c3.
Proof. unfold same_config. intros H1 H2. destruct_and!. split_and!; congruence. Qed.

Lemma run_select_config (ev : Event) (st : State R) :
  same_config (comp st) (comp (run_select_state ev st)).
Proof.
  destruct ev; cbn [run_select_state].
  - rewrite entryReceived_comp. done.
  - unfold entrySent_state. cbn [comp]. by destruct (sampled e (comp st)).
  - cbv zeta. destruct (spotCheckRunning (comp (pruneEntries_state st)));
      cbn [comp]; rewrite pruneEntries_comp; done.
  - by destruct (metricTestRunning (comp st)).
  - done.
Qed.

Lemma run_goroutine_config (g : Goroutine) (st : State R) :
  same_config (comp st) (comp (run_goroutine_state g st)).
Proof.
  destruct g as [missing|currTime|]; cbn [run_goroutine_state].
  - by destruct (confirmMissing_frame missing st) as (-> & _).
  - rewrite spotCheckEntries_comp. done.
  - rewrite metricTest_comp. done.
Qed.

Lemma step_config (l : Label) (st : State R) :
  same_config (comp st) (comp (step_state l st)).
Proof.
  destruct l as [ev|n]; cbn [step_state].
  - destruct (done (comp st)); [done|]. apply run_select_config.
  - destruct (goroutines st !! n) as [g|]; [|done].
    apply (run_goroutine_config g
             (mkState (comp st) (met st) (out st) (rdr st) (calls st) (clock st)
                (delete n (goroutines st)))).
Qed.

Lemma reachable_config (st0 st : State R) :
  reachable st0 st -> same_config (comp st0) (comp st).
Proof.
  apply (reachable_invariant (fun s => same_config (comp st0) (comp s))); [done|].
  intros l s Hs. exact (same_config_trans _ _ _ Hs (step_config l s)).
Qed.

Lemma NewComparator_comp (writer : list LogLine) (maxWait pruneInterval : time.Duration)
    (spotCheckInterval spotCheckMax metricTestInterval : time.Duration)
    (metricTestRange : string) (writeInterval : time.Duration) (buckets : Z)
    (reader0 : R) (confirmAsync : bool) (globals : Metrics) (clock0 : nat) :
  let st0 := NewComparator writer maxWait pruneInterval spotCheckInterval spotCheckMax
               metricTestInterval metricTestRange writeInterval buckets reader0 confirmAsync
               globals clock0 in
  comp st0
  = mkComparator [] [] [] maxWait pruneInterval spotCheckInterval spotCheckMax false
      metricTestInterval metricTestRange (fst (ParseDuration metricTestRange)) false
      writeInterval confirmAsync false
  /\ met st0 = globals
  /\ goroutines st0 = []
  /\ calls st0 = []
  /\ rdr st0 = reader0.
Proof.
  cbv zeta. unfold NewComparator.
  by destruct (ParseDuration metricTestRange) as [d [e|]].
Qed.

(** X14. In every state the program reaches from [NewComparator], the
    configuration is the one [NewComparator] was given: no handler of the
    loop and no goroutine writes [maxWait], the intervals, [spotCheckMax],
    [metricTestRange], [writeInterval] or [confirmAsync], and
    [metricTestRagenDur] stays the duration [time.ParseDuration] returned
    for [metricTestRange]. *)
Theorem configuration_is_fixed (writer : list LogLine) (wait prune : time.Duration)
    (interval age test : time.Duration) (window : string) (write : time.Duration)
    (buckets : Z) (reader0 : R) (async : bool) (globals : Metrics) (clock0 : nat)
    (st : State R) :
  reachable
    (NewComparator writer wait prune interval age test window write buckets reader0 async
       globals clock0) st ->
  maxWait (comp st) = wait
  /\ pruneInterval (comp st) = prune
  /\ spotCheckInterval (comp st) = interval
  /\ spotCheckMax (comp st) = age
  /\ metricTestInterval (comp st) = test
  /\ metricTestRange (comp st) = window
  /\ metricTestRagenDur (comp st) = fst (ParseDuration window)
  /\ writeInterval (comp st) = write
  /\ confirmAsync (comp st) = async.
Proof.
  intros Hr. pose proof (reachable_config _ _ Hr) as Hc.
  destruct (NewComparator_comp writer wait prune interval age test window write buckets
              reader0 async globals clock0) as (H0 & _).
  rewrite H0 in Hc. exact Hc.
Qed.

Lemma filter_delete_length (p : Goroutine -> bool) (l : list Goroutine) :
  forall (n : nat) (g : Goroutine),
    l !! n = Some g ->
    length (List.filter p l)
    = (length (List.filter p (delete n l)) + if p g then 1 else 0)%nat.
Proof.
  induction l as [|a l IH]; intros [|n] g H; try done.
  - injection H as ->. change (delete 0%nat (g :: l)) with l. cbn [List.filter].
    destruct (p g); cbn [length]; lia.
  - change (delete (S n) (a :: l)) with (a :: delete n l). cbn [List.filter].
    specialize (IH n g H). destruct (p a); cbn [length]; lia.
Qed.

Lemma pruneEntries_no_overlap (st : State R) :
  no_overlap st -> no_overlap (pruneEntries_state st).
Proof.
  unfold no_overlap. rewrite pruneEntries_goroutines, pruneEntries_comp.
  cbn [set_ackdEntries set_entries metricTestRunning spotCheckRunning].
  rewrite !List.filter_app.
  destruct (confirmAsync (comp st)); [|by rewrite !app_nil_r].
  destruct (prune_stale _ _ _); by rewrite !app_nil_r.
Qed.

Lemma run_select_no_overlap (ev : Event) (st : State R) :
  no_overlap st -> no_overlap (run_select_state ev st).
Proof.
  intros Hn. destruct ev; cbn [run_select_state].
  - unfold no_overlap. rewrite entryReceived_goroutines, entryReceived_comp. exact Hn.
  - unfold no_overlap, entrySent_state. cbn [comp goroutines].
    by destruct (sampled e (comp st)).
  - cbv zeta. apply pruneEntries_no_overlap in Hn.
    destruct (spotCheckRunning (comp (pruneEntries_state st))) eqn:Hf; [done|].
    unfold no_overlap in *. rewrite Hf in Hn. destruct Hn as [Hm Hs].
    cbn [comp goroutines set_spotCheckRunning metricTestRunning spotCheckRunning].
    rewrite !List.filter_app, !length_app. cbn [List.filter is_metricTest is_spotCheck length].
    split; lia.
  - destruct (metricTestRunning (comp st)) eqn:Hf; [done|].
    unfold no_overlap in *. rewrite Hf in Hn. destruct Hn as [Hm Hs].
    cbn [comp goroutines set_metricTestRunning metricTestRunning spotCheckRunning].
    rewrite !List.filter_app, !length_app. cbn [List.filter is_metricTest is_spotCheck length].
    split; lia.
  - exact Hn.
Qed.

Lemma run_goroutine_no_overlap (n : nat) (g : Goroutine) (st : State R) :
  goroutines st !! n = Some g ->
  no_overlap st ->
  no_overlap
    (run_goroutine_state g
       (mkState (comp st) (met st) (out st) (rdr st) (calls st) (clock st)
          (delete n (goroutines st)))).
Proof.
  intros Hg [Hm Hs]. unfold no_overlap. rewrite run_goroutine_goroutines. cbn [goroutines].
  pose proof (filter_delete_length is_metricTest _ _ _ Hg) as Hdm.
  pose proof (filter_delete_length is_spotCheck _ _ _ Hg) as Hds.
  destruct g as [missing|currTime|]; cbn [run_goroutine_state is_metricTest is_spotCheck] in *.
  - destruct (confirmMissing_frame missing
                (mkState (comp st) (met st) (out st) (rdr st) (calls st) (clock st)
                   (delete n (goroutines st)))) as (-> & _).
    cbn [comp]. split; lia.
  - rewrite spotCheckEntries_comp.
    cbn [comp set_spotCheckRunning set_spotCheck metricTestRunning spotCheckRunning].
    destruct (spotCheckRunning (comp st)); split; lia.
  - rewrite metricTest_comp.
    cbn [comp set_metricTestRunning metricTestRunning spotCheckRunning].
    destruct (metricTestRunning (comp st)); split; lia.
Qed.

Lemma step_no_overlap (l : Label) (st : State R) :
  no_overlap st -> no_overlap (step_state l st).
Proof.
  intros Hn. destruct l as [ev|n]; cbn [step_state].
  - destruct (done (comp st)); [done|]. by apply run_select_no_overlap.
  - destruct (goroutines st !! n) as [g|] eqn:Hg; [|done].
    by apply run_goroutine_no_overlap.
Qed.

(** X15. In every state the program reaches from [NewComparator], at most
    one [metricTest] and at most one [spotCheckEntries] are started and not
    finished, and one is only while its flag, [metricTestRunning] or
    [spotCheckRunning], is up: the loop starts one only with the flag down
    and raises the flag, and only the end of the goroutine puts it down. *)
Theorem one_check_at_a_time (writer : list LogLine) (wait prune : time.Duration)
    (interval age test : time.Duration) (window : string) (write : time.Duration)
    (buckets : Z) (reader0 : R) (async : bool) (globals : Metrics) (clock0 : nat)
    (st : State R) :
  reachable
    (NewComparator writer wait prune interval age test window write buckets reader0 async
       globals clock0) st ->
  (length (List.filter is_metricTest (goroutines st))
   <= if metricTestRunning (comp st) then 1 else 0)%nat
  /\ (length (List.filter is_spotCheck (goroutines st))
      <= if spotCheckRunning (comp st) then 1 else 0)%nat.
Proof.
  apply (reachable_invariant no_overlap); [|apply step_no_overlap].
  destruct (NewComparator_comp writer wait prune interval age test window write buckets
              reader0 async globals clock0) as (Hc & _ & Hg & _).
  unfold no_overlap. rewrite Hc, Hg. cbn [List.filter length metricTestRunning spotCheckRunning].
  split; lia.
Qed.

Lemma run_select_accounted (ev : Event) (st : State R) :
  (totalEntries (met (run_select_state ev st)) + accounted st
   = totalEntries (met st) + accounted (run_select_state ev st))%nat.
Proof.
  unfold accounted. destruct ev; cbn [run_select_state].
  - destruct (entryReceived_latency e st) as (-> & -> & ->).
    rewrite entryReceived_comp. cbn [set_entries set_ackdEntries entries].
    rewrite length_app, length_map, length_seq.
    pose proof (length_hit_split e (entries (comp st))). lia.
  - unfold entrySent_state. cbn [comp met].
    destruct (sampled e (comp st));
      cbn [set_spotCheck set_entries entries inc_totalEntries totalEntries responseLatency
             wsMissingEntries];
      rewrite length_app; cbn [length]; lia.
  - cbv zeta.
    assert (H : (totalEntries (met (pruneEntries_state st))
                 + (length (entries (comp st)) + length (responseLatency (met st))
                    + wsMissingEntries (met st))
                 = totalEntries (met st)
                   + (length (entries (comp (pruneEntries_state st)))
                      + length (responseLatency (met (pruneEntries_state st)))
                      + wsMissingEntries (met (pruneEntries_state st))))%nat).
    { destruct (pruneEntries_met st) as [n ->]. rewrite pruneEntries_comp.
      cbn [set_ackdEntries set_entries entries add_missingEntries add_wsMissingEntries
             totalEntries responseLatency wsMissingEntries].
      pose proof (length_prune_split (maxWait (comp st)) (entries (comp st)) (clock st)). lia. }
    by destruct (spotCheckRunning (comp (pruneEntries_state st))).
  - by destruct (metricTestRunning (comp st)).
  - done.
Qed.

Lemma run_goroutine_accounted (g : Goroutine) (st : State R) :
  totalEntries (met (run_goroutine_state g st)) = totalEntries (met st)
  /\ accounted (run_goroutine_state g st) = accounted st.
Proof.
  unfold accounted. destruct g as [missing|currTime|]; cbn [run_goroutine_state].
  - destruct (confirmMissing_met missing st) as [n ->].
    by destruct (confirmMissing_frame missing st) as (-> & _).
  - destruct (spotCheckEntries_met currTime st) as (n & _ & ->).
    rewrite spotCheckEntries_comp. done.
  - destruct (metricTest_met st) as [v ->]. rewrite metricTest_comp. done.
Qed.

Lemma step_accounted (l : Label) (st : State R) :
  (totalEntries (met (step_state l st)) + accounted st
   = totalEntries (met st) + accounted (step_state l st))%nat.
Proof.
  destruct l as [ev|n]; cbn [step_state].
  - destruct (done (comp st)); [done|]. apply run_select_accounted.
  - destruct (goroutines st !! n) as [g|]; [|done].
    destruct (run_goroutine_accounted g
                (mkState (comp st) (met st) (out st) (rdr st) (calls st) (clock st)
                   (delete n (goroutines st)))) as [-> ->].
    done.
Qed.

(** X16. From any state, in every state the program reaches, each entry that
    [entrySent] has counted since is in exactly one of three places: it is in
    the Pending Buffer, it has been matched by [entryReceived] (one
    observation of the latency) or it has been counted as missing over the
    websocket by [pruneEntries].  The sum of the three moves with the count
    of the entries sent. *)
Theorem sent_entries_accounted (st0 st : State R) :
  reachable st0 st ->
  (totalEntries (met st)
   + (length (entries (comp st0)) + length (responseLatency (met st0))
      + wsMissingEntries (met st0))
   = totalEntries (met st0)
     + (length (entries (comp st)) + length (responseLatency (met st))
        + wsMissingEntries (met st)))%nat.
Proof.
  apply (reachable_invariant
           (fun s => (totalEntries (met s) + accounted st0
                      = totalEntries (met st0) + accounted s)%nat)); [done|].
  intros l s Hs. pose proof (step_accounted l s). lia.
Qed.

Lemma length_delete_le (n : nat) (l : list Goroutine) :
  (length (delete n l) <= length l)%nat.
Proof.
  revert n. induction l as [|a l IH]; intros [|n]; try done.
  - change (delete 0%nat (a :: l)) with l. cbn [length]. lia.
  - change (delete (S n) (a :: l)) with (a :: delete n l). cbn [length].
    specialize (IH n). lia.
Qed.

(** What a goroutine leaves as it was. *)
Lemma run_goroutine_frame (g : Goroutine) (st : State R) :
  let st' := run_goroutine_state g st in
  done (comp st') = done (comp st)
  /\ entries (comp st') = entries (comp st)
  /\ ackdEntries (comp st') = ackdEntries (comp st)
  /\ totalEntries (met st') = totalEntries (met st)
  /\ wsMissingEntries (met st') = wsMissingEntries (met st)
  /\ responseLatency (met st') = responseLatency (met st).
Proof.
  cbv zeta. destruct g as [missing|currTime|]; cbn [run_goroutine_state].
  - destruct (confirmMissing_met missing st) as [n ->].
    by destruct (confirmMissing_frame missing st) as (-> & _).
  - destruct (spotCheckEntries_met currTime st) as (n & _ & ->).
    rewrite spotCheckEntries_comp. done.
  - destruct (metricTest_met st) as [v ->]. rewrite metricTest_comp. done.
Qed.

Lemma step_after_done (l : Label) (st : State R) :
  done (comp st) = true ->
  let st' := step_state l st in
  done (comp st') = true
  /\ entries (comp st') = entries (comp st)
  /\ ackdEntries (comp st') = ackdEntries (comp st)
  /\ totalEntries (met st') = totalEntries (met st)
  /\ wsMissingEntries (met st') = wsMissingEntries (met st)
  /\ responseLatency (met st') = responseLatency (met st)
  /\ (length (goroutines st') <= length (goroutines st))%nat.
Proof.
  intros Hd. cbv zeta. destruct l as [ev|n]; cbn [step_state].
  - rewrite Hd. done.
  - destruct (goroutines st !! n) as [g|]; [|done].
    rewrite run_goroutine_goroutines. cbn [goroutines].
    destruct (run_goroutine_frame g
                (mkState (comp st) (met st) (out st) (rdr st) (calls st) (clock st)
                   (delete n (goroutines st)))) as (-> & -> & -> & -> & -> & ->).
    cbn [comp met]. split_and!; try done. apply length_delete_le.
Qed.

(** X17. Once the loop of [run] has returned and [c.done] is closed, it
    stays closed, and whatever runs afterwards, that is the goroutines
    started before, the Pending Buffer, the Acknowledged Buffer, the count of
    the entries sent, the count of the entries missing over the websocket
    and the observations of the latency are as they were; no goroutine is
    started any more. *)
Theorem nothing_served_after_quit (st st' : State R) :
  done (comp st) = true ->
  reachable st st' ->
  done (comp st') = true
  /\ entries (comp st') = entries (comp st)
  /\ ackdEntries (comp st') = ackdEntries (comp st)
  /\ totalEntries (met st') = totalEntries (met st)
  /\ wsMissingEntries (met st') = wsMissingEntries (met st)
  /\ responseLatency (met st') = responseLatency (met st)
  /\ (length (goroutines st') <= length (goroutines st))%nat.
Proof.
  intros Hd.
  apply (reachable_invariant
           (fun s => done (comp s) = true
                     /\ entries (comp s) = entries (comp st)
                     /\ ackdEntries (comp s) = ackdEntries (comp st)
                     /\ totalEntries (met s) = totalEntries (met st)
                     /\ wsMissingEntries (met s) = wsMissingEntries (met st)
                     /\ responseLatency (met s) = responseLatency (met st)
                     /\ (length (goroutines s) <= length (goroutines st))%nat)); [done|].
  intros l s (Hs & <- & <- & <- & <- & <- & Hg).
  destruct (step_after_done l s Hs) as (H1 & H2 & H3 & H4 & H5 & H6 & H7).
  split_and!; try done. lia.
Qed.

(** X18. When [time.ParseDuration] accepts [metricTestRange] with a duration
    that is not zero, in every state the program reaches from
    [NewComparator] a [metricTest] whose query succeeds makes that one
    query, for the [metricTestRange] that [NewComparator] was given, writes
    nothing, and sets the gauge to the parsed duration in milliseconds
    divided by [writeInterval] in milliseconds, less the count the query
    returned; it puts [metricTestRunning] down. *)
Theorem metricTest_uses_parsed_range (writer : list LogLine) (wait prune : time.Duration)
    (interval age test : time.Duration) (window : string) (write : time.Duration)
    (buckets : Z) (reader0 : R) (async : bool) (globals : Metrics) (clock0 : nat)
    (d : time.Duration) (actualCount : float) (r' : R) (st : State R) :
  ParseDuration window = (d, None) ->
  d <> 0 ->
  reachable
    (NewComparator writer wait prune interval age test window write buckets reader0 async
       globals clock0) st ->
  QueryCountOverTime (rdr st) window = ((actualCount, None), r') ->
  exists st' : State R,
    metricTest st = Ok (tt, st')
    /\ calls st' = calls st ++ [CallQueryCountOverTime window]
    /\ out st' = out st
    /\ metricTestDeviation (met st')
       = (time.float64 (time.Milliseconds d) / time.float64 (time.Milliseconds write)
          - actualCount)%float
    /\ metricTestRunning (comp st') = false
    /\ rdr st' = r'.
Proof.
  intros Hp Hd Hr HQ. pose proof (reachable_config _ _ Hr) as Hc.
  destruct (NewComparator_comp writer wait prune interval age test window write buckets
              reader0 async globals clock0) as (H0 & _).
  rewrite H0, Hp in Hc.
  destruct Hc as (_ & _ & _ & _ & _ & Hw & Hdur & Hwi & _).
  cbn [metricTestRange metricTestRagenDur writeInterval fst] in Hw, Hdur, Hwi.
  exists (metricTest_state st). split; [apply metricTest_eq|].
  unfold metricTest_state. rewrite Hdur, Hw, Hwi, HQ.
  destruct (decide (d = 0)) as [->|_]; [done|].
  cbn [calls out met comp]. rewrite app_nil_r. done.
Qed.
End Comparator.

(** ** The properties at sample inputs *)

Lemma hours_ParseDuration_error (s : string) (d : time.Duration) (e : string) :
  hours_ParseDuration s = (d, Some e) -> d = 0.
Proof.
  unfold hours_ParseDuration. destruct (hours s 0); [destruct (_ && _)|];
    intros H; inversion H; reflexivity.
Qed.

(** C3 does not hold as stated: after [entrySent] of 1, 2 and 2 on a new
    comparator, one call of [entryReceived] of 2 moves the out-of-order
    counter up by two. *)
Lemma entryReceived_out_of_order_twice :
  let st0 := NewComparator hours_ParseDuration [] (5 * time.Second) time.Second time.Second
               (60 * time.Second) time.Second "24h" time.Millisecond 10 tt false
               zero_metrics 0 in
  exists st1 st2 : State unit,
    (entrySent 1;; entrySent 2;; entrySent 2) st0 = Ok (tt, st1)
    /\ entries (comp st1) = [1; 2; 2]
    /\ entryReceived (frozen 100) 2 st1 = Ok (tt, st2)
    /\ outOfOrderEntries (met st2) = (outOfOrderEntries (met st1) + 2)%nat.
Proof.
  intros st0. eexists. eexists.
  split; [vm_compute; reflexivity|]. split; [reflexivity|].
  split; [vm_compute; reflexivity|]. reflexivity.
Qed.

Lemma entryReceived_one_class_witness :
  let st := sample_state tt [1; 2; 3] [] [] false in
  (length (List.filter (hit 2) (entries (comp st))) <= 1)%nat
  /\ classify 2 (comp st) = OutOfOrder
  /\ exists st' : State unit,
       entryReceived (frozen 100) 2 st = Ok (tt, st')
       /\ outOfOrderEntries (met st') = 1%nat
       /\ duplicateEntries (met st') = 0%nat
       /\ unexpectedEntries (met st') = 0%nat.
Proof.
  intros st.
  assert (H : (length (List.filter (hit 2) (entries (comp st))) <= 1)%nat)
    by (vm_compute; lia).
  split; [exact H|]. split; [reflexivity|].
  destruct (entryReceived_one_class (frozen 100) 2 st H) as (st' & He & Ho & Hd & Hu).
  exists st'. split; [exact He|]. split; [exact Ho|]. split; [exact Hd|exact Hu].
Defined.

Lemma sent_three_received_second_witness :
  let st0 := NewComparator hours_ParseDuration [] (5 * time.Second) time.Second time.Second
               (60 * time.Second) time.Second "24h" time.Millisecond 10 tt false
               zero_metrics 0 in
  1 < 2 /\ 2 < 3 /\ entries (comp st0) = []
  /\ exists st' : State unit,
       (entrySent 1;; entrySent 2;; entrySent 3;; entryReceived (frozen 100) 2) st0
       = Ok (tt, st')
       /\ outOfOrderEntries (met st') = 1%nat
       /\ entries (comp st') = [1; 3].
Proof.
  intros st0.
  assert (H12 : 1 < 2) by lia. assert (H23 : 2 < 3) by lia.
  assert (He : entries (comp st0) = []) by reflexivity.
  split; [exact H12|]. split; [exact H23|]. split; [exact He|].
  exact (sent_three_received_second (frozen 100) 1 2 3 st0 H12 H23 He).
Defined.

Lemma entryReceived_never_sent_witness :
  let st := sample_state tt [1; 2] [] [3] false in
  ~ In 7 (entries (comp st)) /\ ~ In 7 (ackdEntries (comp st))
  /\ exists st' : State unit,
       entryReceived (frozen 100) 7 st = Ok (tt, st')
       /\ unexpectedEntries (met st') = 1%nat
       /\ duplicateEntries (met st') = 0%nat
       /\ entries (comp st') = [1; 2]
       /\ ackdEntries (comp st') = [3].
Proof.
  intros st.
  assert (Hp : ~ In 7 (entries (comp st))) by (intros [H|[H|[]]]; discriminate H).
  assert (Ha : ~ In 7 (ackdEntries (comp st))) by (intros [H|[]]; discriminate H).
  split; [exact Hp|]. split; [exact Ha|].
  exact (entryReceived_never_sent (frozen 100) 7 st Hp Ha).
Defined.

Lemma received_twice_is_duplicate_witness :
  let st0 := NewComparator hours_ParseDuration [] (5 * time.Second) time.Second time.Second
               (60 * time.Second) time.Second "24h" time.Millisecond 10 tt false
               zero_metrics 0 in
  let st := entrySent_state 5 st0 in
  entrySent 5 st0 = Ok (tt, st)
  /\ length (List.filter (hit 5) (entries (comp st))) = 1%nat
  /\ exists st1 st2 : State unit,
       entryReceived (frozen 100) 5 st = Ok (tt, st1)
       /\ entries (comp st1) = []
       /\ ~ In 5 (entries (comp st1))
       /\ ackdEntries (comp st1) = [5]
       /\ entryReceived (frozen 100) 5 st1 = Ok (tt, st2)
       /\ duplicateEntries (met st2) = 1%nat
       /\ unexpectedEntries (met st2) = 0%nat.
Proof.
  intros st0 st.
  assert (H : length (List.filter (hit 5) (entries (comp st))) = 1%nat) by reflexivity.
  split; [apply entrySent_eq|]. split; [exact H|].
  exact (received_twice_is_duplicate (frozen 100) 5 st H).
Defined.


Lemma spotCheck_spacing_preserved_witness :
  let st := sample_state tt [] [1 * time.Second; 3 * time.Second] [] false in
  spaced (spotCheckInterval (comp st)) (spotCheck (comp st))
  /\ (exists st' : State unit,
         entrySent (3 * time.Second + 100 * time.Millisecond) st = Ok (tt, st')
         /\ spotCheck (comp st') = [1 * time.Second; 3 * time.Second]
         /\ spaced (spotCheckInterval (comp st')) (spotCheck (comp st')))
  /\ (exists st' : State unit,
         entrySent (4 * time.Second) st = Ok (tt, st')
         /\ spotCheck (comp st') = [1 * time.Second; 3 * time.Second; 4 * time.Second]
         /\ spaced (spotCheckInterval (comp st')) (spotCheck (comp st')))
  /\ exists st' : State unit,
       spotCheckEntries (62 * time.Second) st = Ok (tt, st')
       /\ spotCheck (comp st') = [3 * time.Second]
       /\ spaced (spotCheckInterval (comp st')) (spotCheck (comp st')).
Proof.
  intros st.
  assert (Hs : spaced (spotCheckInterval (comp st)) (spotCheck (comp st))).
  { cbn. split; [|exact I]. vm_compute. discriminate. }
  split; [exact Hs|].
  destruct (spotCheck_spacing_preserved st Hs) as [Hsent Hcheck].
  split; [|split].
  - destruct (Hsent (3 * time.Second + 100 * time.Millisecond)) as (st' & He & _ & Hl & Hsp).
    exists st'. split; [exact He|]. split; [exact Hl|exact Hsp].
  - destruct (Hsent (4 * time.Second)) as (st' & He & _ & Hl & Hsp).
    exists st'. split; [exact He|]. split; [exact Hl|exact Hsp].
  - destruct (Hcheck (62 * time.Second)) as (st' & He & _ & Hl & Hsp).
    exists st'. split; [exact He|]. split; [exact Hl|exact Hsp].
Defined.

Lemma metricTest_disabled_by_parse_error_witness :
  let st0 := NewComparator hours_ParseDuration [] (5 * time.Second) time.Second time.Second
               (60 * time.Second) time.Second "1d" time.Millisecond 10 tt false
               zero_metrics 0 in
  let st := step_state (frozen 100) (Loop MetricTestTick)
              (step_state (frozen 100) (Loop (Sent 1)) st0) in
  snd (hours_ParseDuration "1d") = Some "time: invalid duration"
  /\ reachable (frozen 100) st0 st
  /\ goroutines st = [GoMetricTest]
  /\ out st0 = [(ErrParseMetricTestRange, [AString "time: invalid duration"])]
  /\ (exists st' : State unit,
         metricTest st = Ok (tt, st')
         /\ out st' = out st ++ [(ErrInvalidMetricTestRange, [])]
         /\ calls st' = calls st
         /\ rdr st' = rdr st
         /\ met st' = met st)
  /\ exists st' : State unit,
       step (frozen 100) (Run 0) st = Ok (tt, st')
       /\ out st' = out st ++ [(ErrInvalidMetricTestRange, [])]
       /\ calls st' = []
       /\ met st' = met st.
Proof.
  intros st0 st.
  assert (He : snd (hours_ParseDuration "1d") = Some "time: invalid duration") by reflexivity.
  assert (Hr : reachable (frozen 100) st0 st).
  { eapply reachable_step; [eapply reachable_step; [apply reachable_start|]|].
    - apply (step_eq (frozen 100) (Loop (Sent 1))). constructor.
    - apply (step_eq (frozen 100) (Loop MetricTestTick)). constructor. }
  split; [exact He|]. split; [exact Hr|]. split; [reflexivity|].
  destruct (metricTest_disabled_by_parse_error (frozen 100) hours_ParseDuration
              hours_ParseDuration_error [] (5 * time.Second) time.Second time.Second
              (60 * time.Second) time.Second "1d" time.Millisecond 10 tt false zero_metrics 0
              "time: invalid duration" st He Hr) as (Ho & Hcall & Hstep).
  split; [exact Ho|]. split; [exact Hcall|].
  destruct (Hstep 0%nat eq_refl) as (st' & Hs & Hout & Hcalls & _ & Hmet).
  exists st'. split; [exact Hs|]. split; [exact Hout|]. split; [exact Hcalls|exact Hmet].
Defined.

Lemma confirmMissing_never_indexes_empty_witness :
  let now := 100 * time.Second in
  let st0 := NewComparator hours_ParseDuration [] (5 * time.Second) time.Second time.Second
               (60 * time.Second) time.Second "24h" time.Millisecond 10
               ([] : list time.Time) true zero_metrics 0 in
  let st := step_state (frozen now) (Loop PruneTick)
              (step_state (frozen now) (Loop (Sent (90 * time.Second))) st0) in
  reachable (frozen now) st0 st
  /\ goroutines st = [GoConfirmMissing [90 * time.Second]; GoSpotCheckEntries now]
  /\ (forall s : State (list time.Time), confirmMissing [] s = Panic "index out of range")
  /\ (forall (missing : list time.Time) (s : State (list time.Time)),
        missing <> [] -> exists s' : State (list time.Time), confirmMissing missing s = Ok (tt, s'))
  /\ (forall s : State (list time.Time), exists s' : State (list time.Time),
        pruneEntries (frozen now) s = Ok (tt, s'))
  /\ batches_nonempty st
  /\ (forall l : Label, exists st' : State (list time.Time), step (frozen now) l st = Ok (tt, st')).
Proof.
  intros now st0 st.
  assert (Hr : reachable (frozen now) st0 st).
  { eapply reachable_step; [eapply reachable_step; [apply reachable_start|]|].
    - apply (step_eq (frozen now) (Loop (Sent (90 * time.Second)))). constructor.
    - apply (step_eq (frozen now) (Loop PruneTick)). constructor. }
  split; [exact Hr|]. split; [reflexivity|].
  exact (confirmMissing_never_indexes_empty (frozen now) hours_ParseDuration []
           (5 * time.Second) time.Second time.Second (60 * time.Second) time.Second "24h"
           time.Millisecond 10 [] true zero_metrics 0 st Hr).
Defined.

Lemma metricTest_sets_gauge_on_error_witness :
  let st := sample_state tt [] [] [] false in
  metricTestRagenDur (comp st) <> 0
  /\ QueryCountOverTime (rdr st) (metricTestRange (comp st)) = ((0%float, Some "unavailable"), tt)
  /\ metricTestDeviation (met st) = 0%float
  /\ exists st' : State unit,
       metricTest st = Ok (tt, st')
       /\ out st' = [(ErrMetricQuery, [AString "unavailable"])]
       /\ metricTestDeviation (met st') = 86400000%float.
Proof.
  intros st.
  assert (Hd : metricTestRagenDur (comp st) <> 0) by discriminate.
  assert (HQ : QueryCountOverTime (rdr st) (metricTestRange (comp st))
               = ((0%float, Some "unavailable"), tt)) by reflexivity.
  split; [exact Hd|]. split; [exact HQ|]. split; [reflexivity|].
  destruct (metricTest_sets_gauge_on_error st 0%float "unavailable" tt Hd HQ)
    as (st' & He & Ho & Hg).
  exists st'. split; [exact He|]. split; [exact Ho|]. rewrite Hg. vm_compute. reflexivity.
Defined.

Example hours_ParseDuration_samples :
  hours_ParseDuration "24h" = (86400 * time.Second, None)
  /\ hours_ParseDuration "h" = (0, Some "time: invalid duration")
  /\ hours_ParseDuration "1d" = (0, Some "time: invalid duration").
Proof. repeat split. Qed.

(** C1 at a sample input: with the backend holding the one sampled entry,
    of 50s, [spotCheckEntries] at 60s asks for the range from 40s to 50s. *)
Lemma spotCheckEntries_query_window_example :
  let ts := 50 * time.Second in
  let st := sample_state [ts] [] [ts] [] false in
  exists st' : State (list time.Time),
    spotCheckEntries (60 * time.Second) st = Ok (tt, st')
    /\ calls st' = [CallQuery (40 * time.Second) ts]
    /\ time.Add ts (10 * time.Second) = 60 * time.Second
    /\ spotCheckMissing (met st') = 0%nat.
Proof.
  intros ts st. eexists. split; [vm_compute; reflexivity|].
  split; [reflexivity|]. split; reflexivity.
Qed.

(** ** The further properties at sample inputs *)

Lemma in_order_delivery_witness :
  let st := sample_state tt [] [] [] false in
  NoDup [1; 2; 3]
  /\ entries (comp st) = []
  /\ exists st' : State unit,
       run (frozen 100) (map Sent [1; 2; 3] ++ map Recv [1; 2; 3]) st = Ok (tt, st')
       /\ entries (comp st') = []
       /\ ackdEntries (comp st') = [1; 2; 3]
       /\ totalEntries (met st') = 3%nat
       /\ length (responseLatency (met st')) = 3%nat
       /\ outOfOrderEntries (met st') = 0%nat
       /\ duplicateEntries (met st') = 0%nat
       /\ unexpectedEntries (met st') = 0%nat.
Proof.
  intros st.
  assert (Hn : NoDup [1; 2; 3]) by (apply (bool_decide_unpack (NoDup (A := Z) [1; 2; 3])); vm_compute; exact I).
  split; [exact Hn|]. split; [reflexivity|].
  exact (in_order_delivery (frozen 100) [1; 2; 3] st Hn eq_refl).
Defined.

Lemma entryReceived_acknowledged_again_witness :
  let st := sample_state tt [1; 3] [] [2] false in
  (~ In 2 (entries (comp st)))
  /\ In 2 (ackdEntries (comp st))
  /\ exists st' : State unit,
       entryReceived (frozen 100) 2 st = Ok (tt, st')
       /\ duplicateEntries (met st') = 1%nat
       /\ unexpectedEntries (met st') = 0%nat
       /\ outOfOrderEntries (met st') = 0%nat
       /\ out st' = [(ErrDuplicateEntry, [AInt 2])]
       /\ entries (comp st') = [1; 3]
       /\ ackdEntries (comp st') = [2].
Proof.
  intros st.
  assert (Hp : ~ In 2 (entries (comp st))) by (intros [H|[H|[]]]; discriminate H).
  assert (Ha : In 2 (ackdEntries (comp st))) by (left; reflexivity).
  split; [exact Hp|]. split; [exact Ha|].
  exact (entryReceived_acknowledged_again (frozen 100) 2 st Hp Ha).
Defined.

Lemma entryReceived_out_of_order_line_witness :
  let st := sample_state tt [1; 2; 3] [] [] false in
  entries (comp st) = [1] ++ 2 :: [3]
  /\ [1] <> ([] : list time.Time)
  /\ (~ In 2 [1])
  /\ (~ In 2 [3])
  /\ exists st' : State unit,
       entryReceived (frozen 100) 2 st = Ok (tt, st')
       /\ outOfOrderEntries (met st') = 1%nat
       /\ out st' = [(ErrOutOfOrderEntry, [ATime 2; ATimes [1]])]
       /\ entries (comp st') = [1; 3]
       /\ ackdEntries (comp st') = [2].
Proof.
  intros st.
  assert (He : entries (comp st) = [1] ++ 2 :: [3]) by reflexivity.
  assert (Hn : [1] <> ([] : list time.Time)) by discriminate.
  assert (H1 : ~ In 2 [1]) by (intros [H|[]]; discriminate H).
  assert (H3 : ~ In 2 [3]) by (intros [H|[]]; discriminate H).
  split; [exact He|]. split; [exact Hn|]. split; [exact H1|]. split; [exact H3|].
  exact (entryReceived_out_of_order_line (frozen 100) 2 [1] [3] st He Hn H1 H3).
Defined.

Lemma pruneEntries_keeps_recent_witness :
  let now := 100 * time.Second in
  let st := sample_state tt [90 * time.Second; 95 * time.Second; 99 * time.Second] []
              [94 * time.Second; 96 * time.Second] true in
  time.minDuration < maxWait (comp st) <= time.maxDuration
  /\ (forall j : nat,
         (j < length (entries (comp st)) + length (ackdEntries (comp st)))%nat ->
         frozen now (clock st + j) = now)
  /\ exists st' : State unit,
       pruneEntries (frozen now) st = Ok (tt, st')
       /\ entries (comp st') = [95 * time.Second; 99 * time.Second]
       /\ ackdEntries (comp st') = [96 * time.Second].
Proof.
  intros now st.
  assert (Hd : time.minDuration < maxWait (comp st) <= time.maxDuration)
    by (split; [reflexivity|discriminate]).
  assert (Hw : forall j : nat,
             (j < length (entries (comp st)) + length (ackdEntries (comp st)))%nat ->
             frozen now (clock st + j) = now) by reflexivity.
  split; [exact Hd|]. split; [exact Hw|].
  exact (pruneEntries_keeps_recent (frozen now) st now Hd Hw).
Defined.

Lemma pruneEntries_nothing_stale_witness :
  let now := 100 * time.Second in
  let st := sample_state tt [96 * time.Second; 99 * time.Second] [] [] true in
  (forall (j : nat) (e : time.Time),
      entries (comp st) !! j = Some e ->
      stale (frozen now (clock st + j)) (maxWait (comp st)) e = false)
  /\ exists st' : State unit,
       pruneEntries (frozen now) st = Ok (tt, st')
       /\ entries (comp st') = [96 * time.Second; 99 * time.Second]
       /\ met st' = zero_metrics
       /\ out st' = []
       /\ calls st' = []
       /\ goroutines st' = [].
Proof.
  intros now st.
  assert (Hs : forall (j : nat) (e : time.Time),
             entries (comp st) !! j = Some e ->
             stale (frozen now (clock st + j)) (maxWait (comp st)) e = false).
  { intros [|[|j]] e H; [| |discriminate H]; injection H as <-; reflexivity. }
  split; [exact Hs|].
  exact (pruneEntries_nothing_stale (frozen now) st Hs).
Defined.

Lemma confirmMissing_query_error_witness :
  let st := sample_state tt [] [] [] false in
  let missing := [time.Second; 2 * time.Second] in
  head missing = Some time.Second
  /\ last missing = Some (2 * time.Second)
  /\ Query (rdr st) (time.Add time.Second (-10 * time.Second))
       (time.Add (2 * time.Second) (10 * time.Second))
     = (([], Some "unavailable"), tt)
  /\ exists st' : State unit,
       confirmMissing missing st = Ok (tt, st')
       /\ calls st' = [CallQuery (-9 * time.Second) (12 * time.Second)]
       /\ out st' = [(ErrQueryLoki, [AString "unavailable"])]
       /\ met st' = zero_metrics
       /\ comp st' = comp st
       /\ rdr st' = tt.
Proof.
  intros st missing. split; [reflexivity|]. split; [reflexivity|]. split; [reflexivity|].
  exact (confirmMissing_query_error time.Second (2 * time.Second) missing [] "unavailable" tt st
           eq_refl eq_refl eq_refl).
Defined.

Lemma confirmMissing_output_witness :
  let st := sample_state [time.Second] [] [] [] false in
  let missing := [time.Second; 2 * time.Second] in
  head missing = Some time.Second
  /\ last missing = Some (2 * time.Second)
  /\ Query (rdr st) (time.Add time.Second (-10 * time.Second))
       (time.Add (2 * time.Second) (10 * time.Second))
     = (([time.Second], None), [time.Second])
  /\ exists st' : State (list time.Time),
       confirmMissing missing st = Ok (tt, st')
       /\ calls st' = [CallQuery (-9 * time.Second) (12 * time.Second)]
       /\ out st'
          = [(DebugWebsocketMissingEntry, [AInt time.Second]);
             (DebugWebsocketMissingEntry, [AInt (2 * time.Second)]);
             (DebugQueryResult, [AInt time.Second]);
             (ErrEntryNotReceived,
              [AInt (2 * time.Second); AFloat (time.Seconds (5 * time.Second))])]
       /\ met st' = add_missingEntries 1 zero_metrics
       /\ comp st' = comp st
       /\ clock st' = 0%nat
       /\ goroutines st' = [].
Proof.
  intros st missing. split; [reflexivity|]. split; [reflexivity|]. split; [reflexivity|].
  exact (confirmMissing_output time.Second (2 * time.Second) missing [time.Second]
           [time.Second] st eq_refl eq_refl eq_refl).
Defined.

Lemma spotCheckEntries_query_error_witness :
  let currTime := 100 * time.Second in
  let st := sample_state tt [] [30 * time.Second; 50 * time.Second; 60 * time.Second] []
              false in
  List.filter (unexpired currTime (spotCheckMax (comp st))) (spotCheck (comp st))
  = [50 * time.Second; 60 * time.Second]
  /\ Query (rdr st) (time.Add (50 * time.Second) (-10 * time.Second)) (50 * time.Second)
     = (([], Some "unavailable"), tt)
  /\ exists st' : State unit,
       spotCheckEntries currTime st = Ok (tt, st')
       /\ calls st' = [CallQuery (40 * time.Second) (50 * time.Second)]
       /\ out st' = [(ErrQueryLoki, [AString "unavailable"])]
       /\ met st' = zero_metrics
       /\ spotCheck (comp st') = [50 * time.Second; 60 * time.Second]
       /\ spotCheckRunning (comp st') = false.
Proof.
  intros currTime st. split; [reflexivity|]. split; [reflexivity|].
  exact (spotCheckEntries_query_error currTime (50 * time.Second) [60 * time.Second] []
           "unavailable" tt st eq_refl eq_refl).
Defined.

Lemma spotCheckEntries_all_answered_witness :
  let currTime := 100 * time.Second in
  let st := sample_state [50 * time.Second] []
              [30 * time.Second; 50 * time.Second; 60 * time.Second] [] false in
  (forall (r : list time.Time) (start end_ : time.Time),
      snd (fst (Query r start end_)) = None)
  /\ exists (st' : State (list time.Time)) (n : nat),
       spotCheckEntries currTime st = Ok (tt, st')
       /\ calls st'
          = [CallQuery (40 * time.Second) (50 * time.Second);
             CallQuery (50 * time.Second) (60 * time.Second)]
       /\ (n <= 2)%nat
       /\ met st' = add_spotCheckMissing n zero_metrics
       /\ entries (comp st') = []
       /\ ackdEntries (comp st') = []
       /\ spotCheckRunning (comp st') = false.
Proof.
  intros currTime st.
  assert (Hok : forall (r : list time.Time) (start end_ : time.Time),
             snd (fst (Query r start end_)) = None) by reflexivity.
  split; [exact Hok|].
  exact (spotCheckEntries_all_answered currTime st Hok).
Defined.

Lemma spotCheckEntries_keeps_recent_witness :
  let currTime := 100 * time.Second in
  let st := sample_state tt [] [30 * time.Second; 40 * time.Second; 60 * time.Second] []
              false in
  time.minDuration < spotCheckMax (comp st) <= time.maxDuration
  /\ exists st' : State unit,
       spotCheckEntries currTime st = Ok (tt, st')
       /\ spotCheck (comp st') = [40 * time.Second; 60 * time.Second]
       /\ entries (comp st') = []
       /\ ackdEntries (comp st') = []
       /\ same_config (comp st) (comp st').
Proof.
  intros currTime st.
  assert (Hd : time.minDuration < spotCheckMax (comp st) <= time.maxDuration)
    by (split; [reflexivity|discriminate]).
  split; [exact Hd|].
  exact (spotCheckEntries_keeps_recent currTime st Hd).
Defined.

Lemma configuration_is_fixed_witness :
  let now := 100 * time.Second in
  let st0 := NewComparator hours_ParseDuration [] (5 * time.Second) time.Second time.Second
               (60 * time.Second) time.Second "24h" time.Millisecond 10 tt false
               zero_metrics 0 in
  let st := step_state (frozen now) (Run 0)
              (step_state (frozen now) (Loop PruneTick)
                 (step_state (frozen now) (Loop (Sent (90 * time.Second))) st0)) in
  reachable (frozen now) st0 st
  /\ maxWait (comp st) = 5 * time.Second
  /\ pruneInterval (comp st) = time.Second
  /\ spotCheckInterval (comp st) = time.Second
  /\ spotCheckMax (comp st) = 60 * time.Second
  /\ metricTestInterval (comp st) = time.Second
  /\ metricTestRange (comp st) = "24h"
  /\ metricTestRagenDur (comp st) = 86400 * time.Second
  /\ writeInterval (comp st) = time.Millisecond
  /\ confirmAsync (comp st) = false.
Proof.
  intros now st0 st.
  assert (Hr : reachable (frozen now) st0 st).
  { eapply reachable_step; [eapply reachable_step; [eapply reachable_step;
      [apply reachable_start|]|]|].
    - apply (step_eq (frozen now) (Loop (Sent (90 * time.Second)))). constructor.
    - apply (step_eq (frozen now) (Loop PruneTick)). constructor.
    - apply (step_eq (frozen now) (Run 0)). repeat constructor. }
  split; [exact Hr|].
  exact (configuration_is_fixed (frozen now) hours_ParseDuration [] (5 * time.Second)
           time.Second time.Second (60 * time.Second) time.Second "24h" time.Millisecond 10
           tt false zero_metrics 0 st Hr).
Defined.

Lemma one_check_at_a_time_witness :
  let now := 100 * time.Second in
  let st0 := NewComparator hours_ParseDuration [] (5 * time.Second) time.Second time.Second
               (60 * time.Second) time.Second "24h" time.Millisecond 10 tt false
               zero_metrics 0 in
  let st := step_state (frozen now) (Loop PruneTick)
              (step_state (frozen now) (Loop MetricTestTick)
                 (step_state (frozen now) (Loop PruneTick)
                    (step_state (frozen now) (Loop MetricTestTick) st0))) in
  reachable (frozen now) st0 st
  /\ goroutines st = [GoMetricTest; GoSpotCheckEntries now]
  /\ (length (List.filter is_metricTest (goroutines st))
      <= if metricTestRunning (comp st) then 1 else 0)%nat
  /\ (length (List.filter is_spotCheck (goroutines st))
      <= if spotCheckRunning (comp st) then 1 else 0)%nat.
Proof.
  intros now st0 st.
  assert (Hr : reachable (frozen now) st0 st).
  { eapply reachable_step; [eapply reachable_step; [eapply reachable_step;
      [eapply reachable_step; [apply reachable_start|]|]|]|].
    - apply (step_eq (frozen now) (Loop MetricTestTick)). constructor.
    - apply (step_eq (frozen now) (Loop PruneTick)). repeat constructor.
    - apply (step_eq (frozen now) (Loop MetricTestTick)). repeat constructor.
    - apply (step_eq (frozen now) (Loop PruneTick)). repeat constructor. }
  split; [exact Hr|]. split; [reflexivity|].
  exact (one_check_at_a_time (frozen now) hours_ParseDuration [] (5 * time.Second)
           time.Second time.Second (60 * time.Second) time.Second "24h" time.Millisecond 10
           tt false zero_metrics 0 st Hr).
Defined.

Lemma sent_entries_accounted_witness :
  let now := 100 * time.Second in
  let st0 := sample_state tt [90 * time.Second] [] [] false in
  let st := step_state (frozen now) (Loop PruneTick)
              (step_state (frozen now) (Loop (Recv (98 * time.Second)))
                 (step_state (frozen now) (Loop (Sent (99 * time.Second)))
                    (step_state (frozen now) (Loop (Sent (98 * time.Second))) st0))) in
  reachable (frozen now) st0 st
  /\ totalEntries (met st) = 2%nat
  /\ entries (comp st) = [99 * time.Second]
  /\ length (responseLatency (met st)) = 1%nat
  /\ wsMissingEntries (met st) = 1%nat
  /\ (totalEntries (met st)
      + (length (entries (comp st0)) + length (responseLatency (met st0))
         + wsMissingEntries (met st0))
      = totalEntries (met st0)
        + (length (entries (comp st)) + length (responseLatency (met st))
           + wsMissingEntries (met st)))%nat.
Proof.
  intros now st0 st.
  assert (Hr : reachable (frozen now) st0 st).
  { eapply reachable_step; [eapply reachable_step; [eapply reachable_step;
      [eapply reachable_step; [apply reachable_start|]|]|]|].
    - apply (step_eq (frozen now) (Loop (Sent (98 * time.Second)))). constructor.
    - apply (step_eq (frozen now) (Loop (Sent (99 * time.Second)))). constructor.
    - apply (step_eq (frozen now) (Loop (Recv (98 * time.Second)))). constructor.
    - apply (step_eq (frozen now) (Loop PruneTick)). constructor. }
  split; [exact Hr|]. split; [reflexivity|]. split; [reflexivity|]. split; [reflexivity|].
  split; [reflexivity|].
  exact (sent_entries_accounted (frozen now) st0 st Hr).
Defined.

Lemma nothing_served_after_quit_witness :
  let now := 100 * time.Second in
  let st0 := sample_state tt [99 * time.Second] [] [] false in
  let st := step_state (frozen now) (Loop Quit)
              (step_state (frozen now) (Loop PruneTick) st0) in
  let st' := step_state (frozen now) (Run 0)
               (step_state (frozen now) (Loop (Sent now)) st) in
  done (comp st) = true
  /\ reachable (frozen now) st st'
  /\ goroutines st = [GoSpotCheckEntries now]
  /\ done (comp st') = true
  /\ entries (comp st') = entries (comp st)
  /\ ackdEntries (comp st') = ackdEntries (comp st)
  /\ totalEntries (met st') = totalEntries (met st)
  /\ wsMissingEntries (met st') = wsMissingEntries (met st)
  /\ responseLatency (met st') = responseLatency (met st)
  /\ (length (goroutines st') <= length (goroutines st))%nat.
Proof.
  intros now st0 st st'.
  assert (Hd : done (comp st) = true) by reflexivity.
  assert (Hr : reachable (frozen now) st st').
  { eapply reachable_step; [eapply reachable_step; [apply reachable_start|]|].
    - apply (step_eq (frozen now) (Loop (Sent now))). repeat constructor.
    - apply (step_eq (frozen now) (Run 0)). repeat constructor. }
  split; [exact Hd|]. split; [exact Hr|]. split; [reflexivity|].
  exact (nothing_served_after_quit (frozen now) st st' Hd Hr).
Defined.

Lemma metricTest_uses_parsed_range_witness :
  let now := 100 * time.Second in
  let stored := [98 * time.Second; 99 * time.Second] in
  let st0 := NewComparator hours_ParseDuration [] (5 * time.Second) time.Second time.Second
               (60 * time.Second) time.Second "24h" time.Millisecond 10 stored false
               zero_metrics 0 in
  let st := step_state (frozen now) (Loop MetricTestTick)
              (step_state (frozen now) (Loop (Sent (99 * time.Second))) st0) in
  hours_ParseDuration "24h" = (86400 * time.Second, None)
  /\ 86400 * time.Second <> 0
  /\ reachable (frozen now) st0 st
  /\ QueryCountOverTime (rdr st) "24h" = ((2%float, None), stored)
  /\ exists st' : State (list time.Time),
       metricTest st = Ok (tt, st')
       /\ calls st' = calls st ++ [CallQueryCountOverTime "24h"]
       /\ out st' = out st
       /\ metricTestDeviation (met st')
          = (time.float64 (time.Milliseconds (86400 * time.Second))
             / time.float64 (time.Milliseconds time.Millisecond) - 2)%float
       /\ metricTestRunning (comp st') = false
       /\ rdr st' = stored.
Proof.
  intros now stored st0 st.
  assert (Hp : hours_ParseDuration "24h" = (86400 * time.Second, None)) by reflexivity.
  assert (Hd : 86400 * time.Second <> 0) by discriminate.
  assert (Hr : reachable (frozen now) st0 st).
  { eapply reachable_step; [eapply reachable_step; [apply reachable_start|]|].
    - apply (step_eq (frozen now) (Loop (Sent (99 * time.Second)))). constructor.
    - apply (step_eq (frozen now) (Loop MetricTestTick)). constructor. }
  assert (HQ : QueryCountOverTime (rdr st) "24h" = ((2%float, None), stored))
    by (vm_compute; reflexivity).
  split; [exact Hp|]. split; [exact Hd|]. split; [exact Hr|]. split; [exact HQ|].
  exact (metricTest_uses_parsed_range (frozen now) hours_ParseDuration [] (5 * time.Second)
           time.Second time.Second (60 * time.Second) time.Second "24h" time.Millisecond 10
           stored false zero_metrics 0 (86400 * time.Second) 2%float stored st Hp Hd Hr HQ).
Defined.
